(** * Wireless Communication System: the cue node

    A shallow embedding of the node program (main.py and its Dependencies
    package) together with the properties its design document states about
    the readiness gate, the node state machine, the LED arbiter, the display
    latch, the synchronizers and the error log. *)

From Stdlib Require Import ZArith QArith Ascii String List Bool Lia.
From Stdlib Require SpecFloat.
From stdpp Require Import base option list strings pretty gmap.

Local Open Scope Z_scope.
Local Open Scope string_scope.
Local Open Scope list_scope.

(** ** Python preliminaries *)

(** The exceptions that the modelled code raises or catches. *)
Inductive exn :=
  | KeyError
  | AttributeError
  | OSError.

(** Outcome of a Python call: a returned value or a raised exception. *)
Inductive res (A : Type) :=
  | Ok (a : A)
  | Raise (e : exn).
Arguments Ok {A} a.
Arguments Raise {A} e.

(** [s[:n]] and [s[i:j]] on strings (Python slices never raise). *)
Definition slice (i j : nat) (s : string) : string := substring i (j - i) s.

(** ** Dependencies/LCD: the 16 by 2 display *)

Module LCD.

(** Calls received by the Adafruit_CharLCD driver, oldest first. *)
Inductive driver_call :=
  | begin_ (cols rows : Z)
  | home
  | message_ (s : string)
  | clear_.

(** Data attributes of an LCDDisplay object.  [display] is [None] while
    the attribute has not been assigned. *)
Record t := mk {
  message : string;
  currentPriority : Z;
  isSetup : bool;
  display : option (list driver_call)
}.

(** [change_priority] *)
Definition change_priority (priority : Z) (l : t) : t :=
  mk (message l) priority (isSetup l) (display l).

(** [display_text(text, priority=1)] *)
Definition display_text (text : string) (priority : Z) (l : t) : res t :=
  if isSetup l && (priority >=? currentPriority l) then
    let msg := slice 0 32 text in
    match display l with
    | None => Raise AttributeError
    | Some d =>
        let d1 := d ++ [home] in
        let d2 := d1 ++ [message_ (slice 0 16 msg +:+ String "010"%char "")] in
        let d3 := d2 ++ [message_ (slice 16 32 msg)] in
        Ok (change_priority priority (mk msg (currentPriority l) (isSetup l) (Some d3)))
    end
  else Ok l.

(** The default value of [priority]. *)
Definition default_priority : Z := 1.

(** [get] *)
Definition get (l : t) : string := message l.

(** [clear] *)
Definition clear (l : t) : res t :=
  match display l with
  | None => Raise AttributeError
  | Some d => Ok (mk (message l) (currentPriority l) (isSetup l) (Some (d ++ [clear_])))
  end.

(** [__bool__] *)
Definition bool_ (l : t) : bool := if isSetup l then true else false.

Section Setup.
(** The candidate adapter addresses (Dependencies/LCD/addresses.py) and
    the bus: [responds a] holds when [PCF8574_GPIO(a)] returns an adapter,
    otherwise the constructor raises OSError. *)
Variable ADDRESSES : list Z.
Variable responds : Z -> bool.

(** The [for ... else] scan: the first address whose adapter is built,
    or [None] when the loop runs to its end. *)
Fixpoint find_adapter (addresses : list Z) : option Z :=
  match addresses with
  | [] => None
  | address :: rest =>
      if responds address then Some address else find_adapter rest
  end.

(** [__display_setup] *)
Definition display_setup (l : t) : t :=
  let l1 := mk (message l) (currentPriority l) true (display l) in
  let l2 :=
    match find_adapter ADDRESSES with
    | Some _ => l1
    | None => mk (message l1) (currentPriority l1) false (display l1)
    end in
  if isSetup l2 then
    mk (message l2) (currentPriority l2) (isSetup l2) (Some [begin_ 16 2])
  else l2.

(** [__init__] *)
Definition init : t := display_setup (mk "" 0 false None).
End Setup.

End LCD.

(** ** Dependencies/errors: the persistent error log *)

Module ErrorStorage.

(** An ErrorStorage object and the JSON file it writes: [file] is the list
    last dumped to [filename] ([None]: no readable list on disk). *)
Record t := mk {
  filename : string;
  errors : list string;
  file : option (list string)
}.

(** [__error_load]: a missing or undecodable file gives the empty list. *)
Definition error_load (e : t) : t :=
  match file e with
  | Some l => mk (filename e) l (file e)
  | None => mk (filename e) [] (file e)
  end.

(** [__init__] *)
Definition init (filename : string) (disk : option (list string)) : t :=
  error_load (mk filename [] disk).

(** [__error_dump] *)
Definition error_dump (e : t) : t :=
  mk (filename e) (errors e) (Some (errors e)).

(** [update]; [trace] is what [format_exc()] returns for the exception
    being handled. *)
Definition update (trace : string) (e : t) : t :=
  let e1 :=
    if decide (trace ∈ errors e) then e
    else mk (filename e) (errors e ++ [trace]) (file e) in
  error_dump e1.

(** [clear] *)
Definition clear (e : t) : t := error_dump (mk (filename e) [] (file e)).

(** [get] *)
Definition get (e : t) : list string := errors e.

(** [__bool__] *)
Definition bool_ (e : t) : bool :=
  if decide (errors e = []) then false else true.

End ErrorStorage.

(** ** Dependencies/GPIO: LEDs and button *)

Module GPIO.

(** The coroutine stored in [__screenTask]. *)
Inductive screen_task :=
  | default_screen_co
  | solid_screen_co
  | blink_screen_co.

(** The coroutine stored in [__buttonTask]. *)
Inductive button_task :=
  | button_state_co
  | blink_button_co.

(** Data attributes of a GPIOManagement object; [isPressed] is the
    ButtonManager's flag. *)
Record t := mk {
  delay : Z;
  isConnected : bool;
  screenTask : screen_task;
  buttonTask : button_task;
  screenArg : string;
  buttonArg : bool;
  isPressed : bool
}.

(** [default_screen] *)
Definition default_screen (g : t) : t :=
  mk (delay g) (isConnected g) default_screen_co (buttonTask g)
     (screenArg g) (buttonArg g) (isPressed g).

(** [solid_screen] *)
Definition solid_screen (hexString : string) (g : t) : t :=
  mk (delay g) (isConnected g) solid_screen_co (buttonTask g)
     hexString (buttonArg g) (isPressed g).

(** [blink_screen] *)
Definition blink_screen (hexString : string) (g : t) : t :=
  mk (delay g) (isConnected g) blink_screen_co (buttonTask g)
     hexString (buttonArg g) (isPressed g).

(** [standby] *)
Definition standby (g : t) : t := solid_screen "FFFF00" g.

(** [multiple_standbys] *)
Definition multiple_standbys (g : t) : t := blink_screen "FFFF00" g.

(** [go] *)
Definition go (g : t) : t := solid_screen "00FF00" g.

(** [button_state] *)
Definition button_state (state : bool) (g : t) : t :=
  mk (delay g) (isConnected g) (screenTask g) button_state_co
     (screenArg g) state (isPressed g).

(** [blink_button] *)
Definition blink_button (g : t) : t :=
  mk (delay g) (isConnected g) (screenTask g) blink_button_co
     (screenArg g) (buttonArg g) (isPressed g).

(** [connected] *)
Definition connected (state : bool) (g : t) : t :=
  mk (delay g) state (screenTask g) (buttonTask g)
     (screenArg g) (buttonArg g) (isPressed g).

(** [pressed] *)
Definition pressed (g : t) : bool := isPressed g.

(** [get_delay] *)
Definition get_delay (g : t) : Z := delay g.

(** ButtonManager.pressed, the edge-detection callback. *)
Definition button_callback (g : t) : t :=
  mk (delay g) (isConnected g) (screenTask g) (buttonTask g)
     (screenArg g) (buttonArg g) true.

(** [reset_button_pressed] *)
Definition reset_button_pressed (g : t) : t :=
  mk (delay g) (isConnected g) (screenTask g) (buttonTask g)
     (screenArg g) (buttonArg g) false.

(** [__init__]: the tasks are chosen first, then both arguments are set
    to their defaults. *)
Definition init (defaultColor : string) (delay : Z) : t :=
  let g := mk delay false default_screen_co button_state_co "" false false in
  let g := default_screen g in
  let g := button_state false g in
  mk (GPIO.delay g) (isConnected g) (screenTask g) (buttonTask g)
     defaultColor false (isPressed g).

(** What one button-light coroutine does to the button LED. *)
Inductive button_job :=
  | button_state_job (state : bool)
  | blink_button_job.

(** What one screen coroutine does to the RGB LED. *)
Inductive screen_job :=
  | default_screen_job
  | solid_screen_job (hexString : string)
  | blink_screen_job (hexString : string).

(** Calling the stored button coroutine on its argument; [__blink_button]
    ignores the argument. *)
Definition call_button (f : button_task) (arg : bool) : button_job :=
  match f with
  | button_state_co => button_state_job arg
  | blink_button_co => blink_button_job
  end.

(** Calling the stored screen coroutine on its argument; [__default_screen]
    ignores the argument. *)
Definition call_screen (f : screen_task) (arg : string) : screen_job :=
  match f with
  | default_screen_co => default_screen_job
  | solid_screen_co => solid_screen_job arg
  | blink_screen_co => blink_screen_job arg
  end.

(** [__not_connected] *)
Definition not_connected : screen_job := blink_screen_job "FF0000".

(** [run_LED_tasks]: the two coroutines handed to [asyncio.gather]. *)
Definition run_LED_tasks (g : t) : button_job * screen_job :=
  if isConnected g then
    (call_button (buttonTask g) (buttonArg g),
     call_screen (screenTask g) (screenArg g))
  else
    (button_state_job false, not_connected).

End GPIO.

(** ** Python values, pandas Series and DataFrames *)

(** The scalars that travel through the node: [None], integers, strings. *)
Inductive value :=
  | VNone
  | VInt (z : Z)
  | VStr (s : string).

#[global] Instance value_eq_dec : EqDecision value.
Proof. solve_decision. Defined.

#[global] Instance value_countable : Countable value.
Proof.
  refine (inj_countable'
    (fun v => match v with
              | VNone => inl tt
              | VInt z => inr (inl z)
              | VStr s => inr (inr s)
              end)
    (fun x => match x with
              | inl _ => VNone
              | inr (inl z) => VInt z
              | inr (inr s) => VStr s
              end) _).
  intros []; reflexivity.
Defined.

(** [a != b] *)
Definition py_ne (a b : value) : bool := bool_decide (a ≠ b).

(** [a == b] *)
Definition py_eq (a b : value) : bool := bool_decide (a = b).

(** [str(v)], as used by f-strings. *)
Definition py_str (v : value) : string :=
  match v with
  | VNone => "None"
  | VInt z => pretty z
  | VStr s => s
  end.

(** [' ' * n] *)
Fixpoint spaces (n : nat) : string :=
  match n with
  | O => ""
  | S n' => String " "%char (spaces n')
  end.

(** A pandas Series is a map from labels to values; [pd.Series()] is the
    empty map and [.empty] tests for it.  A DataFrame maps a row label to
    the Series of that row. *)
Definition series_empty (s : gmap string value) : bool := bool_decide (s = ∅).

(** ** main.py: the Node object *)

(** [__datatype_dict] *)
Definition datatype_dict : gmap string Z :=
  list_to_map
    [("Online", 65); ("Attributes", 68); ("Cue to Node", 69);
     ("Current", 70); ("Node", 71)].

(** The future returned by [asyncio.gather] over the two setup coroutines:
    the value each has returned so far. *)
Record gathering := mkGathering {
  state_frame_result : option string;
  attributes_result : option string
}.

(** [.done()] of the gathering future. *)
Definition gathering_done (g : gathering) : bool :=
  match state_frame_result g, attributes_result g with
  | Some _, Some _ => true
  | _, _ => false
  end.

(** Data attributes of a Node.  The attributes from [attributes_dict] on are
    not assigned by [__init__]; they are [None] until their first
    assignment, and reading one before that raises AttributeError.
    [futures] is the store of the asyncio futures created for
    [__uptodate_future] (their done flags); [uptodate_future] refers into
    it.  [communication] is the log of the calls of
    [Communication.send_message], oldest first, each with its arguments as
    they were at the call: the node record is handed over as it then is,
    and what the node assigns to it afterwards is not part of that call. *)
Record Node := mkNode {
  nodeSeries : gmap string value;
  changeState : bool;
  initialState : bool;
  mac : string;
  errorStorage : ErrorStorage.t;
  communication : list (gmap string value * Z);
  LCD : LCD.t;
  GPIO : GPIO.t;
  attributes_dict : option (gmap string value);
  stateFrame : option (gmap value (gmap string value));
  cueSeries : option (gmap string value);
  oldServerTime : option value;
  justPressed : option bool;
  futures : list bool;
  uptodate_future : option nat;
  setup_tasks : option gathering
}.

(** Assignment to one data attribute. *)
Definition set_nodeSeries (x : gmap string value) (n : Node) : Node :=
  mkNode x (changeState n) (initialState n) (mac n) (errorStorage n)
    (communication n) (LCD n) (GPIO n) (attributes_dict n) (stateFrame n)
    (cueSeries n) (oldServerTime n) (justPressed n) (futures n)
    (uptodate_future n) (setup_tasks n).

Definition set_changeState (x : bool) (n : Node) : Node :=
  mkNode (nodeSeries n) x (initialState n) (mac n) (errorStorage n)
    (communication n) (LCD n) (GPIO n) (attributes_dict n) (stateFrame n)
    (cueSeries n) (oldServerTime n) (justPressed n) (futures n)
    (uptodate_future n) (setup_tasks n).

Definition set_initialState (x : bool) (n : Node) : Node :=
  mkNode (nodeSeries n) (changeState n) x (mac n) (errorStorage n)
    (communication n) (LCD n) (GPIO n) (attributes_dict n) (stateFrame n)
    (cueSeries n) (oldServerTime n) (justPressed n) (futures n)
    (uptodate_future n) (setup_tasks n).

Definition set_errorStorage (x : ErrorStorage.t) (n : Node) : Node :=
  mkNode (nodeSeries n) (changeState n) (initialState n) (mac n) x
    (communication n) (LCD n) (GPIO n) (attributes_dict n) (stateFrame n)
    (cueSeries n) (oldServerTime n) (justPressed n) (futures n)
    (uptodate_future n) (setup_tasks n).

Definition set_communication (x : list (gmap string value * Z)) (n : Node) : Node :=
  mkNode (nodeSeries n) (changeState n) (initialState n) (mac n)
    (errorStorage n) x (LCD n) (GPIO n) (attributes_dict n) (stateFrame n)
    (cueSeries n) (oldServerTime n) (justPressed n) (futures n)
    (uptodate_future n) (setup_tasks n).

Definition set_LCD (x : LCD.t) (n : Node) : Node :=
  mkNode (nodeSeries n) (changeState n) (initialState n) (mac n)
    (errorStorage n) (communication n) x (GPIO n) (attributes_dict n)
    (stateFrame n) (cueSeries n) (oldServerTime n) (justPressed n) (futures
    n) (uptodate_future n) (setup_tasks n).

Definition set_GPIO (x : GPIO.t) (n : Node) : Node :=
  mkNode (nodeSeries n) (changeState n) (initialState n) (mac n)
    (errorStorage n) (communication n) (LCD n) x (attributes_dict n)
    (stateFrame n) (cueSeries n) (oldServerTime n) (justPressed n) (futures
    n) (uptodate_future n) (setup_tasks n).

Definition set_attributes_dict (x : option (gmap string value)) (n : Node) : Node :=
  mkNode (nodeSeries n) (changeState n) (initialState n) (mac n)
    (errorStorage n) (communication n) (LCD n) (GPIO n) x (stateFrame n)
    (cueSeries n) (oldServerTime n) (justPressed n) (futures n)
    (uptodate_future n) (setup_tasks n).

Definition set_stateFrame (x : option (gmap value (gmap string value))) (n : Node) : Node :=
  mkNode (nodeSeries n) (changeState n) (initialState n) (mac n)
    (errorStorage n) (communication n) (LCD n) (GPIO n) (attributes_dict n)
    x (cueSeries n) (oldServerTime n) (justPressed n) (futures n)
    (uptodate_future n) (setup_tasks n).

Definition set_cueSeries (x : option (gmap string value)) (n : Node) : Node :=
  mkNode (nodeSeries n) (changeState n) (initialState n) (mac n)
    (errorStorage n) (communication n) (LCD n) (GPIO n) (attributes_dict n)
    (stateFrame n) x (oldServerTime n) (justPressed n) (futures n)
    (uptodate_future n) (setup_tasks n).

Definition set_oldServerTime (x : option value) (n : Node) : Node :=
  mkNode (nodeSeries n) (changeState n) (initialState n) (mac n)
    (errorStorage n) (communication n) (LCD n) (GPIO n) (attributes_dict n)
    (stateFrame n) (cueSeries n) x (justPressed n) (futures n)
    (uptodate_future n) (setup_tasks n).

Definition set_justPressed (x : option bool) (n : Node) : Node :=
  mkNode (nodeSeries n) (changeState n) (initialState n) (mac n)
    (errorStorage n) (communication n) (LCD n) (GPIO n) (attributes_dict n)
    (stateFrame n) (cueSeries n) (oldServerTime n) x (futures n)
    (uptodate_future n) (setup_tasks n).

Definition set_futures (x : list bool) (n : Node) : Node :=
  mkNode (nodeSeries n) (changeState n) (initialState n) (mac n)
    (errorStorage n) (communication n) (LCD n) (GPIO n) (attributes_dict n)
    (stateFrame n) (cueSeries n) (oldServerTime n) (justPressed n) x
    (uptodate_future n) (setup_tasks n).

Definition set_uptodate_future (x : option nat) (n : Node) : Node :=
  mkNode (nodeSeries n) (changeState n) (initialState n) (mac n)
    (errorStorage n) (communication n) (LCD n) (GPIO n) (attributes_dict n)
    (stateFrame n) (cueSeries n) (oldServerTime n) (justPressed n) (futures
    n) x (setup_tasks n).

Definition set_setup_tasks (x : option gathering) (n : Node) : Node :=
  mkNode (nodeSeries n) (changeState n) (initialState n) (mac n)
    (errorStorage n) (communication n) (LCD n) (GPIO n) (attributes_dict n)
    (stateFrame n) (cueSeries n) (oldServerTime n) (justPressed n) (futures
    n) (uptodate_future n) x.

(** *** Coroutine bodies as state-and-exception computations *)

(** A piece of Python code run on the Node: it returns or raises, and in
    both cases leaves the attributes as it mutated them. *)
Definition M (A : Type) : Type := Node -> res A * Node.

Definition ret {A} (a : A) : M A := fun n => (Ok a, n).

Definition raise {A} (e : exn) : M A := fun n => (Raise e, n).

Definition bind {A B} (c : M A) (k : A -> M B) : M B :=
  fun n =>
    match c n with
    | (Ok a, n') => k a n'
    | (Raise e, n') => (Raise e, n')
    end.

Notation "'do' x <- c ; k" := (bind c (fun x => k))
  (at level 10, x name, c at level 100, k at level 200).
Notation "c ;; k" := (bind c (fun _ => k))
  (at level 100, k at level 200, right associativity).

(** Reading an attribute that [__init__] assigns. *)
Definition gets {A} (f : Node -> A) : M A := fun n => (Ok (f n), n).

(** Reading an attribute that may not have been assigned yet. *)
Definition getattr {A} (f : Node -> option A) : M A :=
  fun n =>
    match f n with
    | Some a => (Ok a, n)
    | None => (Raise AttributeError, n)
    end.

(** Assigning attributes. *)
Definition modify (f : Node -> Node) : M unit := fun n => (Ok tt, f n).

(** [d[k]] on a dict or Series. *)
Definition subscript {K} `{Countable K} {V} (d : gmap K V) (k : K) : M V :=
  match d !! k with
  | Some v => ret v
  | None => raise KeyError
  end.

(** [try: body / except <caught>: handler] *)
Definition try_except {A} (body : M A) (caught : exn -> bool) (handler : M A)
  : M A :=
  fun n =>
    match body n with
    | (Ok a, n') => (Ok a, n')
    | (Raise e, n') => if caught e then handler n' else (Raise e, n')
    end.

(** [except KeyError] *)
Definition except_KeyError (e : exn) : bool :=
  match e with KeyError => true | _ => false end.

(** [except (KeyError, AttributeError)] *)
Definition except_KeyError_AttributeError (e : exn) : bool :=
  match e with KeyError | AttributeError => true | _ => false end.

(** [frame.loc[label]] where [frame] is what [receive_data] returned:
    [None] has no attribute [loc], a missing row label is a KeyError. *)
Definition loc (frame : option (gmap value (gmap string value))) (label : value)
  : M (gmap string value) :=
  match frame with
  | None => raise AttributeError
  | Some df => subscript df label
  end.

(** [frame.at[row, column]] *)
Definition at_ (frame : gmap value (gmap string value)) (row : value)
    (column : string) : M value :=
  do r <- subscript frame row;
  subscript r column.

(** Calling a method of the LCD object. *)
Definition call_LCD (f : LCD.t -> res LCD.t) : M unit :=
  fun n =>
    match f (LCD n) with
    | Ok l => (Ok tt, set_LCD l n)
    | Raise e => (Raise e, n)
    end.

(** Calling a method of the GPIO object. *)
Definition call_GPIO (f : GPIO.t -> GPIO.t) : M unit :=
  modify (fun n => set_GPIO (f (GPIO n)) n).

(** *** Futures *)

(** [asyncio.get_running_loop().create_future()] *)
Definition create_future : M nat :=
  fun n => (Ok (length (futures n)), set_futures (futures n ++ [false]) n).

(** [f.done()] *)
Definition future_done (f : nat) : M bool :=
  gets (fun n => bool_decide (futures n !! f = Some true)).

(** [f.set_result('updated')] *)
Definition set_result (f : nat) : M unit :=
  modify (fun n => set_futures (<[f := true]> (futures n)) n).

(** [self.__uptodate_future.done()] *)
Definition uptodate_done : M bool :=
  do f <- getattr uptodate_future;
  future_done f.

(** *** Getters *)

(** [__get_node_series_value] *)
Definition get_node_series_value (index : string) : M value :=
  try_except
    (do s <- gets nodeSeries; subscript s index)
    except_KeyError
    (ret (VStr "None")).

(** [__get_attribute_value] *)
Definition get_attribute_value (key : string) : M value :=
  try_except
    (do d <- getattr attributes_dict; subscript d key)
    except_KeyError
    (ret (VStr "None")).

(** *** What a coroutine does next *)

(** One pass through a retry loop: suspend in [asyncio.sleep(d)] and go
    round again, or leave the loop and return. *)
Inductive attempt :=
  | Backoff (d : Q)
  | Finished (result : string).

(** The branch of the node state machine taken in one cycle. *)
Inductive branch :=
  | NoCue
  | NewCue
  | FinalPhase
  | NoUpdate.

(** The [updated] flag a branch leaves behind. *)
Definition updated (b : branch) : bool :=
  match b with
  | NewCue | FinalPhase => true
  | NoCue | NoUpdate => false
  end.

(** *** run_tasks *)

(** The first two statements of [run_tasks]. *)
Definition run_tasks_start : M unit :=
  do f <- create_future;
  modify (set_uptodate_future (Some f));;
  modify (set_setup_tasks (Some (mkGathering None None))).

(** The text shown by the exception handler of [run_tasks]. *)
Definition error_text : string := "An error has occurred: check log".

(** [cleanup]; [GPIO.cleanup()] only releases the pins. *)
Definition cleanup : M unit := call_LCD LCD.clear.

(** The [except Exception] handler of [run_tasks], with the traceback of
    the exception it caught; between the message and the cleanup it sleeps
    for 10 seconds. *)
Definition run_tasks_except (trace : string) : M unit :=
  modify (fun n => set_errorStorage (ErrorStorage.update trace (errorStorage n)) n);;
  call_LCD (LCD.display_text error_text 2);;
  cleanup.

(** *** __uptodate_check *)

(** The statement before the loop; [r] is what [receive_data] returned. *)
Definition uptodate_check_start (r : value) : M unit :=
  modify (set_oldServerTime (Some r)).

(** One pass through the [while True] loop; [newServerTime] is what
    [receive_data] returned, the result is the sleep that ends the pass. *)
Definition uptodate_check_poll (newServerTime : value) : M Q :=
  do old <- getattr oldServerTime;
  if py_ne newServerTime VNone && py_ne newServerTime old then
    do d <- uptodate_done;
    (if negb d then
       do f <- getattr uptodate_future;
       set_result f
     else ret tt);;
    modify (set_oldServerTime (Some newServerTime));;
    ret (5 # 1)%Q
  else
    do d <- uptodate_done;
    (if d then
       do f <- create_future;
       modify (set_uptodate_future (Some f))
     else ret tt);;
    ret (1 # 4)%Q.

(** The loop on a finite prefix of the reads: the sleeps it went through. *)
Fixpoint uptodate_check_loop (reads : list value) : M (list Q) :=
  match reads with
  | [] => ret []
  | r :: rest =>
      do d <- uptodate_check_poll r;
      do ds <- uptodate_check_loop rest;
      ret (d :: ds)
  end.

(** [__uptodate_check] on the reads [r0 :: reads]. *)
Definition uptodate_check (r0 : value) (reads : list value) : M (list Q) :=
  uptodate_check_start r0;;
  uptodate_check_loop reads.

(** *** __update_attributes and __update_state_frame *)

(** One pass through the loop of [__update_attributes], once the await on
    the readiness future has completed; [all_attributes] is what
    [receive_data] returned. *)
Definition update_attributes_attempt
    (all_attributes : option (gmap value (gmap string value))) : M attempt :=
  try_except
    (do m <- gets mac;
     do attributes_series <- loc all_attributes (VStr m);
     modify (set_attributes_dict (Some attributes_series));;
     ret (Finished "Attributes Updated"))
    except_KeyError_AttributeError
    (ret (Backoff (5 # 1)%Q)).

(** One pass through the loop of [__update_state_frame]. *)
Definition update_state_frame_attempt
    (serverFrame : option (gmap value (gmap string value))) : M attempt :=
  match serverFrame with
  | Some _ =>
      modify (set_stateFrame serverFrame);;
      ret (Finished "State Dataframe Updated")
  | None => ret (Backoff (5 # 2)%Q)
  end.

(** A synchronizer run on the successive answers of the server. *)
Record sync_run := mkSyncRun {
  backoffs : list Q;            (* the sleeps, in order *)
  returned : option string;     (* the return value, once the loop is left *)
  unread : list (option (gmap value (gmap string value)));
                                (* answers never asked for *)
  final : res unit * Node
}.

(** A retry loop [while not(updated)] around [attempt_]: each answer is
    the one [receive_data] gives in a pass, after the await on the
    readiness future of that pass has completed; the loop stops asking when
    a pass finishes, when one raises, or when the answers run out. *)
Fixpoint retry_loop
    (attempt_ : option (gmap value (gmap string value)) -> M attempt)
    (answers : list (option (gmap value (gmap string value)))) (n : Node)
  : sync_run :=
  match answers with
  | [] => mkSyncRun [] None [] (Ok tt, n)
  | a :: rest =>
      match attempt_ a n with
      | (Ok (Finished s), n') => mkSyncRun [] (Some s) rest (Ok tt, n')
      | (Ok (Backoff d), n') =>
          let r := retry_loop attempt_ rest n' in
          mkSyncRun (d :: backoffs r) (returned r) (unread r) (final r)
      | (Raise e, n') => mkSyncRun [] None rest (Raise e, n')
      end
  end.

(** [__update_attributes] *)
Definition update_attributes := retry_loop update_attributes_attempt.

(** [__update_state_frame] *)
Definition update_state_frame := retry_loop update_state_frame_attempt.

(** *** __get_cue_series *)

(** The statement between the await on the setup tasks and the loop. *)
Definition get_cue_series_start : M unit :=
  modify (set_cueSeries (Some ∅)).

(** One pass through the loop, once the await on the readiness future has
    completed; the result lists the sleeps of the pass. *)
Definition get_cue_series_cycle
    (all_cue_nums : option (gmap value (gmap string value))) : M (list Q) :=
  do ds <- try_except
    (match all_cue_nums with
     | None => raise AttributeError
     | Some df =>
         do prefix <- get_attribute_value "Cue Prefix";
         do row <- subscript df prefix;
         modify (set_cueSeries (Some row));;
         ret []
     end)
    except_KeyError_AttributeError
    (ret [(1 # 1)%Q]);
  ret (ds ++ [(1 # 1)%Q]).

(** *** __update_node_series *)

(** The statement between the await on the setup tasks and the loop. *)
Definition update_node_series_start : M unit :=
  modify (set_nodeSeries ∅).

(** [self.__cueSeries[attribute] != await self.__get_node_series_value(attribute)] *)
Definition cue_differs (attribute : string) : M bool :=
  do cue <- getattr cueSeries;
  do c <- subscript cue attribute;
  do v <- get_node_series_value attribute;
  ret (py_ne c v).

(** The list comprehension over [('Cue Number', 'Cue State')]. *)
Fixpoint comprehension {A} (f : string -> M A) (l : list string) : M (list A) :=
  match l with
  | [] => ret []
  | x :: rest =>
      do y <- f x;
      do ys <- comprehension f rest;
      ret (y :: ys)
  end.

(** [any(l)] *)
Definition any (l : list bool) : bool := existsb (fun b => b) l.

(** [self.__nodeSeries[index] = v] *)
Definition set_node_series_value (index : string) (v : value) : M unit :=
  modify (fun n => set_nodeSeries (<[index := v]> (nodeSeries n)) n).

(** The condition of the first [elif]:
    [self.__nodeSeries.empty or any([...])]. *)
Definition is_new_cue : M bool :=
  do node_empty <- gets (fun n => series_empty (nodeSeries n));
  if node_empty then ret true
  else
    do l <- comprehension cue_differs ["Cue Number"; "Cue State"];
    ret (any l).

(** [self.__nodeSeries['Node State'] =
     self.__stateFrame.at[self.__nodeSeries['Cue State'], column]] *)
Definition set_node_state_from (column : string) : M unit :=
  do frame <- getattr stateFrame;
  do s <- gets nodeSeries;
  do cueState <- subscript s "Cue State";
  do v <- at_ frame cueState column;
  set_node_series_value "Node State" v.

(** The body of the first [elif]: a new cue. *)
Definition new_cue_branch : M branch :=
  (do cue <- getattr cueSeries;
   modify (set_nodeSeries cue));;
  set_node_state_from "Initial Node State";;
  (do v <- get_attribute_value "Node Number";
   set_node_series_value "Node Number" v);;
  modify (set_changeState false);;
  modify (set_initialState true);;
  call_GPIO GPIO.reset_button_pressed;;
  ret NewCue.

(** The body of the second [elif]: the final phase. *)
Definition final_phase_branch : M branch :=
  set_node_state_from "Final Node State";;
  modify (set_initialState false);;
  ret FinalPhase.

(** The [if / elif / elif / else] of one cycle, from the completed await on
    the readiness future to the test of [updated]. *)
Definition update_node_series_decide : M branch :=
  do cue <- getattr cueSeries;
  if series_empty cue then ret NoCue
  else
    do new_cue <- is_new_cue;
    if new_cue then new_cue_branch
    else
      do c <- gets changeState;
      do i <- gets initialState;
      if c && i then final_phase_branch
      else ret NoUpdate.

(** The body of [if updated:], after its [asyncio.sleep(1)]. *)
Definition update_node_series_publish : M unit :=
  (do t <- getattr oldServerTime;
   set_node_series_value "Timestamp" t);;
  do s <- gets nodeSeries;
  modify (fun n =>
    set_communication
      (communication n ++ [(s, default 0 (datatype_dict !! "Node"))]) n).

(** *** __update_display *)

(** One pass through the loop; [first] is the local flag, the result is
    its new value.  The sleeps of the pass (8 seconds before the setup
    summary is shown, 2 seconds at its end) are left out. *)
Definition update_display_cycle (first : bool) : M bool :=
  do setup <- getattr setup_tasks;
  do mf <-
    (if gathering_done setup then
       if first then
         do nodeNum <- get_attribute_value "Node Number";
         do nodeName <- get_attribute_value "Node Name";
         do cuePrefix <- get_attribute_value "Cue Prefix";
         ret ("Setup: " +:+ py_str nodeNum +:+ ", " +:+ py_str nodeName
                +:+ ", " +:+ py_str cuePrefix +:+ spaces 32, false)
       else
         do cueNum <- get_node_series_value "Cue Number";
         do action <- get_node_series_value "Action";
         ret ("Cue " +:+ py_str cueNum +:+ ": " +:+ py_str action
                +:+ spaces 32, first)
     else
       do m <- gets mac;
       ret ("MAC Addr: " +:+ m, first));
  call_LCD (LCD.display_text (fst mf) LCD.default_priority);;
  ret (snd mf).

(** *** __update_LEDs *)

(** The statement before the loop. *)
Definition update_LEDs_start : M unit :=
  modify (set_justPressed (Some false)).

(** One pass through the loop. *)
Definition update_LEDs_cycle : M unit :=
  (do d <- uptodate_done;
   call_GPIO (GPIO.connected d));;
  do d <- uptodate_done;
  if d then
    do cueState <- get_node_series_value "Cue State";
    do nodeState <- get_node_series_value "Node State";
    if py_ne nodeState (VStr "None") then
      (do solid <-
         (if py_eq cueState (VStr "Go") then getattr justPressed
          else ret false);
       if solid then call_GPIO (GPIO.button_state true)
       else call_GPIO (GPIO.button_state false));;
      call_GPIO GPIO.default_screen
    else
      if py_eq cueState (VStr "Go") then
        call_GPIO GPIO.go;;
        call_GPIO GPIO.blink_button
      else
        call_GPIO (GPIO.button_state false);;
        if py_eq cueState (VStr "Standby") then call_GPIO GPIO.standby
        else if py_eq cueState (VStr "Multiple Standbys") then
          call_GPIO GPIO.multiple_standbys
        else ret tt
  else ret tt.

(** *** __run_LEDs *)

(** The coroutines started by one pass through the loop. *)
Definition run_LEDs_cycle : M (GPIO.button_job * GPIO.screen_job) :=
  gets (fun n => GPIO.run_LED_tasks (GPIO n)).

(** *** __get_button_input *)

(** One pass through the loop up to its first sleep; [true] when the pass
    is now inside [asyncio.sleep(4)]. *)
Definition get_button_input_poll : M bool :=
  do c <- gets changeState;
  if negb c then
    (do p <- gets (fun n => GPIO.pressed (GPIO n));
     modify (set_changeState p));;
    do c <- gets changeState;
    if c then
      modify (set_justPressed (Some true));;
      ret true
    else ret false
  else ret false.

(** The statement after [asyncio.sleep(4)]. *)
Definition get_button_input_release : M unit :=
  modify (set_justPressed (Some false)).

(** ** The event loop *)

(** The coroutines gathered by [run_tasks]. *)
Inductive task :=
  | uptodate_check_task
  | update_LEDs_task
  | run_LEDs_task
  | update_state_frame_task
  | update_attributes_task
  | update_display_task
  | get_cue_series_task
  | get_button_input_task
  | update_node_series_task.

#[global] Instance task_eq_dec : EqDecision task.
Proof. solve_decision. Defined.

(** Where each coroutine is suspended.  A coroutine that awaits the
    readiness future keeps the future it is suspended on ([Some f]); [None]
    means that it has not reached the await since its last sleep. *)
Inductive run_tasks_state :=
  | Gathering         (* awaiting the outer gather *)
  | Handling          (* an exception reached the handler *)
  | Sleeping10        (* in the handler's sleep *)
  | Returned.         (* run_tasks is over, the loop is closed *)

Inductive uptodate_check_state :=
  | BeforeFirstRead
  | Polling.

Inductive update_LEDs_state :=
  | BeforeLoop
  | InLoop.

Inductive get_cue_series_state :=
  | CueAwaitSetup
  | CueAwaitReady (w : option nat).

Inductive get_button_input_state :=
  | ButtonAwaitSetup
  | ButtonPoll
  | ButtonSleep4.

Inductive update_node_series_state :=
  | NodeAwaitSetup
  | NodeAwaitReady (w : option nat)
  | NodeSleepBeforePublish.

(** The node together with the state of its coroutines; [crashed] lists the
    coroutines that ended with an exception. *)
Record System := mkSystem {
  node : Node;
  run_tasks_pc : run_tasks_state;
  uptodate_check_pc : uptodate_check_state;
  update_LEDs_pc : update_LEDs_state;
  update_state_frame_pc : option nat;
  update_attributes_pc : option nat;
  update_display_first : bool;
  get_cue_series_pc : get_cue_series_state;
  get_button_input_pc : get_button_input_state;
  update_node_series_pc : update_node_series_state;
  crashed : list task
}.

(** Replacing one component. *)
Definition with_node (x : Node) (s : System) : System :=
  mkSystem x (run_tasks_pc s) (uptodate_check_pc s) (update_LEDs_pc s)
    (update_state_frame_pc s) (update_attributes_pc s) (update_display_first
    s) (get_cue_series_pc s) (get_button_input_pc s) (update_node_series_pc
    s) (crashed s).

Definition with_run_tasks_pc (x : run_tasks_state) (s : System) : System :=
  mkSystem (node s) x (uptodate_check_pc s) (update_LEDs_pc s)
    (update_state_frame_pc s) (update_attributes_pc s) (update_display_first
    s) (get_cue_series_pc s) (get_button_input_pc s) (update_node_series_pc
    s) (crashed s).

Definition with_uptodate_check_pc (x : uptodate_check_state) (s : System) : System :=
  mkSystem (node s) (run_tasks_pc s) x (update_LEDs_pc s)
    (update_state_frame_pc s) (update_attributes_pc s) (update_display_first
    s) (get_cue_series_pc s) (get_button_input_pc s) (update_node_series_pc
    s) (crashed s).

Definition with_update_LEDs_pc (x : update_LEDs_state) (s : System) : System :=
  mkSystem (node s) (run_tasks_pc s) (uptodate_check_pc s) x
    (update_state_frame_pc s) (update_attributes_pc s) (update_display_first
    s) (get_cue_series_pc s) (get_button_input_pc s) (update_node_series_pc
    s) (crashed s).

Definition with_update_state_frame_pc (x : option nat) (s : System) : System :=
  mkSystem (node s) (run_tasks_pc s) (uptodate_check_pc s) (update_LEDs_pc
    s) x (update_attributes_pc s) (update_display_first s)
    (get_cue_series_pc s) (get_button_input_pc s) (update_node_series_pc s)
    (crashed s).

Definition with_update_attributes_pc (x : option nat) (s : System) : System :=
  mkSystem (node s) (run_tasks_pc s) (uptodate_check_pc s) (update_LEDs_pc
    s) (update_state_frame_pc s) x (update_display_first s)
    (get_cue_series_pc s) (get_button_input_pc s) (update_node_series_pc s)
    (crashed s).

Definition with_update_display_first (x : bool) (s : System) : System :=
  mkSystem (node s) (run_tasks_pc s) (uptodate_check_pc s) (update_LEDs_pc
    s) (update_state_frame_pc s) (update_attributes_pc s) x
    (get_cue_series_pc s) (get_button_input_pc s) (update_node_series_pc s)
    (crashed s).

Definition with_get_cue_series_pc (x : get_cue_series_state) (s : System) : System :=
  mkSystem (node s) (run_tasks_pc s) (uptodate_check_pc s) (update_LEDs_pc
    s) (update_state_frame_pc s) (update_attributes_pc s)
    (update_display_first s) x (get_button_input_pc s)
    (update_node_series_pc s) (crashed s).

Definition with_get_button_input_pc (x : get_button_input_state) (s : System) : System :=
  mkSystem (node s) (run_tasks_pc s) (uptodate_check_pc s) (update_LEDs_pc
    s) (update_state_frame_pc s) (update_attributes_pc s)
    (update_display_first s) (get_cue_series_pc s) x (update_node_series_pc
    s) (crashed s).

Definition with_update_node_series_pc (x : update_node_series_state) (s : System) : System :=
  mkSystem (node s) (run_tasks_pc s) (uptodate_check_pc s) (update_LEDs_pc
    s) (update_state_frame_pc s) (update_attributes_pc s)
    (update_display_first s) (get_cue_series_pc s) (get_button_input_pc s) x
    (crashed s).

Definition with_crashed (x : list task) (s : System) : System :=
  mkSystem (node s) (run_tasks_pc s) (uptodate_check_pc s) (update_LEDs_pc
    s) (update_state_frame_pc s) (update_attributes_pc s)
    (update_display_first s) (get_cue_series_pc s) (get_button_input_pc s)
    (update_node_series_pc s) x.

(** What the outside world does to the node: the event loop resumes a
    coroutine (with the answer of the server, when the coroutine calls
    [receive_data] before it suspends again), the button raises an edge, or
    the handler of [run_tasks] runs on. *)
Inductive event :=
  | ev_uptodate_check (r : value)
  | ev_update_LEDs
  | ev_run_LEDs
  | ev_update_state_frame (answer : option (gmap value (gmap string value)))
  | ev_update_attributes (answer : option (gmap value (gmap string value)))
  | ev_update_display
  | ev_get_cue_series (answer : option (gmap value (gmap string value)))
  | ev_get_button_input
  | ev_update_node_series
  | ev_button_edge
  | ev_run_tasks (trace : string).

(** [await self.__setup_tasks]: whether the await completes. *)
Definition await_setup_tasks : M bool :=
  do g <- getattr setup_tasks;
  ret (gathering_done g).

(** [await self.__uptodate_future] by a coroutine suspended on [w]: [None]
    when the await completes, else the future the coroutine stays suspended
    on. *)
Definition await_uptodate_future (w : option nat) : M (option nat) :=
  do f <- match w with
          | Some f => ret f
          | None => getattr uptodate_future
          end;
  do d <- future_done f;
  ret (if d then None else Some f).

(** [__uptodate_check] up to its next read. *)
Definition resume_uptodate_check (pc : uptodate_check_state) (r : value)
  : M uptodate_check_state :=
  match pc with
  | BeforeFirstRead => uptodate_check_start r;; ret Polling
  | Polling => uptodate_check_poll r;; ret Polling
  end.

(** [__update_LEDs] up to its next sleep. *)
Definition resume_update_LEDs (pc : update_LEDs_state) : M update_LEDs_state :=
  match pc with
  | BeforeLoop => update_LEDs_start;; update_LEDs_cycle;; ret InLoop
  | InLoop => update_LEDs_cycle;; ret InLoop
  end.

(** A synchronizer up to its next suspension; [result] reads its slot in
    the gathering future and [store] fills it when the coroutine returns. *)
Definition resume_synchronizer
    (attempt_ : option (gmap value (gmap string value)) -> M attempt)
    (result : gathering -> option string)
    (store : string -> gathering -> gathering)
    (w : option nat) (answer : option (gmap value (gmap string value)))
  : M (option nat) :=
  do g <- getattr setup_tasks;
  match result g with
  | Some _ => ret w
  | None =>
      do w' <- await_uptodate_future w;
      match w' with
      | Some f => ret (Some f)
      | None =>
          do a <- attempt_ answer;
          match a with
          | Backoff _ => ret None
          | Finished s =>
              modify (set_setup_tasks (Some (store s g)));;
              ret None
          end
      end
  end.

Definition resume_update_state_frame :=
  resume_synchronizer update_state_frame_attempt state_frame_result
    (fun s g => mkGathering (Some s) (attributes_result g)).

Definition resume_update_attributes :=
  resume_synchronizer update_attributes_attempt attributes_result
    (fun s g => mkGathering (state_frame_result g) (Some s)).

(** [__get_cue_series] from the await on the readiness future on. *)
Definition get_cue_series_loop (w : option nat)
    (answer : option (gmap value (gmap string value)))
  : M get_cue_series_state :=
  do w' <- await_uptodate_future w;
  match w' with
  | Some f => ret (CueAwaitReady (Some f))
  | None => get_cue_series_cycle answer;; ret (CueAwaitReady None)
  end.

(** [__get_cue_series] up to its next suspension. *)
Definition resume_get_cue_series (pc : get_cue_series_state)
    (answer : option (gmap value (gmap string value)))
  : M get_cue_series_state :=
  match pc with
  | CueAwaitSetup =>
      do ready <- await_setup_tasks;
      if ready then get_cue_series_start;; get_cue_series_loop None answer
      else ret CueAwaitSetup
  | CueAwaitReady w => get_cue_series_loop w answer
  end.

(** [__get_button_input] from the top of its loop to the next sleep. *)
Definition get_button_input_loop : M get_button_input_state :=
  do pulse <- get_button_input_poll;
  ret (if pulse then ButtonSleep4 else ButtonPoll).

(** [__get_button_input] up to its next suspension. *)
Definition resume_get_button_input (pc : get_button_input_state)
  : M get_button_input_state :=
  match pc with
  | ButtonAwaitSetup =>
      do ready <- await_setup_tasks;
      if ready then get_button_input_loop else ret ButtonAwaitSetup
  | ButtonPoll => get_button_input_loop
  | ButtonSleep4 => get_button_input_release;; ret ButtonPoll
  end.

(** [__update_node_series] from the await on the readiness future on; the
    branch taken is reported when the cycle ran. *)
Definition update_node_series_loop (w : option nat)
  : M (update_node_series_state * option branch) :=
  do w' <- await_uptodate_future w;
  match w' with
  | Some f => ret (NodeAwaitReady (Some f), None)
  | None =>
      do b <- update_node_series_decide;
      ret (if updated b then NodeSleepBeforePublish else NodeAwaitReady None,
           Some b)
  end.

(** [__update_node_series] up to its next suspension. *)
Definition resume_update_node_series (pc : update_node_series_state)
  : M (update_node_series_state * option branch) :=
  match pc with
  | NodeAwaitSetup =>
      do ready <- await_setup_tasks;
      if ready then update_node_series_start;; update_node_series_loop None
      else ret (NodeAwaitSetup, None)
  | NodeAwaitReady w => update_node_series_loop w
  | NodeSleepBeforePublish =>
      update_node_series_publish;;
      ret (NodeAwaitReady None, None)
  end.

(** The loop resumes coroutine [t] with body [c]: nothing happens once the
    coroutine has crashed or [run_tasks] has returned; an exception ends
    the coroutine and, if it is the first, wakes the handler. *)
Definition resume {A} (t : task) (c : M A) (s : System) : option A * System :=
  if decide (t ∈ crashed s) then (None, s)
  else
    match run_tasks_pc s with
    | Returned => (None, s)
    | pc =>
        match c (node s) with
        | (Ok a, n') => (Some a, with_node n' s)
        | (Raise _, n') =>
            (None,
             with_crashed (t :: crashed s)
               (with_run_tasks_pc
                  (match pc with Gathering => Handling | _ => pc end)
                  (with_node n' s)))
        end
    end.

(** Storing the new state of the resumed coroutine. *)
Definition stored {A} (f : A -> System -> System) (r : option A * System)
  : System :=
  match r with
  | (Some a, s) => f a s
  | (None, s) => s
  end.

(** The handler of [run_tasks] up to its next suspension. *)
Definition resume_run_tasks (trace : string) (s : System) : System :=
  match run_tasks_pc s with
  | Handling =>
      match (modify (fun n =>
               set_errorStorage (ErrorStorage.update trace (errorStorage n)) n);;
             call_LCD (LCD.display_text error_text 2)) (node s) with
      | (Ok _, n') => with_run_tasks_pc Sleeping10 (with_node n' s)
      | (Raise _, n') => with_run_tasks_pc Returned (with_node n' s)
      end
  | Sleeping10 =>
      with_run_tasks_pc Returned (with_node (snd (cleanup (node s))) s)
  | Gathering | Returned => s
  end.

(** One event: the branch of the node state machine that ran, if one did,
    and the next state. *)
Definition step (e : event) (s : System) : option branch * System :=
  match e with
  | ev_uptodate_check r =>
      (None,
       stored with_uptodate_check_pc
         (resume uptodate_check_task
            (resume_uptodate_check (uptodate_check_pc s) r) s))
  | ev_update_LEDs =>
      (None,
       stored with_update_LEDs_pc
         (resume update_LEDs_task (resume_update_LEDs (update_LEDs_pc s)) s))
  | ev_run_LEDs =>
      (None, snd (resume run_LEDs_task run_LEDs_cycle s))
  | ev_update_state_frame answer =>
      (None,
       stored with_update_state_frame_pc
         (resume update_state_frame_task
            (resume_update_state_frame (update_state_frame_pc s) answer) s))
  | ev_update_attributes answer =>
      (None,
       stored with_update_attributes_pc
         (resume update_attributes_task
            (resume_update_attributes (update_attributes_pc s) answer) s))
  | ev_update_display =>
      (None,
       stored with_update_display_first
         (resume update_display_task
            (update_display_cycle (update_display_first s)) s))
  | ev_get_cue_series answer =>
      (None,
       stored with_get_cue_series_pc
         (resume get_cue_series_task
            (resume_get_cue_series (get_cue_series_pc s) answer) s))
  | ev_get_button_input =>
      (None,
       stored with_get_button_input_pc
         (resume get_button_input_task
            (resume_get_button_input (get_button_input_pc s)) s))
  | ev_update_node_series =>
      match resume update_node_series_task
              (resume_update_node_series (update_node_series_pc s)) s with
      | (Some (pc, b), s') => (b, with_update_node_series_pc pc s')
      | (None, s') => (None, s')
      end
  | ev_button_edge =>
      match run_tasks_pc s with
      | Returned => (None, s)
      | _ =>
          (None,
           with_node (set_GPIO (GPIO.button_callback (GPIO (node s))) (node s)) s)
      end
  | ev_run_tasks trace => (None, resume_run_tasks trace s)
  end.

(** A run: the branches taken by the node state machine, in order, and the
    state reached. *)
Fixpoint run (es : list event) (s : System) : list branch * System :=
  match es with
  | [] => ([], s)
  | e :: rest =>
      let '(b, s') := step e s in
      let '(bs, s'') := run rest s' in
      (match b with Some x => x :: bs | None => bs end, s'')
  end.

(** [Node.__init__], given what its collaborators find: the error file on
    disk, the MAC address, the LCD bus. *)
Definition Node_init (errorStorageFile : string) (disk : option (list string))
    (mac : string) (ADDRESSES : list Z) (responds : Z -> bool) : Node :=
  mkNode ∅ false true mac
    (ErrorStorage.init errorStorageFile disk) []
    (LCD.init ADDRESSES responds)
    (GPIO.init "0000FF" 1)
    None None None None None [] None None.

(** The system when [run_tasks] has gathered its coroutines and none has
    run yet. *)
Definition boot (n : Node) : System :=
  mkSystem (snd (run_tasks_start n)) Gathering BeforeFirstRead BeforeLoop
    None None true CueAwaitSetup ButtonAwaitSetup NodeAwaitSetup [].

(** ** Vocabulary of the properties *)

Module LCDCalls.
Import LCD.

(** A call of a public method of the display. *)
Inductive call :=
  | display_text_call (text : string) (priority : Z)
  | change_priority_call (priority : Z)
  | get_call
  | clear_call.

Definition do_call (c : call) (l : t) : res t :=
  match c with
  | display_text_call text priority => display_text text priority l
  | change_priority_call priority => Ok (change_priority priority l)
  | get_call => Ok l
  | clear_call => clear l
  end.

(** A sequence of calls, stopped by the first exception. *)
Fixpoint do_calls (cs : list call) (l : t) : res t :=
  match cs with
  | [] => Ok l
  | c :: rest =>
      match do_call c l with
      | Ok l' => do_calls rest l'
      | Raise e => Raise e
      end
  end.

(** No reset of the latch to 1 or below. *)
Definition keeps_latch (c : call) : Prop :=
  match c with
  | change_priority_call priority => 1 < priority
  | _ => True
  end.

(** The driver object exists whenever the display counts as set up, as
    [__display_setup] leaves it. *)
Definition wf (l : t) : Prop :=
  isSetup l = true -> exists d, display l = Some d.

(** The state after [text] was shown at [priority] on a driver that had
    received the calls [d]. *)
Definition shown (text : string) (priority : Z) (d : list driver_call) : t :=
  mk (slice 0 32 text) priority true
    (Some (d ++ [home;
                 message_ (slice 0 16 (slice 0 32 text) +:+ String "010"%char "");
                 message_ (slice 16 32 (slice 0 32 text))])).
End LCDCalls.

(** The readiness flag: [self.__uptodate_future.done()]. *)
Definition ready (n : Node) : bool :=
  match uptodate_future n with
  | Some f => bool_decide (futures n !! f = Some true)
  | None => false
  end.

(** The clock read [r] is present and differs from the stored clock. *)
Definition clock_changed (r old : value) : Prop := r <> VNone /\ r <> old.

(** The attribute lookup [all_attributes.loc[mac]] fails on the answer [a]:
    there is no answer, or no row for this node. *)
Definition attributes_lookup_fails (mac : string)
    (a : option (gmap value (gmap string value))) : Prop :=
  match a with
  | None => True
  | Some df => df !! VStr mac = None
  end.

(** A node used in the examples: the display answers at address 63. *)
Definition example_node : Node :=
  Node_init "errors.json" None "b8:27:eb:00:00:01" [39; 63] (Z.eqb 63).

(** The futures the gate refers to exist and the clock has been read once:
    the state of the gate anywhere inside the loop. *)
Definition gate_started (n : Node) : Prop :=
  exists f old,
    uptodate_future n = Some f /\ (f < length (futures n))%nat
    /\ oldServerTime n = Some old.

(** A computation leaves the attribute read by [f] as it found it, whether
    it returns or raises. *)
Definition preserves {T A} (f : Node -> T) (c : M A) : Prop :=
  forall n, f (snd (c n)) = f n.

(** Example data: a transition table, the attributes of the example node
    and two cue tables for its prefix. *)
Definition example_table : gmap value (gmap string value) :=
  {[ VStr "Standby" :=
       {[ "Initial Node State" := VStr "None"; "Final Node State" := VStr "Ready" ]};
     VStr "Hold" :=
       {[ "Initial Node State" := VStr "None"; "Final Node State" := VStr "Held" ]} ]}.

Definition example_attributes : gmap value (gmap string value) :=
  {[ VStr "b8:27:eb:00:00:01" :=
       {[ "Node Number" := VInt 3; "Node Name" := VStr "Left";
          "Cue Prefix" := VStr "L" ]} ]}.

Definition example_cue (number : Z) (state action : string)
  : gmap value (gmap string value) :=
  {[ VStr "L" :=
       {[ "Cue Number" := VInt number; "Cue State" := VStr state;
          "Action" := VStr action ]} ]}.

(** The example node is set up, the clock has just changed and the cue
    tracker has fetched cue 12 in state Standby. *)
Definition example_setup : list event :=
  [ev_uptodate_check (VInt 0); ev_uptodate_check (VInt 1);
   ev_update_state_frame (Some example_table);
   ev_update_attributes (Some example_attributes);
   ev_get_cue_series (Some (example_cue 12 "Standby" "Wait"))].

Definition example_tracking : System := snd (run example_setup (boot example_node)).

(** A sequence of branches in which the final phase is only taken when
    [armed], is disarmed by taking it, and is armed again by a new cue. *)
Fixpoint once_per_cue (armed : bool) (bs : list branch) : bool :=
  match bs with
  | [] => true
  | NewCue :: rest => once_per_cue true rest
  | FinalPhase :: rest => armed && once_per_cue false rest
  | _ :: rest => once_per_cue armed rest
  end.

(** Two cues in a row on the example node, the button pressed during each:
    the standby cue arrives, is published, the press moves it to its final
    state; then cue 13 takes over and is pressed in turn. *)
Definition example_two_cues : list event :=
  example_setup ++
  [ev_update_node_series; ev_button_edge; ev_get_button_input;
   ev_update_node_series; ev_update_node_series; ev_update_node_series;
   ev_get_cue_series (Some (example_cue 13 "Hold" "Stay"));
   ev_get_button_input; ev_update_node_series; ev_update_node_series;
   ev_button_edge; ev_get_button_input;
   ev_update_node_series; ev_update_node_series; ev_update_node_series].

(** *** The LED decision table of the design document *)

(** Button-light modes and indicator states, as the design document names
    them. *)
Inductive button_light :=
  | Off
  | Solid
  | Blinking.

Inductive indicator :=
  | Default
  | Standby
  | MultipleStandbys
  | Go
  | Disconnected.

(** The mode a button coroutine produces. *)
Definition button_light_of (j : GPIO.button_job) : button_light :=
  match j with
  | GPIO.button_state_job false => Off
  | GPIO.button_state_job true => Solid
  | GPIO.blink_button_job => Blinking
  end.

(** The indicator a screen coroutine produces: what [default_screen],
    [standby], [multiple_standbys], [go] and [__not_connected] select. *)
Definition indicator_of (j : GPIO.screen_job) : option indicator :=
  match j with
  | GPIO.default_screen_job => Some Default
  | GPIO.solid_screen_job hexString =>
      if String.eqb hexString "FFFF00" then Some Standby
      else if String.eqb hexString "00FF00" then Some Go
      else None
  | GPIO.blink_screen_job hexString =>
      if String.eqb hexString "FFFF00" then Some MultipleStandbys
      else if String.eqb hexString "FF0000" then Some Disconnected
      else None
  end.

(** The table as the design document words it: the six rows, and the
    disconnected case. *)
Definition decision_table (connected : bool) (cueState nodeState : value)
    (justPressed : bool) : button_light * indicator :=
  if negb connected then (Off, Disconnected)
  else if py_ne nodeState (VStr "None") then
    if py_eq cueState (VStr "Go") && justPressed then (Solid, Default)
    else (Off, Default)
  else if py_eq cueState (VStr "Go") then (Blinking, Go)
  else if py_eq cueState (VStr "Standby") then (Off, Standby)
  else if py_eq cueState (VStr "Multiple Standbys") then (Off, MultipleStandbys)
  else (Off, Default).

(** The last row of the table: no node state, and a cue state that is none
    of the three named ones. *)
Definition last_row (cueState nodeState : value) : bool :=
  py_eq nodeState (VStr "None")
  && py_ne cueState (VStr "Go") && py_ne cueState (VStr "Standby")
  && py_ne cueState (VStr "Multiple Standbys").

(** The inputs of one LED decision, read off the node the way
    [__update_LEDs] reads them. *)
Definition cue_state (n : Node) : value :=
  default (VStr "None") (nodeSeries n !! "Cue State").

Definition node_state (n : Node) : value :=
  default (VStr "None") (nodeSeries n !! "Node State").

(** What the LED runner starts after one decision on [n]. *)
Definition selection (n : Node) : button_light * option indicator :=
  let jobs := GPIO.run_LED_tasks (GPIO (snd (update_LEDs_cycle n))) in
  (button_light_of (fst jobs), indicator_of (snd jobs)).

(** The example node before an LED decision, twice with the same inputs:
    connected, cue 13 in state Hold, node state "None", button not just
    pressed.  In the first run the LED loop saw the standby cue before cue
    13 took over; in the second cue 13 is the first cue. *)
Definition example_hold_after_standby : System :=
  snd (run
         (example_setup ++
          [ev_update_node_series; ev_update_LEDs;
           ev_get_cue_series (Some (example_cue 13 "Hold" "Stay"));
           ev_update_node_series; ev_update_node_series])
         (boot example_node)).

Definition example_hold_first : System :=
  snd (run
         [ev_uptodate_check (VInt 0); ev_uptodate_check (VInt 1);
          ev_update_state_frame (Some example_table);
          ev_update_attributes (Some example_attributes);
          ev_get_cue_series (Some (example_cue 13 "Hold" "Stay"));
          ev_update_node_series; ev_update_LEDs]
         (boot example_node)).

(** A call other than [change_priority]. *)
Definition not_change_priority (c : LCDCalls.call) : Prop :=
  match c with
  | LCDCalls.change_priority_call _ => False
  | _ => True
  end.

(** The log after the tracebacks [traces] were reported one after the
    other. *)
Definition updates (traces : list string) (e : ErrorStorage.t) : ErrorStorage.t :=
  fold_left (fun e trace => ErrorStorage.update trace e) traces e.

(** The store of readiness futures holds one future per generation, the
    current one is the last created, and every earlier one is done. *)
Definition one_pending (n : Node) : Prop :=
  exists f,
    uptodate_future n = Some f /\ length (futures n) = S f
    /\ forall i, (i < f)%nat -> futures n !! i = Some true.

(** The code that the event [e] runs in state [s] leaves the attribute
    read by [f] alone. *)
Definition event_preserves {T} (f : Node -> T) (e : event) (s : System) : Prop :=
  match e with
  | ev_uptodate_check r =>
      preserves f (resume_uptodate_check (uptodate_check_pc s) r)
  | ev_update_LEDs => preserves f (resume_update_LEDs (update_LEDs_pc s))
  | ev_run_LEDs => preserves f run_LEDs_cycle
  | ev_update_state_frame answer =>
      preserves f (resume_update_state_frame (update_state_frame_pc s) answer)
  | ev_update_attributes answer =>
      preserves f (resume_update_attributes (update_attributes_pc s) answer)
  | ev_update_display =>
      preserves f (update_display_cycle (update_display_first s))
  | ev_get_cue_series answer =>
      preserves f (resume_get_cue_series (get_cue_series_pc s) answer)
  | ev_get_button_input =>
      preserves f (resume_get_button_input (get_button_input_pc s))
  | ev_update_node_series =>
      preserves f (resume_update_node_series (update_node_series_pc s))
  | ev_button_edge => forall x n, f (set_GPIO x n) = f n
  | ev_run_tasks trace =>
      preserves f
        (modify (fun n =>
           set_errorStorage (ErrorStorage.update trace (errorStorage n)) n);;
         call_LCD (LCD.display_text error_text 2))
      /\ preserves f cleanup
  end.

(** The node state machine is in the sleep that precedes a publication. *)
Definition publish_pending (pc : update_node_series_state) : nat :=
  match pc with
  | NodeSleepBeforePublish => 1
  | _ => 0
  end.

(** The number of cycles, among [bs], that set the [updated] flag. *)
Definition count_updated (bs : list branch) : nat :=
  length (filter (fun b => updated b = true) bs).

(** A message as [__update_node_series] sends it: a record with a
    Timestamp, under the datatype number of 'Node'. *)
Definition node_message (m : gmap string value * Z) : Prop :=
  is_Some (fst m !! "Timestamp") /\ snd m = 71.

(** The example node once the button has been pressed during the standby
    cue: a change is requested. *)
Definition example_requested : System :=
  snd (run (example_setup
            ++ [ev_update_node_series; ev_button_edge; ev_get_button_input])
         (boot example_node)).

(** *** Health of a running node *)

(** The setup bookkeeping agrees with the attributes: a synchronizer whose
    result is recorded in the gathering future has stored what it
    fetched. *)
Definition setup_populated (n : Node) : Prop :=
  exists g,
    setup_tasks n = Some g
    /\ (is_Some (attributes_result g) -> is_Some (attributes_dict n))
    /\ (is_Some (state_frame_result g) -> is_Some (stateFrame n)).

(** What [run_tasks] and the constructor set up and the coroutines rely
    on: the readiness future exists, the setup bookkeeping is sound, the
    display has its driver if it counts as set up. *)
Definition node_ok (n : Node) : Prop :=
  is_Some (uptodate_future n) /\ setup_populated n /\ LCDCalls.wf (LCD n).

(** The attributes [node_ok] speaks about. *)
Definition setup_view (n : Node) :=
  (uptodate_future n, setup_tasks n, attributes_dict n, stateFrame n, LCD n).

(** A healthy system: the node is in order, a coroutine past its first
    statement has assigned the attribute that statement assigns, and no
    coroutine other than the node state machine has ended with an
    exception. *)
Definition healthy (s : System) : Prop :=
  node_ok (node s)
  /\ (uptodate_check_pc s = Polling -> is_Some (oldServerTime (node s)))
  /\ (update_LEDs_pc s = InLoop -> is_Some (justPressed (node s)))
  /\ (forall t, t ∈ crashed s -> t = update_node_series_task).

(** The coroutine that an event resumes. *)
Definition event_task (e : event) : option task :=
  match e with
  | ev_uptodate_check _ => Some uptodate_check_task
  | ev_update_LEDs => Some update_LEDs_task
  | ev_run_LEDs => Some run_LEDs_task
  | ev_update_state_frame _ => Some update_state_frame_task
  | ev_update_attributes _ => Some update_attributes_task
  | ev_update_display => Some update_display_task
  | ev_get_cue_series _ => Some get_cue_series_task
  | ev_get_button_input => Some get_button_input_task
  | ev_update_node_series => Some update_node_series_task
  | ev_button_edge | ev_run_tasks _ => None
  end.

(** The code that the event [e] resumes in state [s] would raise. *)
Definition raises {A} (c : M A) (n : Node) : Prop :=
  exists x n', c n = (Raise x, n').

Definition event_raises (e : event) (s : System) : Prop :=
  match e with
  | ev_uptodate_check r =>
      raises (resume_uptodate_check (uptodate_check_pc s) r) (node s)
  | ev_update_LEDs => raises (resume_update_LEDs (update_LEDs_pc s)) (node s)
  | ev_run_LEDs => raises run_LEDs_cycle (node s)
  | ev_update_state_frame answer =>
      raises (resume_update_state_frame (update_state_frame_pc s) answer) (node s)
  | ev_update_attributes answer =>
      raises (resume_update_attributes (update_attributes_pc s) answer) (node s)
  | ev_update_display =>
      raises (update_display_cycle (update_display_first s)) (node s)
  | ev_get_cue_series answer =>
      raises (resume_get_cue_series (get_cue_series_pc s) answer) (node s)
  | ev_get_button_input =>
      raises (resume_get_button_input (get_button_input_pc s)) (node s)
  | ev_update_node_series =>
      raises (resume_update_node_series (update_node_series_pc s)) (node s)
  | ev_button_edge | ev_run_tasks _ => False
  end.

(** The example node receives a cue whose state has no row in the
    transition table; the node state machine raises KeyError. *)
Definition example_crash : list event :=
  [ev_uptodate_check (VInt 0); ev_uptodate_check (VInt 1);
   ev_update_state_frame (Some example_table);
   ev_update_attributes (Some example_attributes);
   ev_get_cue_series (Some (example_cue 14 "Go" "Now"));
   ev_update_node_series].

(** The exception handler of [run_tasks] has shown its message: it is in
    its sleep or past it. *)
Definition handler_done (s : System) : Prop :=
  run_tasks_pc s = Sleeping10 \/ run_tasks_pc s = Returned.

(** What the display shows and what the log holds. *)
Definition shown_and_logged (n : Node) :=
  (LCD.message (LCD n), LCD.currentPriority (LCD n), errorStorage n).

(** Nothing has been tracked, requested or published yet, and the three
    coroutines that wait for the setup tasks are still waiting. *)
Definition cue_view (n : Node) :=
  (nodeSeries n, cueSeries n, communication n, changeState n, initialState n).

Definition gated_pcs (s : System) :=
  (update_node_series_pc s, get_cue_series_pc s, get_button_input_pc s).

Definition untouched (s : System) : Prop :=
  cue_view (node s) = (∅, None, [], false, true)
  /\ gated_pcs s = (NodeAwaitSetup, CueAwaitSetup, ButtonAwaitSetup).

(** ** Dependencies/GPIO: the LEDs behind the manager *)

(** Python floats are IEEE 754 binary64 numbers. *)
Module PyFloat.

Definition prec : Z := 53.
Definition emax : Z := 1024.

(** The literal [2.55]: the binary64 number nearest to 255/100. *)
Definition lit_2_55 : SpecFloat.spec_float :=
  SpecFloat.S754_finite false 5742089524897382 (-51).

(** [float(v)] of an integer, rounded to nearest even; [None] is
    OverflowError. *)
Definition of_int (v : Z) : option SpecFloat.spec_float :=
  match SpecFloat.binary_normalize prec emax v 0 false with
  | SpecFloat.S754_infinity _ => None
  | f => Some f
  end.

(** [v / f] for an integer [v] and a float [f]; [None] is OverflowError or
    ZeroDivisionError. *)
Definition int_truediv (v : Z) (f : SpecFloat.spec_float)
  : option SpecFloat.spec_float :=
  match f with
  | SpecFloat.S754_zero _ => None
  | _ => x ← of_int v; Some (SpecFloat.SFdiv prec emax x f)
  end.

(** [int(f)]: truncation toward zero; [None] is OverflowError (an infinity)
    or ValueError (not a number). *)
Definition to_int (f : SpecFloat.spec_float) : option Z :=
  match f with
  | SpecFloat.S754_zero _ => Some 0
  | SpecFloat.S754_finite s m e =>
      let a := if (0 <=? e)%Z then Z.pos m * 2 ^ e else Z.pos m / 2 ^ (- e) in
      Some (if s then - a else a)
  | _ => None
  end.

End PyFloat.

(** The LED of the button. *)
Module LEDManager.

(** [output] is the level last written to the pin by [GPIO.output]. *)
Record t := mk {
  pin : Z;
  name : string;
  output : option bool
}.

(** [__init__] *)
Definition init (pin : Z) (name : string) : t := mk pin name None.

(** [change_state] *)
Definition change_state (state : bool) (l : t) : t :=
  mk (pin l) (name l) (Some state).

(** [on] *)
Definition on (l : t) : t := change_state true l.

(** [off] *)
Definition off (l : t) : t := change_state false l.

End LEDManager.

(** One channel of the RGB LED. *)
Module RGBLEDManager.

(** The PWM output of the channel: the arguments it was made with, the duty
    cycle last assigned to it, and whether [deinit] was called. *)
Record PWMOut := mkPWMOut {
  pin : Z;
  pwm_frequency : Z;
  duty_cycle : Z;
  deinit_called : bool
}.

Record t := mk {
  name : string;
  initialBrightness : Z;
  brightness : Z;
  frequency : Z;
  pwm : PWMOut
}.

(** [__init__] *)
Definition init (pin : Z) (name : string) (initialBrightness : Z) : t :=
  mk name initialBrightness initialBrightness 500
     (mkPWMOut pin 500 initialBrightness false).

(** [setBrightness] *)
Definition setBrightness (brightness : Z) (l : t) : t :=
  mk (name l) (initialBrightness l) brightness (frequency l)
     (mkPWMOut (pin (pwm l)) (pwm_frequency (pwm l)) brightness
        (deinit_called (pwm l))).

(** [resetBrightness] *)
Definition resetBrightness (l : t) : t := setBrightness (initialBrightness l) l.

(** [stop] *)
Definition stop (l : t) : t :=
  mk (name l) (initialBrightness l) (brightness l) (frequency l)
     (mkPWMOut (pin (pwm l)) (pwm_frequency (pwm l)) (duty_cycle (pwm l)) true).

End RGBLEDManager.

(** The RGB LED that lights the screen. *)
Module RGBLEDManagement.

Record t := mk {
  defaultColor : string;
  redLED : RGBLEDManager.t;
  greenLED : RGBLEDManager.t;
  blueLED : RGBLEDManager.t
}.

(** [__set_color]: a channel is set only if its argument is not [None]. *)
Definition set_color (r g b : option Z) (x : t) : t :=
  let x := match r with
           | Some r =>
               mk (defaultColor x) (RGBLEDManager.setBrightness r (redLED x))
                  (greenLED x) (blueLED x)
           | None => x
           end in
  let x := match g with
           | Some g =>
               mk (defaultColor x) (redLED x)
                  (RGBLEDManager.setBrightness g (greenLED x)) (blueLED x)
           | None => x
           end in
  match b with
  | Some b =>
      mk (defaultColor x) (redLED x) (greenLED x)
         (RGBLEDManager.setBrightness b (blueLED x))
  | None => x
  end.

(** [reset] *)
Definition reset (x : t) : t :=
  mk (defaultColor x) (RGBLEDManager.resetBrightness (redLED x))
     (RGBLEDManager.resetBrightness (greenLED x))
     (RGBLEDManager.resetBrightness (blueLED x)).

(** [stop] *)
Definition stop (x : t) : t :=
  mk (defaultColor x) (RGBLEDManager.stop (redLED x))
     (RGBLEDManager.stop (greenLED x)) (RGBLEDManager.stop (blueLED x)).

Section Builtin.

(** Python's [int(text, 16)]; [None] is ValueError. *)
Variable int16 : string -> option Z.

(** [int(int('0x{}'.format(text), 16)/2.55)] *)
Definition percentage (text : string) : option Z :=
  v ← int16 ("0x" +:+ text);
  f ← PyFloat.int_truediv v PyFloat.lit_2_55;
  PyFloat.to_int f.

(** [__get_hex]; [None] when one of the conversions raises. *)
Definition get_hex (hexNum : string) : option (Z * Z * Z) :=
  r ← percentage (slice 0 2 hexNum);
  g ← percentage (slice 2 4 hexNum);
  b ← percentage (slice 4 (String.length hexNum) hexNum);
  Some (r, g, b).

(** [__init__] *)
Definition init (redPin greenPin bluePin : Z) (defaultColor : string)
  : option t :=
  '(redInitial, greenInitial, blueInitial) ← get_hex defaultColor;
  Some (mk defaultColor (RGBLEDManager.init redPin "Red" redInitial)
          (RGBLEDManager.init greenPin "Green" greenInitial)
          (RGBLEDManager.init bluePin "Blue" blueInitial)).

(** [set_hex] *)
Definition set_hex (hexNum : string) (x : t) : option t :=
  '(r, g, b) ← get_hex hexNum;
  Some (set_color (Some r) (Some g) (Some b) x).

End Builtin.

End RGBLEDManagement.

(** The devices of a GPIOManagement object and the coroutines that write to
    them. *)
Module Devices.

(** [detecting]: the edge detection of the ButtonManager is registered;
    [cleaned]: [GPIO.cleanup()] was called. *)
Record t := mk {
  RGB : RGBLEDManagement.t;
  buttonLED : LEDManager.t;
  inPin : Z;
  detecting : bool;
  cleaned : bool
}.

(** A statement of a coroutine of the manager. *)
Inductive instr :=
  | reset_RGB
  | set_hex (hexNum : string)
  | change_state (state : bool)
  | sleep (seconds : Z).

Definition coroutine := list instr.

(** [__button_state] and [__blink_button] *)
Definition button_coroutine (delay : Z) (j : GPIO.button_job) : coroutine :=
  match j with
  | GPIO.button_state_job state => [change_state state]
  | GPIO.blink_button_job =>
      [change_state true; sleep delay; change_state false]
  end.

(** [__default_screen], [__solid_screen] and [__blink_screen] *)
Definition screen_coroutine (delay : Z) (j : GPIO.screen_job) : coroutine :=
  match j with
  | GPIO.default_screen_job => [reset_RGB]
  | GPIO.solid_screen_job hexString => [set_hex hexString]
  | GPIO.blink_screen_job hexString =>
      [set_hex hexString; sleep delay; reset_RGB]
  end.

(** How a turn of a task ends. *)
Inductive turn :=
  | Suspended (seconds : Z) (rest : coroutine)
  | Finished
  | Raised.

(** What [run_LED_tasks] does: the devices after each turn of one of its two
    tasks with the time of the turn, oldest first, and whether it returned
    (rather than raised). *)
Record outcome := mkOutcome {
  timeline : list (Z * t);
  returned : bool
}.

Section Builtin.

Variable int16 : string -> option Z.

(** [GPIOManagement.__init__], the part that creates the devices. *)
Definition init (RGB_pins : Z * Z * Z) (defaultColor : string)
    (buttonLEDPin buttonInPin : Z) : option t :=
  let '(redPin, greenPin, bluePin) := RGB_pins in
  rgb ← RGBLEDManagement.init int16 redPin greenPin bluePin defaultColor;
  Some (mk rgb (LEDManager.init buttonLEDPin "Button") buttonInPin true false).

(** One statement. *)
Definition exec (i : instr) (d : t) : option t :=
  match i with
  | reset_RGB =>
      Some (mk (RGBLEDManagement.reset (RGB d)) (buttonLED d) (inPin d)
              (detecting d) (cleaned d))
  | set_hex hexNum =>
      rgb ← RGBLEDManagement.set_hex int16 hexNum (RGB d);
      Some (mk rgb (buttonLED d) (inPin d) (detecting d) (cleaned d))
  | change_state state =>
      Some (mk (RGB d) (LEDManager.change_state state (buttonLED d)) (inPin d)
              (detecting d) (cleaned d))
  | sleep _ => Some d
  end.

(** A task runs until its next [asyncio.sleep]. *)
Fixpoint resume_task (c : coroutine) (d : t) : t * turn :=
  match c with
  | [] => (d, Finished)
  | sleep seconds :: rest => (d, Suspended seconds rest)
  | i :: rest =>
      match exec i d with
      | Some d' => resume_task rest d'
      | None => (d, Raised)
      end
  end.

(** The tasks of the event loop that are ready or asleep, each with the time
    at which it runs next, in the order in which they run: a task is put
    behind the tasks that run no later than it. *)
Fixpoint schedule (wake : Z) (c : coroutine) (queue : list (Z * coroutine))
  : list (Z * coroutine) :=
  match queue with
  | [] => [(wake, c)]
  | (w, c') :: rest =>
      if (w <=? wake)%Z then (w, c') :: schedule wake c rest
      else (wake, c) :: queue
  end.

(** The event loop on the tasks of one [asyncio.gather], until they have
    finished or one has raised; a sleep of at most 0 seconds gives the other
    tasks one turn. [None] when [fuel] turns do not suffice. *)
Fixpoint gather (fuel : nat) (queue : list (Z * coroutine)) (d : t)
  : option outcome :=
  match queue, fuel with
  | [], _ => Some (mkOutcome [] true)
  | _, O => None
  | (now, c) :: rest, S fuel =>
      match resume_task c d with
      | (d', Suspended seconds c') =>
          o ← gather fuel (schedule (now + Z.max seconds 0) c' rest) d';
          Some (mkOutcome ((now, d') :: timeline o) (returned o))
      | (d', Finished) =>
          o ← gather fuel rest d';
          Some (mkOutcome ((now, d') :: timeline o) (returned o))
      | (d', Raised) => Some (mkOutcome [(now, d')] false)
      end
  end.

(** [run_LED_tasks], started at time [now]: both coroutines are run by
    [asyncio.gather], the button's first. *)
Definition run_LED_tasks (now : Z) (g : GPIO.t) (d : t) : option outcome :=
  let '(bj, sj) := GPIO.run_LED_tasks g in
  let b := button_coroutine (GPIO.delay g) bj in
  let s := screen_coroutine (GPIO.delay g) sj in
  gather (List.length b + List.length s + 2) [(now, b); (now, s)] d.

(** [cleanup] *)
Definition cleanup (d : t) : option t :=
  rgb ← RGBLEDManagement.set_hex int16 "000000" (RGB d);
  Some (mk (RGBLEDManagement.stop rgb) (buttonLED d) (inPin d) false true).

End Builtin.

(** What can be seen: the level of the button's LED and the brightness of
    the three channels. *)
Definition lights (d : t) : option bool * (Z * Z * Z) :=
  (LEDManager.output (buttonLED d),
   (RGBLEDManager.brightness (RGBLEDManagement.redLED (RGB d)),
    RGBLEDManager.brightness (RGBLEDManagement.greenLED (RGB d)),
    RGBLEDManager.brightness (RGBLEDManagement.blueLED (RGB d)))).

(** The colour that [reset] shows. *)
Definition default_lights (d : t) : Z * Z * Z :=
  (RGBLEDManager.initialBrightness (RGBLEDManagement.redLED (RGB d)),
   RGBLEDManager.initialBrightness (RGBLEDManagement.greenLED (RGB d)),
   RGBLEDManager.initialBrightness (RGBLEDManagement.blueLED (RGB d))).

End Devices.

(** The value of a numeral of hexadecimal digits behind [0x], as
    [int(text, 16)] reads it. *)
Definition hex_digit (c : ascii) : option Z :=
  let n := Z.of_N (N_of_ascii c) in
  if (48 <=? n)%Z && (n <=? 57)%Z then Some (n - 48)
  else if (65 <=? n)%Z && (n <=? 70)%Z then Some (n - 55)
  else if (97 <=? n)%Z && (n <=? 102)%Z then Some (n - 87)
  else None.

Fixpoint hex_digits (acc : Z) (s : string) : option Z :=
  match s with
  | EmptyString => Some acc
  | String c rest => d ← hex_digit c; hex_digits (16 * acc + d) rest
  end.

Definition example_int16 (text : string) : option Z :=
  match text with
  | String "0" (String "x" (String c rest)) => hex_digits 0 (String c rest)
  | _ => None
  end.

(** The hexadecimal colour that one call of [run_LED_tasks] converts, if it
    converts one. *)
Definition shown_colour (g : GPIO.t) : option string :=
  match snd (GPIO.run_LED_tasks g) with
  | GPIO.default_screen_job => None
  | GPIO.solid_screen_job hexString => Some hexString
  | GPIO.blink_screen_job hexString => Some hexString
  end.

(** The devices when [run_LED_tasks] is over. *)
Definition devices_after (d : Devices.t) (o : Devices.outcome) : Devices.t :=
  List.last (map snd (Devices.timeline o)) d.

(** The button's LED is selected to stay lit. *)
Definition steady_on (g : GPIO.t) : bool :=
  GPIO.isConnected g
  && match GPIO.buttonTask g with
     | GPIO.button_state_co => GPIO.buttonArg g
     | GPIO.blink_button_co => false
     end.

(** The screen is selected to stay in a colour. *)
Definition steady_colour (g : GPIO.t) : bool :=
  GPIO.isConnected g
  && match GPIO.screenTask g with
     | GPIO.solid_screen_co => true
     | _ => false
     end.

(** The button's LED is lit by the first turn of its task. *)
Definition lit_first (g : GPIO.t) : bool :=
  GPIO.isConnected g
  && match GPIO.buttonTask g with
     | GPIO.button_state_co => GPIO.buttonArg g
     | GPIO.blink_button_co => true
     end.

(** The computation [c] keeps the property [P] of the node. *)
Definition keeps {A} (P : Node -> Prop) (c : M A) : Prop :=
  forall n, P n -> P (snd (c n)).

(** The colours that the LED decision of the node selects: yellow or green
    for the solid screen, yellow for the blinking one. *)
Definition node_colours (g : GPIO.t) : Prop :=
  match GPIO.screenTask g with
  | GPIO.default_screen_co => True
  | GPIO.solid_screen_co =>
      GPIO.screenArg g = "FFFF00" \/ GPIO.screenArg g = "00FF00"
  | GPIO.blink_screen_co => GPIO.screenArg g = "FFFF00"
  end.

(** The devices that [GPIOManagement(RGB_pins=[19, 13, 12],
    defaultColor='0000FF', buttonLEDPin=6, buttonInPin=5, delay=1)]
    creates. *)
Definition example_devices : Devices.t :=
  Devices.mk
    (RGBLEDManagement.mk "0000FF" (RGBLEDManager.init 19 "Red" 0)
       (RGBLEDManager.init 13 "Green" 0) (RGBLEDManager.init 12 "Blue" 100))
    (LEDManager.init 6 "Button") 5 true false.



(** * Properties *)

(** ** The display *)

Section LCDFacts.
Import LCD LCDCalls.

Lemma display_text_not_setup text priority l :
  isSetup l = false -> display_text text priority l = Ok l.
Proof. intros H. unfold display_text. rewrite H. reflexivity. Qed.

Lemma display_text_below_latch text priority l :
  priority < currentPriority l -> display_text text priority l = Ok l.
Proof.
  intros H. unfold display_text.
  replace (priority >=? currentPriority l) with false
    by (symmetry; rewrite Z.geb_leb; apply Z.leb_gt; lia).
  rewrite andb_false_r. reflexivity.
Qed.

Lemma display_text_shown text priority l d :
  isSetup l = true -> currentPriority l <= priority -> display l = Some d ->
  display_text text priority l = Ok (shown text priority d).
Proof.
  intros Hs Hp Hd. unfold display_text, shown, change_priority.
  rewrite Hs, Hd.
  replace (priority >=? currentPriority l) with true
    by (symmetry; rewrite Z.geb_leb; apply Z.leb_le; lia).
  cbn. rewrite <- !app_assoc. reflexivity.
Qed.

Lemma wf_shown text priority d : wf (shown text priority d).
Proof. intros _. eexists. reflexivity. Qed.

Lemma wf_do_call c l l' : wf l -> do_call c l = Ok l' -> wf l'.
Proof.
  intros Hwf. destruct c as [text priority|priority| |]; cbn.
  - unfold display_text.
    destruct (isSetup l && (priority >=? currentPriority l)) eqn:E.
    + destruct (display l); [|discriminate].
      intros [= <-]. intros _. eexists. reflexivity.
    + intros [= <-]. exact Hwf.
  - intros [= <-]. exact Hwf.
  - intros [= <-]. exact Hwf.
  - unfold clear. destruct (display l); [|discriminate].
    intros [= <-]. intros _. eexists. reflexivity.
Qed.

(** While the latch is at 2 or above and is not reset lower, calls do not
    raise, keep the latch there, and keep the display set up. *)
Lemma latch_stays_high cs : forall l,
  wf l -> isSetup l = true -> 2 <= currentPriority l ->
  Forall keeps_latch cs ->
  exists l', do_calls cs l = Ok l' /\ wf l' /\ isSetup l' = true
             /\ 2 <= currentPriority l'.
Proof.
  induction cs as [|c cs IH]; intros l Hwf Hs Hp Hall.
  - exists l. cbn. auto.
  - inversion Hall as [|? ? Hc Hcs]; subst.
    destruct (Hwf Hs) as [d Hd].
    assert (exists l1, do_call c l = Ok l1 /\ isSetup l1 = true
                       /\ 2 <= currentPriority l1) as (l1 & E1 & Hs1 & Hp1).
    { destruct c as [text priority|priority| |]; cbn in *.
      - destruct (Z_lt_le_dec priority (currentPriority l)) as [Hlt|Hge].
        + exists l. rewrite display_text_below_latch by assumption. auto.
        + exists (shown text priority d).
          rewrite (display_text_shown _ _ _ d) by assumption.
          cbn. repeat split; lia.
      - eexists. split; [reflexivity|]. cbn. split; [assumption|lia].
      - exists l. auto.
      - unfold clear. rewrite Hd. eexists. split; [reflexivity|]. cbn. auto. }
    cbn. rewrite E1. apply IH; auto.
    eapply wf_do_call; eassumption.
Qed.
End LCDFacts.

(** C5. Display priority latch.  A call [display_text(text, priority)] shows
    and stores the message (its first 32 characters, sent to the driver as
    two rows) exactly when the display was set up and [priority] is at least
    the latched priority, and the latch then becomes [priority]; otherwise
    nothing changes.  So once a priority-2 message has been shown, whatever
    calls follow that do not reset the latch to 1 or below, a priority-1
    call changes nothing; and after [change_priority] with a value of at
    most 1 a priority-1 message is shown again. *)
Theorem display_text_priority_latch (text : string) (priority : Z) (l : LCD.t) :
  LCDCalls.wf l ->
  (LCD.isSetup l = true /\ LCD.currentPriority l <= priority ->
     exists d, LCD.display l = Some d /\
       LCD.display_text text priority l = Ok (LCDCalls.shown text priority d)
       /\ LCD.message (LCDCalls.shown text priority d) = slice 0 32 text
       /\ LCD.currentPriority (LCDCalls.shown text priority d) = priority)
  /\ (~ (LCD.isSetup l = true /\ LCD.currentPriority l <= priority) ->
        LCD.display_text text priority l = Ok l)
  /\ (forall l2 cs,
        LCD.isSetup l = true -> LCD.currentPriority l <= 2 ->
        LCD.display_text text 2 l = Ok l2 ->
        Forall LCDCalls.keeps_latch cs ->
        exists l3, LCDCalls.do_calls cs l2 = Ok l3 /\
          forall text1, LCD.display_text text1 1 l3 = Ok l3)
  /\ (forall p text1,
        LCD.isSetup l = true -> p <= 1 ->
        exists d, LCD.display l = Some d /\
          LCD.display_text text1 1 (LCD.change_priority p l)
          = Ok (LCDCalls.shown text1 1 d)).
Proof.
  intros Hwf. repeat split.
  - intros [Hs Hp]. destruct (Hwf Hs) as [d Hd]. exists d.
    split; [assumption|]. split; [|split; reflexivity].
    apply display_text_shown; assumption.
  - intros Hn. destruct (LCD.isSetup l) eqn:Hs.
    + apply display_text_below_latch.
      destruct (Z_lt_le_dec priority (LCD.currentPriority l)); [assumption|].
      exfalso. apply Hn. split; [reflexivity|assumption].
    + apply display_text_not_setup. assumption.
  - intros l2 cs Hs Hp E Hall. destruct (Hwf Hs) as [d Hd].
    rewrite (display_text_shown _ _ _ d) in E by assumption.
    injection E as <-.
    destruct (latch_stays_high cs (LCDCalls.shown text 2 d)) as (l3 & E3 & _ & _ & Hp3);
      [apply wf_shown|reflexivity|cbn; lia|assumption|].
    exists l3. split; [assumption|].
    intros text1. apply display_text_below_latch. lia.
  - intros p text1 Hs Hp. destruct (Hwf Hs) as [d Hd]. exists d.
    split; [assumption|].
    apply display_text_shown; cbn; assumption.
Qed.

Lemma display_text_priority_latch_witness :
  let l := LCD.init [39; 63] (Z.eqb 63) in
  LCDCalls.wf l
  /\ (exists d, LCD.display l = Some d /\
        LCD.display_text error_text 2 l = Ok (LCDCalls.shown error_text 2 d)
        /\ LCD.message (LCDCalls.shown error_text 2 d) = slice 0 32 error_text
        /\ LCD.currentPriority (LCDCalls.shown error_text 2 d) = 2)
  /\ (exists l3,
        LCDCalls.do_calls
          [LCDCalls.display_text_call "Cue 12: Hold" 1; LCDCalls.get_call]
          (LCDCalls.shown error_text 2 [LCD.begin_ 16 2]) = Ok l3
        /\ forall text1, LCD.display_text text1 1 l3 = Ok l3).
Proof.
  intros l.
  assert (Hwf : LCDCalls.wf l) by (intros _; eexists; reflexivity).
  destruct (display_text_priority_latch error_text 2 l Hwf) as (H1 & _ & H3 & _).
  split; [exact Hwf|]. split.
  - apply H1. split; [reflexivity|]. vm_compute. discriminate.
  - apply H3.
    + reflexivity.
    + vm_compute. discriminate.
    + reflexivity.
    + repeat constructor.
Defined.

(** C10. Failed display setup.  When no adapter address responds, the
    display is marked as not set up, and from then on every [display_text]
    call, whatever its text and priority and whatever calls came before it,
    returns without an exception and leaves the whole display state, stored
    message and latched priority included, as it was; this covers the
    priority-2 message of the [run_tasks] exception handler. *)
Theorem display_text_dropped_after_failed_setup
    (ADDRESSES : list Z) (responds : Z -> bool) :
  LCD.find_adapter responds ADDRESSES = None ->
  LCD.isSetup (LCD.init ADDRESSES responds) = false
  /\ (forall cs l,
        LCDCalls.do_calls cs (LCD.init ADDRESSES responds) = Ok l ->
        forall text priority, LCD.display_text text priority l = Ok l)
  /\ (forall n,
        LCD n = LCD.init ADDRESSES responds ->
        call_LCD (LCD.display_text error_text 2) n = (Ok tt, n)).
Proof.
  intros Hnone.
  assert (H0 : LCD.isSetup (LCD.init ADDRESSES responds) = false).
  { unfold LCD.init, LCD.display_setup. rewrite Hnone. reflexivity. }
  split; [exact H0|]. split.
  - intros cs. generalize (LCD.init ADDRESSES responds) H0. clear H0.
    induction cs as [|c cs IH]; intros l0 H0 l E text priority; cbn in E.
    + injection E as <-. apply display_text_not_setup. exact H0.
    + destruct (LCDCalls.do_call c l0) as [l1|] eqn:E1; [|discriminate].
      apply (IH l1); [|exact E].
      destruct c as [t p|p| |]; cbn in E1.
      * rewrite display_text_not_setup in E1 by exact H0.
        injection E1 as <-. exact H0.
      * injection E1 as <-. exact H0.
      * injection E1 as <-. exact H0.
      * unfold LCD.clear in E1. destruct (LCD.display l0); [|discriminate].
        injection E1 as <-. exact H0.
  - intros n Hn. unfold call_LCD.
    rewrite display_text_not_setup by (rewrite Hn; exact H0).
    destruct n; reflexivity.
Qed.

Lemma display_text_dropped_after_failed_setup_witness :
  LCD.find_adapter (fun _ => false) [39; 63] = None
  /\ LCD.display_text error_text 2
       (LCD.change_priority 0 (LCD.init [39; 63] (fun _ => false)))
     = Ok (LCD.change_priority 0 (LCD.init [39; 63] (fun _ => false))).
Proof.
  split; [reflexivity|].
  destruct (display_text_dropped_after_failed_setup [39; 63] (fun _ => false)
              eq_refl) as (_ & H & _).
  apply (H [LCDCalls.display_text_call "MAC Addr: b8:27:eb:00:00:01" 1;
            LCDCalls.change_priority_call 0]).
  reflexivity.
Defined.

(** ** The error log *)

(** C9. Error-log deduplication.  Calling [update] twice with the same
    traceback leaves the error list, and the file, as one call does; a
    traceback that is already in the list is not appended again, and one
    that is not is appended once. *)
Theorem update_idempotent (trace : string) (e : ErrorStorage.t) :
  ErrorStorage.update trace (ErrorStorage.update trace e)
  = ErrorStorage.update trace e
  /\ (trace ∈ ErrorStorage.errors e ->
        ErrorStorage.errors (ErrorStorage.update trace e) = ErrorStorage.errors e)
  /\ (trace ∉ ErrorStorage.errors e ->
        ErrorStorage.errors (ErrorStorage.update trace e)
        = ErrorStorage.errors e ++ [trace]).
Proof.
  unfold ErrorStorage.update, ErrorStorage.error_dump.
  destruct (decide (trace ∈ ErrorStorage.errors e)) as [Hin|Hout]; cbn.
  - rewrite decide_True by assumption. cbn.
    split; [reflexivity|]. split; [reflexivity|]. intros Hn. contradiction.
  - rewrite decide_True
      by (apply elem_of_app; right; apply list_elem_of_singleton; reflexivity).
    cbn. split; [reflexivity|]. split; [|reflexivity]. intros Hn. contradiction.
Qed.

Lemma update_idempotent_witness :
  "KeyError: 'Standby'" ∈ ["OSError"; "KeyError: 'Standby'"]
  /\ ErrorStorage.errors
       (ErrorStorage.update "KeyError: 'Standby'"
          (ErrorStorage.init "errors.json"
             (Some ["OSError"; "KeyError: 'Standby'"])))
     = ["OSError"; "KeyError: 'Standby'"].
Proof.
  assert (Hin : "KeyError: 'Standby'" ∈ ["OSError"; "KeyError: 'Standby'"]).
  { apply list_elem_of_In. right. left. reflexivity. }
  split; [exact Hin|].
  destruct (update_idempotent "KeyError: 'Standby'"
              (ErrorStorage.init "errors.json"
                 (Some ["OSError"; "KeyError: 'Standby'"]))) as (_ & H & _).
  apply H. exact Hin.
Defined.

(** ** The getters *)

Lemma get_node_series_value_present index v n :
  nodeSeries n !! index = Some v -> get_node_series_value index n = (Ok v, n).
Proof.
  intros H. unfold get_node_series_value, try_except, bind, gets, subscript.
  rewrite H. reflexivity.
Qed.

Lemma get_node_series_value_absent index n :
  nodeSeries n !! index = None ->
  get_node_series_value index n = (Ok (VStr "None"), n).
Proof.
  intros H. unfold get_node_series_value, try_except, bind, gets, subscript.
  rewrite H. reflexivity.
Qed.

Lemma get_node_series_value_total index n :
  get_node_series_value index n
  = (Ok (default (VStr "None") (nodeSeries n !! index)), n).
Proof.
  destruct (nodeSeries n !! index) eqn:E; cbn.
  - apply get_node_series_value_present. exact E.
  - apply get_node_series_value_absent. exact E.
Qed.

Lemma get_attribute_value_populated key d n :
  attributes_dict n = Some d ->
  get_attribute_value key n = (Ok (default (VStr "None") (d !! key)), n).
Proof.
  intros H. unfold get_attribute_value, try_except, bind, getattr, subscript.
  rewrite H. destruct (d !! key); reflexivity.
Qed.

Lemma get_attribute_value_unpopulated key n :
  attributes_dict n = None ->
  get_attribute_value key n = (Raise AttributeError, n).
Proof.
  intros H. unfold get_attribute_value, try_except, bind, getattr.
  rewrite H. reflexivity.
Qed.

(** On a node as [__init__] leaves it, before any coroutine has run, the
    node record is empty and the attribute dictionary does not exist: the
    getter of the node record returns the string "None" for every key, and
    the getter of the attributes, were it called there, would raise
    AttributeError, which its handler for KeyError does not catch. *)
Lemma constructed_node_reads
    (errorStorageFile : string) (disk : option (list string)) (mac : string)
    (ADDRESSES : list Z) (responds : Z -> bool) (key : string) :
  get_node_series_value key
    (Node_init errorStorageFile disk mac ADDRESSES responds)
  = (Ok (VStr "None"), Node_init errorStorageFile disk mac ADDRESSES responds)
  /\ get_attribute_value key
       (Node_init errorStorageFile disk mac ADDRESSES responds)
     = (Raise AttributeError,
        Node_init errorStorageFile disk mac ADDRESSES responds).
Proof.
  split.
  - apply get_node_series_value_absent. apply lookup_empty.
  - apply get_attribute_value_unpopulated. reflexivity.
Qed.

(** ** The display presenter *)

Lemma update_display_cycle_before_setup first n g :
  setup_tasks n = Some g -> gathering_done g = false ->
  update_display_cycle first n
  = (call_LCD (LCD.display_text ("MAC Addr: " +:+ mac n) LCD.default_priority);;
     ret first) n.
Proof.
  intros Hg Hd. unfold update_display_cycle, bind, getattr, gets, ret.
  rewrite Hg, Hd. reflexivity.
Qed.

(** C6 as stated fails: before setup completes, on the example node whose
    latch is still 0, one display cycle leaves the latch at 1, and its
    outcome is not that of a submission at priority 0. *)
Lemma mac_message_priority_counterexample :
  (exists g, setup_tasks (node (boot example_node)) = Some g
             /\ gathering_done g = false)
  /\ LCD.currentPriority (LCD (node (boot example_node))) = 0
  /\ LCD.currentPriority
       (LCD (snd (update_display_cycle true (node (boot example_node))))) = 1
  /\ update_display_cycle true (node (boot example_node))
     <> (call_LCD (LCD.display_text
                     ("MAC Addr: " +:+ mac (node (boot example_node))) 0);;
         ret true) (node (boot example_node)).
Proof.
  split; [eexists; split; reflexivity|].
  split; [reflexivity|]. split; [reflexivity|].
  intros H.
  apply (f_equal (fun r => LCD.currentPriority (LCD (snd r)))) in H.
  vm_compute in H. discriminate.
Qed.

(** C6, amended.  In every display cycle that runs before the setup tasks
    complete, the message "MAC Addr: <address>" is submitted at the default
    priority 1 and the local flag is left alone.  On a display that is set
    up and whose latch is at most 1, the initial latch 0 included, the
    message is shown and the latch becomes 1; the cycle never leaves the
    latch above the larger of 1 and its previous value. *)
Theorem mac_message_submitted_at_default_priority
    (first : bool) (n : Node) (g : gathering) :
  setup_tasks n = Some g -> gathering_done g = false ->
  update_display_cycle first n
  = (call_LCD (LCD.display_text ("MAC Addr: " +:+ mac n) 1);; ret first) n
  /\ (forall d,
        LCD.isSetup (LCD n) = true -> LCD.display (LCD n) = Some d ->
        LCD.currentPriority (LCD n) <= 1 ->
        update_display_cycle first n
        = (Ok first,
           set_LCD (LCDCalls.shown ("MAC Addr: " +:+ mac n) 1 d) n))
  /\ LCD.currentPriority (LCD (snd (update_display_cycle first n)))
     <= Z.max 1 (LCD.currentPriority (LCD n)).
Proof.
  intros Hg Hd.
  pose proof (update_display_cycle_before_setup first n g Hg Hd) as E.
  unfold LCD.default_priority in E.
  split; [exact E|]. split.
  - intros d Hs Hdis Hp. rewrite E. unfold bind, call_LCD, ret.
    rewrite (display_text_shown _ _ _ d) by assumption. reflexivity.
  - rewrite E. unfold bind, call_LCD, ret.
    destruct (LCD.isSetup (LCD n)) eqn:Hs.
    + destruct (Z_lt_le_dec 1 (LCD.currentPriority (LCD n))) as [Hlt|Hle].
      * rewrite display_text_below_latch by assumption. cbn. lia.
      * unfold LCD.display_text. rewrite Hs.
        replace (1 >=? LCD.currentPriority (LCD n)) with true
          by (symmetry; rewrite Z.geb_leb; apply Z.leb_le; lia).
        cbn. destruct (LCD.display (LCD n)); cbn; lia.
    + rewrite display_text_not_setup by assumption. cbn. lia.
Qed.

Lemma mac_message_submitted_at_default_priority_witness :
  setup_tasks (node (boot example_node)) = Some (mkGathering None None)
  /\ gathering_done (mkGathering None None) = false
  /\ update_display_cycle true (node (boot example_node))
     = (Ok true,
        set_LCD (LCDCalls.shown "MAC Addr: b8:27:eb:00:00:01" 1 [LCD.begin_ 16 2])
          (node (boot example_node))).
Proof.
  split; [reflexivity|]. split; [reflexivity|].
  destruct (mac_message_submitted_at_default_priority true
              (node (boot example_node)) (mkGathering None None)
              eq_refl eq_refl) as (_ & H & _).
  apply (H [LCD.begin_ 16 2]).
  - reflexivity.
  - reflexivity.
  - vm_compute. discriminate.
Defined.

(** ** The synchronizers *)

Lemma update_attributes_attempt_fails a n :
  attributes_lookup_fails (mac n) a ->
  update_attributes_attempt a n = (Ok (Backoff (5 # 1)%Q), n).
Proof.
  intros H. unfold update_attributes_attempt, try_except, bind, gets, loc.
  destruct a as [df|]; cbn in *.
  - unfold subscript. rewrite H. reflexivity.
  - reflexivity.
Qed.

Lemma update_attributes_attempt_succeeds df row n :
  df !! VStr (mac n) = Some row ->
  update_attributes_attempt (Some df) n
  = (Ok (Finished "Attributes Updated"), set_attributes_dict (Some row) n).
Proof.
  intros H. unfold update_attributes_attempt, try_except, bind, gets, loc, subscript.
  rewrite H. reflexivity.
Qed.

Lemma update_attributes_failures fails : forall n answers,
  Forall (attributes_lookup_fails (mac n)) fails ->
  update_attributes (fails ++ answers) n
  = let r := update_attributes answers n in
    mkSyncRun (repeat (5 # 1)%Q (length fails) ++ backoffs r)
      (returned r) (unread r) (final r).
Proof.
  induction fails as [|a fails IH]; intros n answers Hall.
  - cbn. destruct (update_attributes answers n). reflexivity.
  - inversion Hall as [|? ? Ha Hfails]; subst.
    change (update_attributes ((a :: fails) ++ answers) n)
      with (retry_loop update_attributes_attempt (a :: fails ++ answers) n).
    cbn [retry_loop]. rewrite update_attributes_attempt_fails by exact Ha.
    fold update_attributes. rewrite IH by exact Hfails. reflexivity.
Qed.

Lemma update_state_frame_failures k : forall n answers,
  update_state_frame (repeat None k ++ answers) n
  = let r := update_state_frame answers n in
    mkSyncRun (repeat (5 # 2)%Q k ++ backoffs r)
      (returned r) (unread r) (final r).
Proof.
  induction k as [|k IH]; intros n answers.
  - cbn. destruct (update_state_frame answers n). reflexivity.
  - change (update_state_frame (repeat None (S k) ++ answers) n)
      with (retry_loop update_state_frame_attempt
              (None :: repeat None k ++ answers) n).
    cbn [retry_loop update_state_frame_attempt ret]. fold update_state_frame.
    rewrite IH. reflexivity.
Qed.

(** C7 as stated fails: the transition-table synchronizer whose first
    fetch finds nothing sleeps 2.5 time-units, not 5, before it retries. *)
Lemma state_frame_backoff_counterexample :
  backoffs (update_state_frame [None; Some ∅] example_node) = [(5 # 2)%Q]
  /\ ~ ((5 # 2) == (5 # 1))%Q.
Proof.
  split; [reflexivity|]. intros H. vm_compute in H. discriminate.
Qed.

(** C7, amended.  The attribute synchronizer sleeps exactly 5 time-units
    after every failed lookup and the transition-table synchronizer exactly
    2.5 time-units after every empty fetch, however many there are and
    whatever table the first successful fetch brings (any table, the empty
    one included); for both, the first successful fetch stores the value,
    the coroutine returns without asking the server again, and once its
    result is recorded the event loop never runs it again. *)
Theorem synchronizer_backoff_and_permanence
    (n : Node) (fails rest : list (option (gmap value (gmap string value))))
    (k : nat) (table : gmap value (gmap string value)) :
  (forall df row,
     Forall (attributes_lookup_fails (mac n)) fails ->
     df !! VStr (mac n) = Some row ->
     update_attributes (fails ++ Some df :: rest) n
     = mkSyncRun (repeat (5 # 1)%Q (length fails)) (Some "Attributes Updated")
         rest (Ok tt, set_attributes_dict (Some row) n))
  /\ update_state_frame (repeat None k ++ Some table :: rest) n
     = mkSyncRun (repeat (5 # 2)%Q k) (Some "State Dataframe Updated")
         rest (Ok tt, set_stateFrame (Some table) n)
  /\ (forall g w answer,
        setup_tasks n = Some g ->
        (is_Some (attributes_result g) ->
           resume_update_attributes w answer n = (Ok w, n))
        /\ (is_Some (state_frame_result g) ->
              resume_update_state_frame w answer n = (Ok w, n))).
Proof.
  split; [|split].
  - intros df row Hfails Hrow.
    rewrite update_attributes_failures by exact Hfails.
    unfold update_attributes. cbn [retry_loop].
    rewrite (update_attributes_attempt_succeeds df row) by exact Hrow.
    cbn. rewrite app_nil_r. reflexivity.
  - rewrite update_state_frame_failures.
    unfold update_state_frame. cbn. rewrite app_nil_r. reflexivity.
  - intros g w answer Hg. split; intros [s Hs].
    + unfold resume_update_attributes, resume_synchronizer, bind, getattr.
      rewrite Hg, Hs. reflexivity.
    + unfold resume_update_state_frame, resume_synchronizer, bind, getattr.
      rewrite Hg, Hs. reflexivity.
Qed.

Lemma synchronizer_backoff_and_permanence_witness :
  update_attributes
    ([None; Some ∅]
       ++ Some {[ VStr "b8:27:eb:00:00:01" := {[ "Node Number" := VInt 3 ]} ]}
       :: [None]) example_node
  = mkSyncRun [(5 # 1)%Q; (5 # 1)%Q] (Some "Attributes Updated") [None]
      (Ok tt,
       set_attributes_dict (Some {[ "Node Number" := VInt 3 ]}) example_node)
  /\ update_state_frame [None; None; Some example_table; None] example_node
     = mkSyncRun [(5 # 2)%Q; (5 # 2)%Q] (Some "State Dataframe Updated") [None]
         (Ok tt, set_stateFrame (Some example_table) example_node)
  /\ update_state_frame [None; Some ∅] example_node
     = mkSyncRun [(5 # 2)%Q] (Some "State Dataframe Updated") []
         (Ok tt, set_stateFrame (Some ∅) example_node).
Proof.
  split; [|split].
  - apply (synchronizer_backoff_and_permanence example_node [None; Some ∅] [None]
             0 ∅).
    + repeat constructor.
    + reflexivity.
  - apply (synchronizer_backoff_and_permanence example_node [] [None]
             2 example_table).
  - apply (synchronizer_backoff_and_permanence example_node [] [] 1 ∅).
Defined.

(** ** The readiness gate *)

Lemma py_ne_true a b : py_ne a b = true <-> a <> b.
Proof. unfold py_ne. apply bool_decide_eq_true. Qed.

Lemma clock_changed_bool r old :
  py_ne r VNone && py_ne r old = true <-> clock_changed r old.
Proof.
  unfold clock_changed. rewrite andb_true_iff, !py_ne_true. reflexivity.
Qed.

Lemma uptodate_done_ready f n :
  uptodate_future n = Some f -> uptodate_done n = (Ok (ready n), n).
Proof.
  intros H. unfold uptodate_done, bind, getattr, future_done, gets, ready.
  rewrite H. reflexivity.
Qed.

(** A pass that sees a changed clock. *)
Lemma uptodate_check_poll_changed r f old n :
  uptodate_future n = Some f -> oldServerTime n = Some old ->
  clock_changed r old ->
  uptodate_check_poll r n
  = (Ok (5 # 1)%Q,
     set_oldServerTime (Some r)
       (if ready n then n else set_futures (<[f := true]> (futures n)) n)).
Proof.
  intros Hf Hold Hch. apply clock_changed_bool in Hch.
  unfold uptodate_check_poll, bind at 1, getattr at 1.
  rewrite Hold, Hch. unfold bind at 1. rewrite (uptodate_done_ready f) by exact Hf.
  destruct (ready n); cbn.
  - reflexivity.
  - unfold bind, getattr, set_result, modify, ret. rewrite Hf. reflexivity.
Qed.

(** A pass that sees no change. *)
Lemma uptodate_check_poll_stale r f old n :
  uptodate_future n = Some f -> oldServerTime n = Some old ->
  ~ clock_changed r old ->
  uptodate_check_poll r n
  = (Ok (1 # 4)%Q,
     if ready n then
       set_uptodate_future (Some (length (futures n)))
         (set_futures (futures n ++ [false]) n)
     else n).
Proof.
  intros Hf Hold Hch.
  assert (E : py_ne r VNone && py_ne r old = false).
  { destruct (py_ne r VNone && py_ne r old) eqn:E; [|reflexivity].
    apply clock_changed_bool in E. contradiction. }
  unfold uptodate_check_poll, bind at 1, getattr at 1.
  rewrite Hold, E. unfold bind at 1. rewrite (uptodate_done_ready f) by exact Hf.
  destruct (ready n); reflexivity.
Qed.

Lemma gate_started_poll r n :
  gate_started n ->
  exists d n', uptodate_check_poll r n = (Ok d, n') /\ gate_started n'.
Proof.
  intros (f & old & Hf & Hlt & Hold).
  destruct (decide (clock_changed r old)) as [Hch|Hch].
  - rewrite (uptodate_check_poll_changed r f old) by assumption.
    do 2 eexists. split; [reflexivity|].
    exists f, r. destruct (ready n); cbn; repeat split; try assumption.
    rewrite length_insert. exact Hlt.
  - rewrite (uptodate_check_poll_stale r f old) by assumption.
    do 2 eexists. split; [reflexivity|].
    destruct (ready n); cbn.
    + exists (length (futures n)), old. cbn. repeat split; try assumption.
      rewrite length_app. cbn. lia.
    + exists f, old. auto.
Qed.

Lemma gate_started_loop reads : forall n,
  gate_started n ->
  exists ds n', uptodate_check_loop reads n = (Ok ds, n') /\ gate_started n'.
Proof.
  induction reads as [|r reads IH]; intros n Hn.
  - exists [], n. split; [reflexivity|exact Hn].
  - destruct (gate_started_poll r n Hn) as (d & n1 & E1 & Hn1).
    destruct (IH n1 Hn1) as (ds & n2 & E2 & Hn2).
    exists (d :: ds), n2. split; [|exact Hn2].
    cbn. unfold bind at 1. rewrite E1. unfold bind at 1. rewrite E2. reflexivity.
Qed.

Lemma gate_started_check n0 r0 reads :
  exists ds n,
    uptodate_check r0 reads (snd (run_tasks_start n0)) = (Ok ds, n)
    /\ gate_started n.
Proof.
  unfold uptodate_check, bind at 1, uptodate_check_start, modify.
  apply gate_started_loop.
  exists (length (futures n0)), r0. cbn. repeat split.
  rewrite length_app. cbn. lia.
Qed.

Lemma await_uptodate_future_eval f n :
  uptodate_future n = Some f ->
  await_uptodate_future None n = (Ok (if ready n then None else Some f), n).
Proof.
  intros H. unfold await_uptodate_future, bind, getattr, future_done, gets, ret, ready.
  rewrite H. reflexivity.
Qed.

(** C1. Readiness gate.  Start the readiness loop on the future created by
    [run_tasks] and let it process any reads.  The loop does not raise, and
    for the poll that comes next: afterwards the flag is set exactly when
    that poll read a present value different from the stored clock, which
    then becomes the stored clock; a coroutine that then awaits the
    readiness future goes on exactly when the flag is set and is otherwise
    suspended on the current future; and if the flag was set and the poll
    saw no change (a None read included), the flag is cleared by installing
    a future that did not exist before and is not done, the futures created
    earlier keeping their state: a coroutine that awaits afterwards is
    suspended on the new future, one that was suspended on the old future
    goes on. *)
Theorem readiness_gate_step (n0 : Node) (r0 : value) (reads : list value) (r : value) :
  exists ds n f old d n',
    uptodate_check r0 reads (snd (run_tasks_start n0)) = (Ok ds, n)
    /\ uptodate_future n = Some f /\ oldServerTime n = Some old
    /\ uptodate_check_poll r n = (Ok d, n')
    /\ (ready n' = true <-> clock_changed r old)
    /\ (clock_changed r old -> oldServerTime n' = Some r)
    /\ (~ clock_changed r old -> oldServerTime n' = Some old)
    /\ (ready n = true -> ~ clock_changed r old ->
          ready n' = false
          /\ uptodate_future n' = Some (length (futures n))
          /\ futures n' = futures n ++ [false]
          /\ futures n' !! f = Some true
          /\ await_uptodate_future None n'
             = (Ok (Some (length (futures n))), n')
          /\ await_uptodate_future (Some f) n' = (Ok None, n'))
    /\ (exists f',
          uptodate_future n' = Some f'
          /\ await_uptodate_future None n'
             = (Ok (if ready n' then None else Some f'), n'))
    /\ (clock_changed r old -> await_uptodate_future None n' = (Ok None, n')).
Proof.
  destruct (gate_started_check n0 r0 reads) as (ds & n & E & f & old & Hf & Hlt & Hold).
  exists ds, n, f, old.
  destruct (decide (clock_changed r old)) as [Hch|Hch].
  - do 2 eexists. split; [exact E|]. split; [exact Hf|]. split; [exact Hold|].
    split; [apply (uptodate_check_poll_changed r f old); assumption|].
    assert (Hr' : ready (set_oldServerTime (Some r)
                           (if ready n then n
                            else set_futures (<[f := true]> (futures n)) n))
                  = true).
    { destruct (ready n) eqn:Hr; cbn; [exact Hr|].
      unfold ready. cbn. rewrite Hf. apply bool_decide_eq_true.
      apply list_lookup_insert_eq. exact Hlt. }
    assert (Hf' : uptodate_future (set_oldServerTime (Some r)
                           (if ready n then n
                            else set_futures (<[f := true]> (futures n)) n))
                  = Some f)
      by (destruct (ready n); exact Hf).
    split; [|split; [|split; [|split; [|split]]]].
    + split; [intros _; exact Hch|intros _; exact Hr'].
    + intros _. destruct (ready n); reflexivity.
    + intros Hn. contradiction.
    + intros _ Hn. contradiction.
    + exists f. split; [exact Hf'|]. apply await_uptodate_future_eval, Hf'.
    + intros _. rewrite (await_uptodate_future_eval f _ Hf'), Hr'. reflexivity.
  - do 2 eexists. split; [exact E|]. split; [exact Hf|]. split; [exact Hold|].
    split; [apply (uptodate_check_poll_stale r f old); assumption|].
    assert (Hfresh : ready (set_uptodate_future (Some (length (futures n)))
                              (set_futures (futures n ++ [false]) n)) = false).
    { unfold ready. cbn. apply bool_decide_eq_false.
      rewrite lookup_app_r by lia. rewrite Nat.sub_diag. cbn. discriminate. }
    split; [|split; [|split; [|split; [|split]]]].
    + destruct (ready n) eqn:Hr.
      * rewrite Hfresh. split; [discriminate|contradiction].
      * rewrite Hr. split; [discriminate|contradiction].
    + intros Hy. contradiction.
    + intros _. destruct (ready n); cbn; exact Hold.
    + intros Hr _. rewrite Hr. split; [exact Hfresh|].
      cbn [uptodate_future set_uptodate_future futures set_futures].
      split; [reflexivity|]. split; [reflexivity|].
      assert (Hdone : (futures n ++ [false]) !! f = Some true).
      { rewrite lookup_app_l by exact Hlt.
        unfold ready in Hr. rewrite Hf in Hr. apply bool_decide_eq_true in Hr.
        exact Hr. }
      split; [exact Hdone|]. split.
      * rewrite (await_uptodate_future_eval (length (futures n)))
          by reflexivity.
        rewrite Hfresh. reflexivity.
      * unfold await_uptodate_future, bind, ret, future_done, gets.
        cbn [futures set_uptodate_future set_futures fst snd].
        rewrite bool_decide_eq_true_2 by exact Hdone. reflexivity.
    + destruct (ready n) eqn:Hr.
      * eexists. split; [reflexivity|].
        apply await_uptodate_future_eval. reflexivity.
      * exists f. split; [exact Hf|]. apply await_uptodate_future_eval, Hf.
    + intros Hy. contradiction.
Qed.

Lemma readiness_gate_step_witness :
  exists n n',
    uptodate_check (VInt 0) [VInt 0; VInt 1] (snd (run_tasks_start example_node))
    = (Ok [(1 # 4)%Q; (5 # 1)%Q], n)
    /\ ready n = true /\ ~ clock_changed VNone (VInt 1)
    /\ uptodate_check_poll VNone n = (Ok (1 # 4)%Q, n')
    /\ ready n' = false /\ uptodate_future n' = Some 1%nat
    /\ futures n' = [true; false]
    /\ await_uptodate_future None n' = (Ok (Some 1%nat), n')
    /\ await_uptodate_future (Some 0%nat) n' = (Ok None, n').
Proof.
  destruct (readiness_gate_step example_node (VInt 0) [VInt 0; VInt 1] VNone)
    as (ds & n & f & old & d & n' & E & Hf & Hold & Ep & _ & _ & _ & H & _).
  vm_compute in E. injection E as <- <-.
  injection Hf as <-. injection Hold as <-.
  assert (Hn : ~ clock_changed VNone (VInt 1)) by (intros [Hx _]; congruence).
  destruct (H eq_refl Hn) as (Hr & Hu & Hfs & _ & Hw & Hw0).
  do 2 eexists. split; [reflexivity|]. split; [reflexivity|].
  split; [exact Hn|].
  assert (Ed : d = (1 # 4)%Q) by (vm_compute in Ep; congruence).
  subst d. split; [exact Ep|]. split; [exact Hr|]. split; [exact Hu|].
  split; [exact Hfs|]. split; [exact Hw|exact Hw0].
Defined.

(** ** The node state machine *)

Lemma bind_ok {A B} (c : M A) (k : A -> M B) n a n' :
  c n = (Ok a, n') -> bind c k n = k a n'.
Proof. intros H. unfold bind. rewrite H. reflexivity. Qed.

Lemma bind_raise {A B} (c : M A) (k : A -> M B) n e n' :
  c n = (Raise e, n') -> bind c k n = (Raise e, n').
Proof. intros H. unfold bind. rewrite H. reflexivity. Qed.





Lemma set_node_state_from_eval column frame cueState row v n :
  stateFrame n = Some frame -> nodeSeries n !! "Cue State" = Some cueState ->
  frame !! cueState = Some row -> row !! column = Some v ->
  set_node_state_from column n
  = (Ok tt, set_nodeSeries (<["Node State" := v]> (nodeSeries n)) n).
Proof.
  intros Hf Hs Hr Hv. unfold set_node_state_from.
  rewrite (bind_ok _ _ n frame n) by (unfold getattr; rewrite Hf; reflexivity).
  rewrite (bind_ok _ _ n (nodeSeries n) n) by reflexivity.
  rewrite (bind_ok _ _ n cueState n) by (unfold subscript; rewrite Hs; reflexivity).
  rewrite (bind_ok _ _ n v n).
  - reflexivity.
  - unfold at_. rewrite (bind_ok _ _ n row n)
      by (unfold subscript; rewrite Hr; reflexivity).
    unfold subscript. rewrite Hv. reflexivity.
Qed.




Lemma update_node_series_publish_eval m t :
  oldServerTime m = Some t ->
  update_node_series_publish m
  = (Ok tt,
     set_communication
       (communication m ++ [(<["Timestamp" := t]> (nodeSeries m), 71)])
       (set_nodeSeries (<["Timestamp" := t]> (nodeSeries m)) m)).
Proof.
  intros Ht.
  unfold update_node_series_publish, bind, getattr, set_node_series_value,
    modify, gets.
  rewrite Ht. reflexivity.
Qed.




(** *** Attributes that a computation leaves alone *)

Section Frame.
Context {T : Type} (f : Node -> T).

Lemma preserves_ret {A} (a : A) : preserves f (ret a).
Proof. intros n. reflexivity. Qed.

Lemma preserves_raise {A} e : preserves f (@raise A e).
Proof. intros n. reflexivity. Qed.

Lemma preserves_gets {A} (g : Node -> A) : preserves f (gets g).
Proof. intros n. reflexivity. Qed.

Lemma preserves_getattr {A} (g : Node -> option A) : preserves f (getattr g).
Proof. intros n. unfold getattr. destruct (g n); reflexivity. Qed.

Lemma preserves_bind {A B} (c : M A) (k : A -> M B) :
  preserves f c -> (forall a, preserves f (k a)) -> preserves f (bind c k).
Proof.
  intros Hc Hk n. unfold bind. specialize (Hc n).
  destruct (c n) as [[a|e] n']; cbn in *.
  - rewrite Hk. exact Hc.
  - exact Hc.
Qed.

Lemma preserves_try_except {A} (body handler : M A) caught :
  preserves f body -> preserves f handler ->
  preserves f (try_except body caught handler).
Proof.
  intros Hb Hh n. unfold try_except. specialize (Hb n).
  destruct (body n) as [[a|e] n']; cbn in *.
  - exact Hb.
  - destruct (caught e); cbn; [rewrite Hh|]; exact Hb.
Qed.

Lemma preserves_modify (g : Node -> Node) :
  (forall n, f (g n) = f n) -> preserves f (modify g).
Proof. intros H n. apply H. Qed.

Lemma preserves_subscript {K} `{Countable K} {V} (d : gmap K V) k :
  preserves f (subscript d k).
Proof. intros n. unfold subscript. destruct (d !! k); reflexivity. Qed.

Lemma preserves_loc frame label : preserves f (loc frame label).
Proof.
  unfold loc. destruct frame; [apply preserves_subscript|apply preserves_raise].
Qed.

Lemma preserves_at frame row column : preserves f (at_ frame row column).
Proof.
  unfold at_. apply preserves_bind; intros; apply preserves_subscript.
Qed.

Lemma preserves_call_LCD g :
  (forall l n, f (set_LCD l n) = f n) -> preserves f (call_LCD g).
Proof.
  intros H n. unfold call_LCD. destruct (g (LCD n)); cbn; [apply H|reflexivity].
Qed.

Lemma preserves_call_GPIO g :
  (forall x n, f (set_GPIO x n) = f n) -> preserves f (call_GPIO g).
Proof. intros H n. apply H. Qed.

Lemma preserves_create_future :
  (forall x n, f (set_futures x n) = f n) -> preserves f create_future.
Proof. intros H n. apply H. Qed.

Lemma preserves_future_done fut : preserves f (future_done fut).
Proof. apply preserves_gets. Qed.

Lemma preserves_uptodate_done : preserves f uptodate_done.
Proof.
  unfold uptodate_done. apply preserves_bind;
    [apply preserves_getattr|intros; apply preserves_future_done].
Qed.

Lemma preserves_get_node_series_value index :
  preserves f (get_node_series_value index).
Proof.
  unfold get_node_series_value. apply preserves_try_except.
  - apply preserves_bind; [apply preserves_gets|intros; apply preserves_subscript].
  - apply preserves_ret.
Qed.

Lemma preserves_get_attribute_value key :
  preserves f (get_attribute_value key).
Proof.
  unfold get_attribute_value. apply preserves_try_except.
  - apply preserves_bind; [apply preserves_getattr|intros; apply preserves_subscript].
  - apply preserves_ret.
Qed.

Lemma preserves_await_setup_tasks : preserves f await_setup_tasks.
Proof.
  unfold await_setup_tasks. apply preserves_bind;
    [apply preserves_getattr|intros; apply preserves_ret].
Qed.

Lemma preserves_await_uptodate_future w : preserves f (await_uptodate_future w).
Proof.
  unfold await_uptodate_future. apply preserves_bind.
  - destruct w; [apply preserves_ret|apply preserves_getattr].
  - intros. apply preserves_bind;
      [apply preserves_future_done|intros; apply preserves_ret].
Qed.

End Frame.

(** Goals [preserves f c] for a projection [f] that the setters in [c]
    do not touch, solved by following the structure of [c]. *)
Ltac frame :=
  repeat first
    [ progress intros
    | apply preserves_ret | apply preserves_raise | apply preserves_gets
    | apply preserves_getattr | apply preserves_subscript | apply preserves_loc
    | apply preserves_at | apply preserves_future_done
    | apply preserves_uptodate_done | apply preserves_get_node_series_value
    | apply preserves_get_attribute_value | apply preserves_await_setup_tasks
    | apply preserves_await_uptodate_future
    | apply preserves_bind | apply preserves_try_except
    | apply preserves_modify; intros; reflexivity
    | apply preserves_call_LCD; intros; reflexivity
    | apply preserves_call_GPIO; intros; reflexivity
    | apply preserves_create_future; intros; reflexivity
    | match goal with
      | |- preserves _ (if ?b then _ else _) => destruct b
      | |- preserves _ (match ?x with _ => _ end) => destruct x
      end ].

(** *** One cycle of the node state machine *)

Lemma is_new_cue_pure : preserves (fun n => n) is_new_cue.
Proof. unfold is_new_cue, comprehension, cue_differs. frame. Qed.

Lemma set_node_state_from_cases column n :
  (exists e, set_node_state_from column n = (Raise e, n))
  \/ (exists frame cueState row v,
        stateFrame n = Some frame /\ nodeSeries n !! "Cue State" = Some cueState
        /\ frame !! cueState = Some row /\ row !! column = Some v
        /\ set_node_state_from column n
           = (Ok tt, set_nodeSeries (<["Node State" := v]> (nodeSeries n)) n)).
Proof.
  destruct (stateFrame n) as [frame|] eqn:Hf.
  - destruct (nodeSeries n !! "Cue State") as [cueState|] eqn:Hs.
    + destruct (frame !! cueState) as [row|] eqn:Hr.
      * destruct (row !! column) as [v|] eqn:Hv.
        -- right. exists frame, cueState, row, v. repeat split; try assumption.
           apply (set_node_state_from_eval column frame cueState row v);
             assumption.
        -- left. exists KeyError.
           unfold set_node_state_from, bind, getattr, gets, at_, subscript.
           rewrite Hf. cbn. rewrite Hs. cbn. rewrite Hr. cbn. rewrite Hv.
           reflexivity.
      * left. exists KeyError.
        unfold set_node_state_from, bind, getattr, gets, at_, subscript.
        rewrite Hf. cbn. rewrite Hs. cbn. rewrite Hr. reflexivity.
    + left. exists KeyError.
      unfold set_node_state_from, bind, getattr, gets, subscript.
      rewrite Hf. cbn. rewrite Hs. reflexivity.
  - left. exists AttributeError.
    unfold set_node_state_from, bind, getattr. rewrite Hf. reflexivity.
Qed.

Lemma final_phase_branch_cases n :
  (exists e, final_phase_branch n = (Raise e, n))
  \/ (exists frame cueState row v,
        stateFrame n = Some frame /\ nodeSeries n !! "Cue State" = Some cueState
        /\ frame !! cueState = Some row /\ row !! "Final Node State" = Some v
        /\ final_phase_branch n
           = (Ok FinalPhase,
              set_initialState false
                (set_nodeSeries (<["Node State" := v]> (nodeSeries n)) n))).
Proof.
  destruct (set_node_state_from_cases "Final Node State" n)
    as [[e E]|(frame & cueState & row & v & Hf & Hs & Hr & Hv & E)].
  - left. exists e. unfold final_phase_branch. apply bind_raise. exact E.
  - right. exists frame, cueState, row, v. repeat split; try assumption.
    unfold final_phase_branch. rewrite (bind_ok _ _ _ _ _ E). reflexivity.
Qed.

Lemma new_cue_branch_flags n :
  match new_cue_branch n with
  | (Ok b, n') => b = NewCue /\ initialState n' = true /\ changeState n' = false
  | (Raise _, n') => initialState n' = initialState n
  end.
Proof.
  assert (HA : preserves initialState
                 (do cue <- getattr cueSeries; modify (set_nodeSeries cue)))
    by frame.
  assert (HB : preserves initialState (set_node_state_from "Initial Node State"))
    by (unfold set_node_state_from, set_node_series_value; frame).
  assert (HC : preserves initialState
                 (do v <- get_attribute_value "Node Number";
                  set_node_series_value "Node Number" v))
    by (unfold set_node_series_value; frame).
  unfold new_cue_branch. unfold bind at 1. specialize (HA n).
  destruct ((do cue <- getattr cueSeries; modify (set_nodeSeries cue)) n)
    as [[[]|e] n1]; cbn [snd] in HA; [|exact HA].
  unfold bind at 1. specialize (HB n1).
  destruct (set_node_state_from "Initial Node State" n1) as [[[]|e] n2];
    cbn [snd] in HB; [|congruence].
  unfold bind at 1. specialize (HC n2).
  destruct ((do v <- get_attribute_value "Node Number";
             set_node_series_value "Node Number" v) n2) as [[[]|e] n3];
    cbn [snd] in HC; [|congruence].
  cbn. auto.
Qed.

(** What one cycle does, by branch: the final phase needs both flags and
    clears initialState; a new cue sets initialState and clears changeState;
    the other two branches change nothing; a cycle that raises leaves
    initialState alone. *)
Lemma update_node_series_decide_cases n :
  match update_node_series_decide n with
  | (Ok FinalPhase, n') =>
      changeState n = true /\ initialState n = true
      /\ exists frame cueState row v,
           stateFrame n = Some frame
           /\ nodeSeries n !! "Cue State" = Some cueState
           /\ frame !! cueState = Some row
           /\ row !! "Final Node State" = Some v
           /\ n' = set_initialState false
                     (set_nodeSeries (<["Node State" := v]> (nodeSeries n)) n)
  | (Ok NewCue, n') => initialState n' = true /\ changeState n' = false
  | (Ok _, n') => n' = n
  | (Raise _, n') => initialState n' = initialState n
  end.
Proof.
  unfold update_node_series_decide. unfold bind at 1, getattr at 1.
  destruct (cueSeries n) as [cue|]; [|reflexivity].
  destruct (series_empty cue); [reflexivity|].
  unfold bind at 1. pose proof (is_new_cue_pure n) as Hp.
  destruct (is_new_cue n) as [[new_cue|e] n1]; cbn [snd] in Hp; subst n1;
    [|reflexivity].
  destruct new_cue.
  - pose proof (new_cue_branch_flags n) as H.
    destruct (new_cue_branch n) as [[b|e] n']; [|exact H].
    destruct H as (-> & H1 & H2). auto.
  - unfold bind, gets.
    destruct (changeState n) eqn:Hc; destruct (initialState n) eqn:Hi;
      cbn [andb]; try reflexivity.
    destruct (final_phase_branch_cases n)
      as [[e E]|(frame & cueState & row & v & Hf & Hs & Hr & Hv & E)];
      rewrite E.
    + exact Hi.
    + split; [reflexivity|]. split; [reflexivity|].
      exists frame, cueState, row, v. auto.
Qed.

(** *** The other coroutines *)

(** None of them writes the node record or the initialState flag. *)
Ltac frame_both := split; frame.

Lemma resume_uptodate_check_frame pc r :
  preserves initialState (resume_uptodate_check pc r)
  /\ preserves nodeSeries (resume_uptodate_check pc r).
Proof.
  unfold resume_uptodate_check, uptodate_check_start, uptodate_check_poll,
    set_result.
  frame_both.
Qed.

Lemma resume_update_LEDs_frame pc :
  preserves initialState (resume_update_LEDs pc)
  /\ preserves nodeSeries (resume_update_LEDs pc).
Proof.
  unfold resume_update_LEDs, update_LEDs_start, update_LEDs_cycle.
  frame_both.
Qed.

Lemma run_LEDs_cycle_frame :
  preserves initialState run_LEDs_cycle /\ preserves nodeSeries run_LEDs_cycle.
Proof. unfold run_LEDs_cycle. frame_both. Qed.

Lemma resume_update_state_frame_frame w answer :
  preserves initialState (resume_update_state_frame w answer)
  /\ preserves nodeSeries (resume_update_state_frame w answer).
Proof.
  unfold resume_update_state_frame, resume_synchronizer,
    update_state_frame_attempt.
  frame_both.
Qed.

Lemma resume_update_attributes_frame w answer :
  preserves initialState (resume_update_attributes w answer)
  /\ preserves nodeSeries (resume_update_attributes w answer).
Proof.
  unfold resume_update_attributes, resume_synchronizer,
    update_attributes_attempt.
  frame_both.
Qed.

Lemma update_display_cycle_frame first :
  preserves initialState (update_display_cycle first)
  /\ preserves nodeSeries (update_display_cycle first).
Proof. unfold update_display_cycle. frame_both. Qed.

Lemma resume_get_cue_series_frame pc answer :
  preserves initialState (resume_get_cue_series pc answer)
  /\ preserves nodeSeries (resume_get_cue_series pc answer).
Proof.
  unfold resume_get_cue_series, get_cue_series_start, get_cue_series_loop,
    get_cue_series_cycle.
  frame_both.
Qed.

Lemma resume_get_button_input_frame pc :
  preserves initialState (resume_get_button_input pc)
  /\ preserves nodeSeries (resume_get_button_input pc).
Proof.
  unfold resume_get_button_input, get_button_input_loop, get_button_input_poll,
    get_button_input_release.
  frame_both.
Qed.

Lemma resume_run_tasks_frame trace s :
  initialState (node (resume_run_tasks trace s)) = initialState (node s)
  /\ nodeSeries (node (resume_run_tasks trace s)) = nodeSeries (node s).
Proof.
  unfold resume_run_tasks.
  assert (H1 : preserves initialState
                 (modify (fun n => set_errorStorage
                            (ErrorStorage.update trace (errorStorage n)) n);;
                  call_LCD (LCD.display_text error_text 2))) by frame.
  assert (H2 : preserves nodeSeries
                 (modify (fun n => set_errorStorage
                            (ErrorStorage.update trace (errorStorage n)) n);;
                  call_LCD (LCD.display_text error_text 2))) by frame.
  assert (H3 : preserves initialState cleanup) by (unfold cleanup; frame).
  assert (H4 : preserves nodeSeries cleanup) by (unfold cleanup; frame).
  destruct (run_tasks_pc s); try (split; reflexivity).
  - specialize (H1 (node s)). specialize (H2 (node s)).
    destruct ((modify (fun n => set_errorStorage
                         (ErrorStorage.update trace (errorStorage n)) n);;
               call_LCD (LCD.display_text error_text 2)) (node s))
      as [[[]|e] n']; cbn in *; auto.
  - cbn. split; [apply H3|apply H4].
Qed.

(** *** Resuming a coroutine *)

Lemma resume_cases {A} (t : task) (c : M A) (s : System) :
  resume t c s = (None, s)
  \/ (exists a n', c (node s) = (Ok a, n')
                   /\ resume t c s = (Some a, with_node n' s))
  \/ (exists e n' s', c (node s) = (Raise e, n')
                      /\ resume t c s = (None, s') /\ node s' = n').
Proof.
  unfold resume. destruct (decide (t ∈ crashed s)); [left; reflexivity|].
  destruct (c (node s)) as [[a|e] n'].
  - destruct (run_tasks_pc s);
      [right; left; exists a, n'; split; reflexivity ..|left; reflexivity].
  - destruct (run_tasks_pc s);
      [right; right; eexists e, n', _; repeat split; reflexivity ..
      |left; reflexivity].
Qed.

Lemma resume_frame {T A} (f : Node -> T) (t : task) (c : M A) (s : System) :
  preserves f c -> f (node (snd (resume t c s))) = f (node s).
Proof.
  intros Hc. specialize (Hc (node s)).
  destruct (resume_cases t c s) as [E|[(a & n' & Ec & E)|(e & n' & s' & Ec & E & Hn)]];
    rewrite E; cbn; [reflexivity| |rewrite Hn]; rewrite Ec in Hc; exact Hc.
Qed.

Lemma stored_frame {T A} (f : Node -> T) (g : A -> System -> System)
    (r : option A * System) :
  (forall a s, node (g a s) = node s) ->
  f (node (stored g r)) = f (node (snd r)).
Proof. intros Hg. destruct r as [[a|] s]; cbn; [rewrite Hg|]; reflexivity. Qed.

(** Every event other than a turn of the node state machine reports no
    branch and leaves the node record and the initialState flag alone. *)
Lemma step_other e s :
  e <> ev_update_node_series ->
  fst (step e s) = None
  /\ initialState (node (snd (step e s))) = initialState (node s)
  /\ nodeSeries (node (snd (step e s))) = nodeSeries (node s).
Proof.
  intros He. destruct e; try contradiction; cbn [step fst snd];
    try (split; [reflexivity|]).
  - destruct (resume_uptodate_check_frame (uptodate_check_pc s) r) as [H1 H2].
    rewrite !stored_frame by reflexivity. rewrite !resume_frame by assumption. auto.
  - destruct (resume_update_LEDs_frame (update_LEDs_pc s)) as [H1 H2].
    rewrite !stored_frame by reflexivity. rewrite !resume_frame by assumption. auto.
  - destruct run_LEDs_cycle_frame as [H1 H2].
    rewrite !resume_frame by assumption. auto.
  - destruct (resume_update_state_frame_frame (update_state_frame_pc s) answer)
      as [H1 H2].
    rewrite !stored_frame by reflexivity. rewrite !resume_frame by assumption. auto.
  - destruct (resume_update_attributes_frame (update_attributes_pc s) answer)
      as [H1 H2].
    rewrite !stored_frame by reflexivity. rewrite !resume_frame by assumption. auto.
  - destruct (update_display_cycle_frame (update_display_first s)) as [H1 H2].
    rewrite !stored_frame by reflexivity. rewrite !resume_frame by assumption. auto.
  - destruct (resume_get_cue_series_frame (get_cue_series_pc s) answer) as [H1 H2].
    rewrite !stored_frame by reflexivity. rewrite !resume_frame by assumption. auto.
  - destruct (resume_get_button_input_frame (get_button_input_pc s)) as [H1 H2].
    rewrite !stored_frame by reflexivity. rewrite !resume_frame by assumption. auto.
  - destruct (run_tasks_pc s); repeat split.
  - apply resume_run_tasks_frame.
Qed.

(** *** A turn of the node state machine *)

(** When a turn reports a branch, the cycle ran on the node as the turn
    found it, up to the reset of the node record that precedes the loop. *)
Lemma update_node_series_loop_cases w n :
  match update_node_series_loop w n with
  | (Ok (_, Some b), n') => update_node_series_decide n = (Ok b, n')
  | (Ok (_, None), n') => n' = n
  | (Raise _, n') => initialState n' = initialState n
  end.
Proof.
  unfold update_node_series_loop. unfold bind at 1.
  pose proof (preserves_await_uptodate_future (fun n => n) w n) as Hp.
  destruct (await_uptodate_future w n) as [[[f|]|e] n1]; cbn [snd] in Hp;
    subst n1; try reflexivity.
  unfold bind, ret.
  pose proof (update_node_series_decide_cases n) as H.
  destruct (update_node_series_decide n) as [[b|e] n']; [reflexivity|exact H].
Qed.

Lemma resume_update_node_series_cases pc n :
  match resume_update_node_series pc n with
  | (Ok (_, Some b), n') =>
      exists m, update_node_series_decide m = (Ok b, n')
                /\ initialState m = initialState n
                /\ changeState m = changeState n
  | (_, n') => initialState n' = initialState n
  end.
Proof.
  destruct pc as [|w|]; cbn [resume_update_node_series].
  - unfold bind at 1.
    pose proof (preserves_await_setup_tasks (fun n => n) n) as Hp.
    destruct (await_setup_tasks n) as [[ready_|e] n1]; cbn [snd] in Hp;
      subst n1; [|reflexivity].
    destruct ready_; [|reflexivity].
    unfold bind, update_node_series_start, modify.
    pose proof (update_node_series_loop_cases None (set_nodeSeries ∅ n)) as H.
    destruct (update_node_series_loop None (set_nodeSeries ∅ n))
      as [[[pc' [b|]]|e] n'].
    + exists (set_nodeSeries ∅ n). auto.
    + subst n'. reflexivity.
    + exact H.
  - pose proof (update_node_series_loop_cases w n) as H.
    destruct (update_node_series_loop w n) as [[[pc' [b|]]|e] n'].
    + exists n. auto.
    + subst n'. reflexivity.
    + exact H.
  - assert (Hp : preserves initialState update_node_series_publish)
      by (unfold update_node_series_publish, set_node_series_value; frame).
    unfold bind, ret. specialize (Hp n).
    destruct (update_node_series_publish n) as [[[]|e] n']; exact Hp.
Qed.

(** What a turn of the node state machine does to initialState, by the
    branch it reports. *)
Lemma step_node s :
  match step ev_update_node_series s with
  | (Some FinalPhase, s') =>
      initialState (node s) = true /\ changeState (node s) = true
      /\ initialState (node s') = false
  | (Some NewCue, s') => initialState (node s') = true
  | (_, s') => initialState (node s') = initialState (node s)
  end.
Proof.
  cbn [step].
  pose proof (resume_update_node_series_cases (update_node_series_pc s) (node s))
    as H.
  destruct (resume_cases update_node_series_task
              (resume_update_node_series (update_node_series_pc s)) s)
    as [E|[(a & n' & Ec & E)|(e & n' & s' & Ec & E & Hn)]]; rewrite E.
  - reflexivity.
  - rewrite Ec in H. destruct a as [pc' [b|]]; [|exact H].
    destruct H as (m & Hm & Hi & Hc).
    pose proof (update_node_series_decide_cases m) as Hd. rewrite Hm in Hd.
    destruct b; cbn.
    + subst n'. exact Hi.
    + apply Hd.
    + destruct Hd as (Hc' & Hi' & frame & cueState & row & v & _ & _ & _ & _ & ->).
      split; [congruence|]. split; [congruence|]. reflexivity.
    + subst n'. exact Hi.
  - rewrite Ec in H. rewrite Hn. exact H.
Qed.

(** *** Runs *)

Lemma run_cons e es s :
  run (e :: es) s
  = (match fst (step e s) with
     | Some b => b :: fst (run es (snd (step e s)))
     | None => fst (run es (snd (step e s)))
     end,
     snd (run es (snd (step e s)))).
Proof.
  cbn [run]. destruct (step e s) as [b s']. cbn [fst snd].
  destruct (run es s') as [bs s'']. reflexivity.
Qed.

(** The branches of a run respect [once_per_cue], armed by the value of
    initialState at the start. *)
Lemma run_once_per_cue es : forall s,
  once_per_cue (initialState (node s)) (fst (run es s)) = true.
Proof.
  induction es as [|e es IH]; intros s; [reflexivity|].
  rewrite run_cons. cbn [fst].
  assert (e = ev_update_node_series \/ e <> ev_update_node_series) as [->|He]
    by (destruct e; (left; reflexivity) || (right; discriminate)).
  - pose proof (step_node s) as H. specialize (IH (snd (step ev_update_node_series s))).
    destruct (step ev_update_node_series s) as [[b|] s']; cbn [fst snd] in *.
    + destruct b; cbn [once_per_cue].
      * rewrite <- H. exact IH.
      * rewrite H in IH. exact IH.
      * destruct H as (Hi & _ & Hi'). rewrite Hi. rewrite Hi' in IH. exact IH.
      * rewrite <- H. exact IH.
    + rewrite <- H. exact IH.
  - destruct (step_other e s He) as (Hn & Hi & _). rewrite Hn, <- Hi. apply IH.
Qed.

Lemma once_per_cue_suffix bs1 : forall armed bs2,
  once_per_cue armed (bs1 ++ bs2) = true ->
  exists armed', once_per_cue armed' bs2 = true.
Proof.
  induction bs1 as [|b bs1 IH]; intros armed bs2 H.
  - exists armed. exact H.
  - destruct b; cbn in H.
    + apply (IH _ _ H).
    + apply (IH _ _ H).
    + apply andb_true_iff in H as [_ H]. apply (IH _ _ H).
    + apply (IH _ _ H).
Qed.

Lemma once_per_cue_disarmed bs2 : forall bs3,
  once_per_cue false (bs2 ++ FinalPhase :: bs3) = true -> NewCue ∈ bs2.
Proof.
  induction bs2 as [|b bs2 IH]; intros bs3 H.
  - cbn in H. discriminate.
  - destruct b; cbn in H.
    + apply list_elem_of_further. apply (IH _ H).
    + apply list_elem_of_here.
    + discriminate.
    + apply list_elem_of_further. apply (IH _ H).
Qed.

(** C3. Final-phase rule.  A cycle takes the final-phase branch, which
    sets Node State to the table's Final Node State for the record's Cue
    State, only when changeState and initialState both hold, and that same
    cycle leaves initialState false.  The no-cue and no-update branches
    change nothing, and no event other than a turn of the node state
    machine reports a branch or writes the node record or initialState.
    Hence, in every run from every state, two final-phase cycles are
    separated by a new-cue cycle. *)
Theorem final_phase_rule :
  (forall n n',
     update_node_series_decide n = (Ok FinalPhase, n') ->
     changeState n = true /\ initialState n = true /\ initialState n' = false
     /\ exists frame cueState row v,
          stateFrame n = Some frame
          /\ nodeSeries n !! "Cue State" = Some cueState
          /\ frame !! cueState = Some row
          /\ row !! "Final Node State" = Some v
          /\ nodeSeries n' = <["Node State" := v]> (nodeSeries n))
  /\ (forall n b n',
        update_node_series_decide n = (Ok b, n') ->
        b = NoCue \/ b = NoUpdate -> n' = n)
  /\ (forall s b s',
        step ev_update_node_series s = (Some b, s') ->
        exists m,
          update_node_series_decide m = (Ok b, node s')
          /\ initialState m = initialState (node s)
          /\ changeState m = changeState (node s))
  /\ (forall e s,
        e <> ev_update_node_series ->
        fst (step e s) = None
        /\ initialState (node (snd (step e s))) = initialState (node s)
        /\ nodeSeries (node (snd (step e s))) = nodeSeries (node s))
  /\ (forall es s bs1 bs2 bs3,
        fst (run es s) = bs1 ++ FinalPhase :: bs2 ++ FinalPhase :: bs3 ->
        NewCue ∈ bs2).
Proof.
  split; [|split; [|split; [|split]]].
  - intros n n' E. pose proof (update_node_series_decide_cases n) as H.
    rewrite E in H.
    destruct H as (Hc & Hi & frame & cueState & row & v & Hf & Hs & Hr & Hv & ->).
    split; [exact Hc|]. split; [exact Hi|]. split; [reflexivity|].
    exists frame, cueState, row, v. auto.
  - intros n b n' E Hb. pose proof (update_node_series_decide_cases n) as H.
    rewrite E in H. destruct Hb as [->| ->]; exact H.
  - intros s b s' E. cbn [step] in E.
    pose proof (resume_update_node_series_cases (update_node_series_pc s) (node s))
      as H.
    destruct (resume_cases update_node_series_task
                (resume_update_node_series (update_node_series_pc s)) s)
      as [E1|[(a & n' & Ec & E1)|(e & n' & s1 & Ec & E1 & Hn)]];
      rewrite E1 in E; try discriminate.
    destruct a as [pc' ob]. injection E as -> <-.
    rewrite Ec in H. exact H.
  - apply step_other.
  - intros es s bs1 bs2 bs3 E.
    pose proof (run_once_per_cue es s) as H. rewrite E in H.
    apply once_per_cue_suffix in H as [armed H].
    cbn [once_per_cue] in H. apply andb_true_iff in H as [_ H].
    apply (once_per_cue_disarmed bs2 bs3 H).
Qed.

Lemma final_phase_rule_witness :
  fst (run example_two_cues (boot example_node))
  = [NewCue] ++ FinalPhase :: [NewCue] ++ FinalPhase :: [NoUpdate]
  /\ NewCue ∈ [NewCue].
Proof.
  assert (E : fst (run example_two_cues (boot example_node))
              = [NewCue] ++ FinalPhase :: [NewCue] ++ FinalPhase :: [NoUpdate])
    by (vm_compute; reflexivity).
  split; [exact E|].
  destruct final_phase_rule as (_ & _ & _ & _ & H).
  exact (H example_two_cues (boot example_node) [NewCue] [NewCue] [NoUpdate] E).
Defined.

(** ** The LED arbiter *)

Lemma py_eq_true a b : py_eq a b = true <-> a = b.
Proof. unfold py_eq. apply bool_decide_eq_true. Qed.

Lemma py_eq_ne a b : py_eq a b = negb (py_ne a b).
Proof.
  unfold py_eq, py_ne. destruct (decide (a = b)) as [E|E].
  - rewrite bool_decide_eq_true_2 by exact E.
    rewrite bool_decide_eq_false_2 by (intros H; contradiction). reflexivity.
  - rewrite bool_decide_eq_false_2 by exact E.
    rewrite bool_decide_eq_true_2 by exact E. reflexivity.
Qed.

(** One decision, step by step: the node after the cycle differs from the
    node before it only in its GPIO object. *)
Lemma update_LEDs_cycle_eval n f jp :
  uptodate_future n = Some f -> justPressed n = Some jp ->
  update_LEDs_cycle n
  = (Ok tt,
     let g := GPIO.connected (ready n) (GPIO n) in
     set_GPIO
       (if ready n then
          if py_ne (node_state n) (VStr "None") then
            GPIO.default_screen
              (GPIO.button_state (py_eq (cue_state n) (VStr "Go") && jp) g)
          else if py_eq (cue_state n) (VStr "Go") then
            GPIO.blink_button (GPIO.go g)
          else if py_eq (cue_state n) (VStr "Standby") then
            GPIO.standby (GPIO.button_state false g)
          else if py_eq (cue_state n) (VStr "Multiple Standbys") then
            GPIO.multiple_standbys (GPIO.button_state false g)
          else GPIO.button_state false g
        else g) n).
Proof.
  intros Hf Hj. unfold update_LEDs_cycle.
  rewrite (bind_ok _ _ n tt (set_GPIO (GPIO.connected (ready n) (GPIO n)) n))
    by (rewrite (bind_ok _ _ n _ n (uptodate_done_ready f n Hf)); reflexivity).
  set (n1 := set_GPIO (GPIO.connected (ready n) (GPIO n)) n).
  rewrite (bind_ok _ _ n1 _ n1 (uptodate_done_ready f n1 Hf)).
  change (ready n1) with (ready n).
  destruct (ready n); [|destruct n; reflexivity].
  rewrite (bind_ok _ _ n1 _ n1 (get_node_series_value_total "Cue State" n1)).
  rewrite (bind_ok _ _ n1 _ n1 (get_node_series_value_total "Node State" n1)).
  change (default (VStr "None") (nodeSeries n1 !! "Cue State")) with (cue_state n).
  change (default (VStr "None") (nodeSeries n1 !! "Node State")) with (node_state n).
  destruct (py_ne (node_state n) (VStr "None")).
  - destruct (py_eq (cue_state n) (VStr "Go")).
    + unfold bind, getattr. change (justPressed n1) with (justPressed n).
      rewrite Hj. destruct jp; reflexivity.
    + reflexivity.
  - destruct (py_eq (cue_state n) (VStr "Go")); [reflexivity|].
    destruct (py_eq (cue_state n) (VStr "Standby")); [reflexivity|].
    destruct (py_eq (cue_state n) (VStr "Multiple Standbys")); reflexivity.
Qed.

(** Conformance to the table, row by row: the selection is the table's
    entry for the four inputs in the disconnected case and in the first five
    rows; in the last row the button light is Off and the indicator is the
    one that the screen task selected earlier still produces. *)
Lemma selection_rows n f jp :
  uptodate_future n = Some f -> justPressed n = Some jp ->
  selection n
  = if ready n && last_row (cue_state n) (node_state n) then
      (Off,
       indicator_of
         (GPIO.call_screen (GPIO.screenTask (GPIO n)) (GPIO.screenArg (GPIO n))))
    else
      (fst (decision_table (ready n) (cue_state n) (node_state n) jp),
       Some (snd (decision_table (ready n) (cue_state n) (node_state n) jp))).
Proof.
  intros Hf Hj. unfold selection.
  rewrite (update_LEDs_cycle_eval n f jp Hf Hj). cbn [snd].
  unfold decision_table, last_row. rewrite (py_eq_ne (node_state n)).
  destruct (ready n); [|reflexivity].
  destruct (py_ne (node_state n) (VStr "None")).
  - cbn. destruct (py_eq (cue_state n) (VStr "Go") && jp); reflexivity.
  - rewrite <- (negb_involutive (py_ne (cue_state n) (VStr "Go"))),
      <- (negb_involutive (py_ne (cue_state n) (VStr "Standby"))),
      <- (negb_involutive (py_ne (cue_state n) (VStr "Multiple Standbys"))),
      <- !py_eq_ne.
    destruct (py_eq (cue_state n) (VStr "Go")); [reflexivity|].
    destruct (py_eq (cue_state n) (VStr "Standby")); [reflexivity|].
    destruct (py_eq (cue_state n) (VStr "Multiple Standbys")); reflexivity.
Qed.

(** C4, at the input where the code leaves the table.  On the example
    node, connected, with cue state "Hold", node state "None" and the button
    not just pressed, the table asks for button light Off and indicator
    Default.  The decision gives that when cue 13 is the first cue, but when
    the LED loop saw a standby cue before, the same four inputs give the
    Standby indicator: the last row turns the button light off and leaves
    the screen task as it was. *)
Theorem led_last_row_keeps_previous_indicator :
  (ready (node example_hold_after_standby),
   cue_state (node example_hold_after_standby),
   node_state (node example_hold_after_standby),
   justPressed (node example_hold_after_standby))
  = (true, VStr "Hold", VStr "None", Some false)
  /\ (ready (node example_hold_first),
      cue_state (node example_hold_first),
      node_state (node example_hold_first),
      justPressed (node example_hold_first))
     = (true, VStr "Hold", VStr "None", Some false)
  /\ decision_table true (VStr "Hold") (VStr "None") false = (Off, Default)
  /\ selection (node example_hold_first) = (Off, Some Default)
  /\ selection (node example_hold_after_standby) = (Off, Some Standby)
  /\ GPIO.run_LED_tasks
       (GPIO (snd (update_LEDs_cycle (node example_hold_after_standby))))
     = (GPIO.button_state_job false, GPIO.solid_screen_job "FFFF00").
Proof.
  repeat split; vm_compute; reflexivity.
Qed.

(** * Further properties of the code *)

(** ** Strings *)

Lemma substring_length_le s : forall n m,
  (String.length (substring n m s) <= m)%nat.
Proof.
  induction s as [|c s IH]; intros n m.
  - destruct n, m; cbn; lia.
  - destruct n as [|n].
    + destruct m as [|m]; cbn; [lia|]. specialize (IH 0%nat m). lia.
    + cbn. apply IH.
Qed.

Lemma substring_prefix_all s : forall m,
  (String.length s <= m)%nat -> substring 0 m s = s.
Proof.
  induction s as [|c s IH]; intros m Hm.
  - destruct m; reflexivity.
  - destruct m as [|m]; cbn in *; [lia|]. rewrite IH by lia. reflexivity.
Qed.

Lemma substring_split s : forall k m,
  substring 0 k s +:+ substring k m s = substring 0 (k + m) s.
Proof.
  induction s as [|c s IH]; intros k m.
  - destruct k, m; reflexivity.
  - destruct k as [|k].
    + cbn. destruct m; reflexivity.
    + change (String c (substring 0 k s +:+ substring k m s)
              = String c (substring 0 (k + m) s)).
      rewrite IH. reflexivity.
Qed.

(** ** The display, further *)

Lemma init_outcome (ADDRESSES : list Z) (responds : Z -> bool) :
  LCD.init ADDRESSES responds
  = LCD.mk "" 0 (existsb responds ADDRESSES)
      (if existsb responds ADDRESSES then Some [LCD.begin_ 16 2] else None).
Proof.
  unfold LCD.init, LCD.display_setup.
  assert (H : LCD.find_adapter responds ADDRESSES = None
              <-> existsb responds ADDRESSES = false).
  { induction ADDRESSES as [|a rest IH]; cbn; [tauto|].
    destruct (responds a); cbn; [split; discriminate|exact IH]. }
  destruct (LCD.find_adapter responds ADDRESSES) as [a|] eqn:E.
  - destruct (existsb responds ADDRESSES) eqn:Eb; [reflexivity|].
    discriminate (proj2 H eq_refl).
  - rewrite (proj1 H eq_refl). reflexivity.
Qed.

(** X1.  [LCDDisplay()] ends up set up exactly when some address of
    ADDRESSES answers; the driver is then created and told the display is 16
    by 2, otherwise no driver exists.  In both cases the message is empty
    and the latch is 0. *)
Theorem display_setup_outcome (ADDRESSES : list Z) (responds : Z -> bool) :
  LCD.init ADDRESSES responds
  = LCD.mk "" 0 (existsb responds ADDRESSES)
      (if existsb responds ADDRESSES then Some [LCD.begin_ 16 2] else None).
Proof. apply init_outcome. Qed.

(** X2.  A call of [display_text] that returns either changes nothing or
    stores the first 32 characters of the text, latches the priority, and
    sends the driver a cursor reset and two rows of at most 16 characters
    (the first followed by a newline) that together are the stored
    message; a text of at most 32 characters is stored whole. *)
Theorem display_text_rows (text : string) (priority : Z) (l l' : LCD.t) :
  LCD.display_text text priority l = Ok l' ->
  l' = l
  \/ exists d row1 row2,
       LCD.display l = Some d
       /\ LCD.display l'
          = Some (d ++ [LCD.home;
                        LCD.message_ (row1 +:+ String "010"%char "");
                        LCD.message_ row2])
       /\ (String.length row1 <= 16)%nat /\ (String.length row2 <= 16)%nat
       /\ row1 +:+ row2 = LCD.message l'
       /\ LCD.message l' = slice 0 32 text
       /\ (String.length (LCD.message l') <= 32)%nat
       /\ ((String.length text <= 32)%nat -> LCD.message l' = text)
       /\ LCD.currentPriority l' = priority
       /\ LCD.isSetup l' = LCD.isSetup l.
Proof.
  unfold LCD.display_text.
  destruct (LCD.isSetup l && (priority >=? LCD.currentPriority l)) eqn:E.
  - destruct (LCD.display l) as [d|] eqn:Hd; [|discriminate].
    intros [= <-]. right.
    exists d, (slice 0 16 (slice 0 32 text)), (slice 16 32 (slice 0 32 text)).
    cbn. split; [reflexivity|]. split; [rewrite <- !app_assoc; reflexivity|].
    split; [apply substring_length_le|]. split; [apply substring_length_le|].
    split.
    { unfold slice. cbn [Nat.sub]. rewrite substring_split.
      apply substring_prefix_all. apply substring_length_le. }
    split; [reflexivity|]. split; [apply substring_length_le|].
    split; [intros H; apply substring_prefix_all; exact H|].
    split; [reflexivity|].
    apply andb_true_iff in E as [E _]. rewrite E. reflexivity.
  - intros [= <-]. left. reflexivity.
Qed.

Lemma display_text_rows_witness :
  LCD.display_text ("Cue 12: Open the curtain" +:+ spaces 32) 1
    (LCD.init [39; 63] (Z.eqb 63))
  = Ok (LCDCalls.shown ("Cue 12: Open the curtain" +:+ spaces 32) 1
          [LCD.begin_ 16 2])
  /\ (String.length
        (LCD.message
           (LCDCalls.shown ("Cue 12: Open the curtain" +:+ spaces 32) 1
              [LCD.begin_ 16 2])) <= 32)%nat.
Proof.
  split; [reflexivity|].
  destruct (display_text_rows ("Cue 12: Open the curtain" +:+ spaces 32) 1
              (LCD.init [39; 63] (Z.eqb 63))
              (LCDCalls.shown ("Cue 12: Open the curtain" +:+ spaces 32) 1
                 [LCD.begin_ 16 2]) eq_refl)
    as [H|(d & row1 & row2 & _ & _ & _ & _ & _ & _ & H & _)].
  - apply (f_equal LCD.currentPriority) in H. vm_compute in H. discriminate.
  - exact H.
Defined.

Lemma do_call_invariants c l l' :
  LCDCalls.do_call c l = Ok l' ->
  LCD.isSetup l' = LCD.isSetup l
  /\ ((String.length (LCD.message l) <= 32)%nat ->
      (String.length (LCD.message l') <= 32)%nat)
  /\ (not_change_priority c -> LCD.currentPriority l <= LCD.currentPriority l').
Proof.
  destruct c as [text priority|priority| |]; cbn.
  - unfold LCD.display_text.
    destruct (LCD.isSetup l && (priority >=? LCD.currentPriority l)) eqn:Eb.
    + destruct (LCD.display l); [|discriminate]. intros [= <-]. cbn.
      split; [reflexivity|]. split; [intros _; apply substring_length_le|].
      intros _. apply andb_true_iff in Eb as [_ Eb]. rewrite Z.geb_leb in Eb.
      apply Z.leb_le in Eb. exact Eb.
    + intros [= <-]. repeat split; auto; lia.
  - intros [= <-]. cbn. repeat split; auto. intros [].
  - intros [= <-]. repeat split; auto; lia.
  - unfold LCD.clear. destruct (LCD.display l); [|discriminate].
    intros [= <-]. cbn. repeat split; auto; lia.
Qed.

(** X3.  Whatever public methods are called on a display after its
    construction, as long as they return: the set-up status stays what the
    constructor found, the stored message never exceeds 32 characters and
    the driver exists whenever the display counts as set up; and over calls
    other than [change_priority] the latch never goes down. *)
Theorem display_call_sequences
    (ADDRESSES : list Z) (responds : Z -> bool) (cs : list LCDCalls.call)
    (l : LCD.t) :
  LCDCalls.do_calls cs (LCD.init ADDRESSES responds) = Ok l ->
  LCD.isSetup l = existsb responds ADDRESSES
  /\ (String.length (LCD.message l) <= 32)%nat
  /\ LCDCalls.wf l
  /\ (Forall not_change_priority cs -> 0 <= LCD.currentPriority l).
Proof.
  rewrite init_outcome.
  assert (H0 : LCDCalls.wf
                 (LCD.mk "" 0 (existsb responds ADDRESSES)
                    (if existsb responds ADDRESSES
                     then Some [LCD.begin_ 16 2] else None))).
  { intros Hs. cbn in Hs. rewrite Hs. eexists. reflexivity. }
  assert (G : forall cs l0 l,
             LCDCalls.do_calls cs l0 = Ok l ->
             LCD.isSetup l = LCD.isSetup l0
             /\ ((String.length (LCD.message l0) <= 32)%nat ->
                 (String.length (LCD.message l) <= 32)%nat)
             /\ (LCDCalls.wf l0 -> LCDCalls.wf l)
             /\ (Forall not_change_priority cs ->
                 LCD.currentPriority l0 <= LCD.currentPriority l)).
  { clear. induction cs as [|c cs IH]; intros l0 l E; cbn in E.
    - injection E as <-. repeat split; auto; lia.
    - destruct (LCDCalls.do_call c l0) as [l1|] eqn:E1; [|discriminate].
      destruct (do_call_invariants c l0 l1 E1) as (Hs1 & Hm1 & Hp1).
      destruct (IH l1 l E) as (Hs & Hm & Hw & Hp).
      split; [congruence|]. split; [auto|].
      split; [intros Hwf; apply Hw; eapply wf_do_call; eassumption|].
      intros Hall. inversion Hall; subst.
      specialize (Hp1 ltac:(assumption)). specialize (Hp ltac:(assumption)). lia. }
  intros E. destruct (G cs _ l E) as (Hs & Hm & Hw & Hp).
  split; [exact Hs|]. split; [apply Hm; cbn; lia|]. split; [apply Hw, H0|].
  exact Hp.
Qed.

Lemma display_call_sequences_witness :
  LCDCalls.do_calls
    [LCDCalls.display_text_call "MAC Addr: b8:27:eb:00:00:01" 1;
     LCDCalls.display_text_call error_text 2; LCDCalls.clear_call]
    (LCD.init [39; 63] (Z.eqb 63))
  = Ok (LCD.mk error_text 2 true
          (Some [LCD.begin_ 16 2; LCD.home;
                 LCD.message_ ("MAC Addr: b8:27:" +:+ String "010"%char "");
                 LCD.message_ "eb:00:00:01"; LCD.home;
                 LCD.message_ ("An error has occ" +:+ String "010"%char "");
                 LCD.message_ "urred: check log"; LCD.clear_]))
  /\ (String.length error_text <= 32)%nat.
Proof.
  split; [reflexivity|].
  destruct (display_call_sequences [39; 63] (Z.eqb 63)
              [LCDCalls.display_text_call "MAC Addr: b8:27:eb:00:00:01" 1;
               LCDCalls.display_text_call error_text 2; LCDCalls.clear_call]
              (LCD.mk error_text 2 true
                 (Some [LCD.begin_ 16 2; LCD.home;
                        LCD.message_ ("MAC Addr: b8:27:" +:+ String "010"%char "");
                        LCD.message_ "eb:00:00:01"; LCD.home;
                        LCD.message_ ("An error has occ" +:+ String "010"%char "");
                        LCD.message_ "urred: check log"; LCD.clear_]))
              eq_refl) as (_ & H & _).
  exact H.
Defined.

(** X4.  When no adapter address answered, the exception handler of
    [run_tasks] logs the traceback, its message is dropped, and its cleanup
    then raises AttributeError, because [clear] reaches for a driver that
    was never created; the display state is untouched. *)
Theorem handler_cleanup_raises_after_failed_setup
    (ADDRESSES : list Z) (responds : Z -> bool) (trace : string) (n : Node) :
  existsb responds ADDRESSES = false ->
  LCD n = LCD.init ADDRESSES responds ->
  LCD.clear (LCD n) = Raise AttributeError
  /\ run_tasks_except trace n
     = (Raise AttributeError,
        set_errorStorage (ErrorStorage.update trace (errorStorage n)) n).
Proof.
  intros Hex Hn. rewrite init_outcome, Hex in Hn.
  destruct n. cbn in Hn. subst. split; reflexivity.
Qed.

Lemma handler_cleanup_raises_after_failed_setup_witness :
  fst (run_tasks_except "OSError"
         (Node_init "errors.json" None "b8:27:eb:00:00:01" [39; 63]
            (fun _ => false)))
  = Raise AttributeError.
Proof.
  destruct (handler_cleanup_raises_after_failed_setup [39; 63] (fun _ => false)
              "OSError"
              (Node_init "errors.json" None "b8:27:eb:00:00:01" [39; 63]
                 (fun _ => false)) eq_refl eq_refl) as [_ H].
  rewrite H. reflexivity.
Defined.

(** ** The error log, further *)

Lemma update_NoDup trace e :
  NoDup (ErrorStorage.errors e) ->
  NoDup (ErrorStorage.errors (ErrorStorage.update trace e)).
Proof.
  intros H. unfold ErrorStorage.update, ErrorStorage.error_dump.
  destruct (decide (trace ∈ ErrorStorage.errors e)) as [Hin|Hout]; cbn.
  - exact H.
  - apply NoDup_app. split; [exact H|]. split.
    + intros x Hx Hx'. apply list_elem_of_singleton in Hx'. subst. contradiction.
    + apply NoDup_singleton.
Qed.

Lemma update_errors_cases trace e :
  (trace ∈ ErrorStorage.errors e ->
   ErrorStorage.errors (ErrorStorage.update trace e) = ErrorStorage.errors e)
  /\ (trace ∉ ErrorStorage.errors e ->
      ErrorStorage.errors (ErrorStorage.update trace e)
      = ErrorStorage.errors e ++ [trace]).
Proof.
  unfold ErrorStorage.update, ErrorStorage.error_dump.
  destruct (decide (trace ∈ ErrorStorage.errors e)); cbn; split; intros H;
    try reflexivity; contradiction.
Qed.

Lemma updates_snoc traces trace e :
  updates (traces ++ [trace]) e = ErrorStorage.update trace (updates traces e).
Proof. unfold updates. rewrite fold_left_app. reflexivity. Qed.

(** X5.  Start from an error file without duplicates (or from no readable
    file) and report any tracebacks: the log never holds a traceback twice,
    it holds exactly the old entries and the reported ones, the old entries
    stay at the front in their order, and after at least one report the
    file holds the log. *)
Theorem error_log_without_duplicates
    (filename : string) (disk : option (list string)) (traces : list string) :
  NoDup (default [] disk) ->
  NoDup (ErrorStorage.errors (updates traces (ErrorStorage.init filename disk)))
  /\ (forall t,
        t ∈ ErrorStorage.errors (updates traces (ErrorStorage.init filename disk))
        <-> t ∈ default [] disk \/ t ∈ traces)
  /\ (exists added,
        ErrorStorage.errors (updates traces (ErrorStorage.init filename disk))
        = default [] disk ++ added)
  /\ (traces <> [] ->
        ErrorStorage.file (updates traces (ErrorStorage.init filename disk))
        = Some (ErrorStorage.errors
                  (updates traces (ErrorStorage.init filename disk)))).
Proof.
  intros Hnd.
  assert (H0 : ErrorStorage.errors (ErrorStorage.init filename disk)
               = default [] disk) by (destruct disk; reflexivity).
  induction traces as [|trace traces IH] using rev_ind.
  - cbn [updates fold_left]. rewrite H0. split; [exact Hnd|].
    split; [intros t; split; [auto|intros [H|H]; [exact H|inversion H]]|].
    split; [exists []; rewrite app_nil_r; reflexivity|].
    intros H. contradiction.
  - rewrite updates_snoc. destruct IH as (Hn & Hin & (added & Hadd) & _).
    set (e := updates traces (ErrorStorage.init filename disk)) in *.
    split; [apply update_NoDup; exact Hn|].
    destruct (update_errors_cases trace e) as (Hpresent & Habsent).
    split; [|split].
    + intros t. destruct (decide (trace ∈ ErrorStorage.errors e)) as [Hp|Ha].
      * rewrite Hpresent by exact Hp. rewrite Hin, elem_of_app.
        rewrite list_elem_of_singleton. split; [tauto|].
        intros [H|[H| ->]]; [tauto|tauto|]. apply Hin. exact Hp.
      * rewrite Habsent by exact Ha. rewrite !elem_of_app, Hin.
        rewrite list_elem_of_singleton. tauto.
    + destruct (decide (trace ∈ ErrorStorage.errors e)) as [Hp|Ha].
      * rewrite Hpresent by exact Hp. exists added. exact Hadd.
      * rewrite Habsent by exact Ha. exists (added ++ [trace]).
        rewrite Hadd, app_assoc. reflexivity.
    + intros _. unfold ErrorStorage.update, ErrorStorage.error_dump.
      reflexivity.
Qed.

Lemma error_log_without_duplicates_witness :
  NoDup (default [] (Some ["OSError"]))
  /\ ErrorStorage.errors
       (updates ["KeyError"; "OSError"; "KeyError"]
          (ErrorStorage.init "errors.json" (Some ["OSError"])))
     = ["OSError"; "KeyError"]
  /\ NoDup ["OSError"; "KeyError"].
Proof.
  assert (H : NoDup (default [] (Some ["OSError"]))) by apply NoDup_singleton.
  split; [exact H|]. split; [reflexivity|].
  apply (error_log_without_duplicates "errors.json" (Some ["OSError"])
           ["KeyError"; "OSError"; "KeyError"] H).
Defined.

(** X6.  Restart round trip: an ErrorStorage built on the file that
    [update] or [clear] has just written is the object that wrote it. *)
Theorem error_log_reload (trace : string) (e : ErrorStorage.t) :
  ErrorStorage.init (ErrorStorage.filename e)
    (ErrorStorage.file (ErrorStorage.update trace e))
  = ErrorStorage.update trace e
  /\ ErrorStorage.init (ErrorStorage.filename e)
       (ErrorStorage.file (ErrorStorage.clear e))
     = ErrorStorage.clear e
  /\ ErrorStorage.bool_ (ErrorStorage.update trace e) = true
  /\ ErrorStorage.bool_ (ErrorStorage.clear e) = false.
Proof.
  split.
  { unfold ErrorStorage.update.
    destruct (decide (trace ∈ ErrorStorage.errors e)); reflexivity. }
  split; [reflexivity|]. split; [|reflexivity].
  unfold ErrorStorage.bool_.
  destruct (decide (ErrorStorage.errors (ErrorStorage.update trace e) = []))
    as [E|E]; [|reflexivity].
  exfalso. unfold ErrorStorage.update in E.
  destruct (decide (trace ∈ ErrorStorage.errors e)) as [Hin|Hout]; cbn in E.
  - rewrite E in Hin. inversion Hin.
  - destruct (ErrorStorage.errors e); discriminate.
Qed.

(** ** The readiness gate, further *)

Lemma ready_true_iff n f :
  uptodate_future n = Some f -> (ready n = true <-> futures n !! f = Some true).
Proof. intros H. unfold ready. rewrite H. apply bool_decide_eq_true. Qed.

(** One pass of the loop on a started gate, by what it read. *)
Lemma uptodate_check_poll_cases r f old n :
  uptodate_future n = Some f -> (f < length (futures n))%nat ->
  oldServerTime n = Some old ->
  exists d n',
    uptodate_check_poll r n = (Ok d, n')
    /\ ((clock_changed r old /\ d = (5 # 1)%Q /\ ready n' = true
         /\ oldServerTime n' = Some r /\ uptodate_future n' = Some f
         /\ futures n' = <[f := true]> (futures n))
        \/ (~ clock_changed r old /\ d = (1 # 4)%Q /\ ready n' = false
            /\ oldServerTime n' = Some old
            /\ ((ready n = false /\ n' = n)
                \/ (ready n = true
                    /\ uptodate_future n' = Some (length (futures n))
                    /\ futures n' = futures n ++ [false])))).
Proof.
  intros Hf Hlt Hold.
  destruct (decide (clock_changed r old)) as [Hch|Hch].
  - rewrite (uptodate_check_poll_changed r f old) by assumption.
    do 2 eexists. split; [reflexivity|]. left. split; [exact Hch|].
    split; [reflexivity|].
    destruct (ready n) eqn:Hr.
    + split; [exact Hr|]. split; [reflexivity|]. split; [exact Hf|].
      cbn. symmetry. apply list_insert_id.
      apply (ready_true_iff n f Hf). exact Hr.
    + split.
      * apply (ready_true_iff _ f); [exact Hf|]. cbn.
        apply list_lookup_insert_eq. exact Hlt.
      * split; [reflexivity|]. split; [exact Hf|reflexivity].
  - rewrite (uptodate_check_poll_stale r f old) by assumption.
    do 2 eexists. split; [reflexivity|]. right. split; [exact Hch|].
    split; [reflexivity|].
    destruct (ready n) eqn:Hr.
    + split.
      * unfold ready. cbn. apply bool_decide_eq_false.
        rewrite lookup_app_r by lia. rewrite Nat.sub_diag. discriminate.
      * split; [exact Hold|]. right. auto.
    + split; [exact Hr|]. split; [exact Hold|]. left. auto.
Qed.

(** X7.  The readiness flag is a pulse with a matching cadence: on a
    started gate a pass sleeps 5 time-units exactly when it leaves the flag
    set and a quarter otherwise, and a second pass that reads the same value
    again always leaves the flag cleared and sleeps a quarter, the stored
    clock staying what the first pass left. *)
Theorem readiness_is_a_pulse (n : Node) (r : value) :
  gate_started n ->
  exists d1 n1 d2 n2,
    uptodate_check_poll r n = (Ok d1, n1)
    /\ uptodate_check_poll r n1 = (Ok d2, n2)
    /\ (ready n1 = true /\ d1 = (5 # 1)%Q \/ ready n1 = false /\ d1 = (1 # 4)%Q)
    /\ ready n2 = false /\ d2 = (1 # 4)%Q
    /\ oldServerTime n2 = oldServerTime n1.
Proof.
  intros (f & old & Hf & Hlt & Hold).
  destruct (uptodate_check_poll_cases r f old n Hf Hlt Hold)
    as (d1 & n1 & E1 & H1).
  assert (exists f1 old1,
            uptodate_future n1 = Some f1 /\ (f1 < length (futures n1))%nat
            /\ oldServerTime n1 = Some old1 /\ ~ clock_changed r old1)
    as (f1 & old1 & Hf1 & Hlt1 & Hold1 & Hn1).
  { destruct H1 as [(Hch & _ & _ & Ho & Hu & Hfs)|(Hch & _ & _ & Ho & [[_ ->]|(_ & Hu & Hfs)])].
    - exists f, r. rewrite Hfs, length_insert.
      repeat split; auto. intros [_ H]. congruence.
    - exists f, old. auto.
    - exists (length (futures n)), old. rewrite Hfs, length_app. cbn.
      repeat split; auto. lia. }
  destruct (uptodate_check_poll_cases r f1 old1 n1 Hf1 Hlt1 Hold1)
    as (d2 & n2 & E2 & H2).
  exists d1, n1, d2, n2. split; [exact E1|]. split; [exact E2|]. split.
  - destruct H1 as [(_ & Hd & Hr & _)|(_ & Hd & Hr & _)]; auto.
  - destruct H2 as [(Hch & _)|(_ & Hd & Hr & Ho & _)]; [contradiction|].
    split; [exact Hr|]. split; [exact Hd|]. congruence.
Qed.

Lemma readiness_is_a_pulse_witness :
  gate_started (node example_tracking)
  /\ exists n1 n2,
       uptodate_check_poll (VInt 2) (node example_tracking) = (Ok (5 # 1)%Q, n1)
       /\ uptodate_check_poll (VInt 2) n1 = (Ok (1 # 4)%Q, n2)
       /\ ready n2 = false.
Proof.
  assert (H : gate_started (node example_tracking)).
  { exists 0%nat, (VInt 1). split; [reflexivity|]. split; [|reflexivity].
    vm_compute. lia. }
  split; [exact H|].
  destruct (readiness_is_a_pulse (node example_tracking) (VInt 2) H)
    as (d1 & n1 & d2 & n2 & E1 & E2 & _ & Hr & Hd & _).
  exists n1, n2. subst d2.
  assert (d1 = (5 # 1)%Q) by (vm_compute in E1; congruence). subst d1.
  auto.
Defined.

Lemma one_pending_poll r n :
  one_pending n -> is_Some (oldServerTime n) ->
  exists d n', uptodate_check_poll r n = (Ok d, n')
               /\ one_pending n' /\ is_Some (oldServerTime n').
Proof.
  intros (f & Hf & Hlen & Hdone) [old Hold].
  destruct (uptodate_check_poll_cases r f old n Hf ltac:(lia) Hold)
    as (d & n' & E & H).
  exists d, n'. split; [exact E|].
  destruct H as [(_ & _ & _ & Ho & Hu & Hfs)|(_ & _ & _ & Ho & [[_ ->]|(Hr & Hu & Hfs)])].
  - split; [|eauto]. exists f. rewrite Hfs, length_insert.
    split; [exact Hu|]. split; [exact Hlen|].
    intros i Hi. rewrite list_lookup_insert_ne by lia. apply Hdone. exact Hi.
  - split; [exists f; auto|eauto].
  - split; [|eauto]. exists (length (futures n)). rewrite Hfs, length_app. cbn.
    split; [exact Hu|]. split; [lia|].
    intros i Hi. rewrite lookup_app_l by exact Hi.
    destruct (decide (i = f)) as [->|Hne].
    + apply (ready_true_iff n f Hf). exact Hr.
    + apply Hdone. lia.
Qed.

(** X8.  One generation pending at a time: start the readiness loop of a
    freshly constructed node on any reads; it does not raise, it sleeps once
    per read after the first, and in the store of futures only the current
    future, the last one created, can be not done. *)
Theorem one_generation_pending
    (errorStorageFile : string) (disk : option (list string)) (mac : string)
    (ADDRESSES : list Z) (responds : Z -> bool)
    (r0 : value) (reads : list value) :
  exists ds n,
    uptodate_check r0 reads
      (snd (run_tasks_start
              (Node_init errorStorageFile disk mac ADDRESSES responds)))
    = (Ok ds, n)
    /\ length ds = length reads
    /\ one_pending n.
Proof.
  unfold uptodate_check, bind at 1, uptodate_check_start, modify.
  match goal with
  | |- context [uptodate_check_loop reads ?m] =>
      assert (H0 : one_pending m /\ is_Some (oldServerTime m));
      [|generalize dependent m]
  end.
  { split; [|eexists; reflexivity]. exists 0%nat. cbn.
    split; [reflexivity|]. split; [reflexivity|]. intros i Hi. lia. }
  induction reads as [|r reads IH]; intros m [Hm Ho].
  - exists [], m. auto.
  - destruct (one_pending_poll r m Hm Ho) as (d & m1 & E1 & Hm1 & Ho1).
    destruct (IH m1 (conj Hm1 Ho1)) as (ds & m2 & E2 & Hlen & Hm2).
    exists (d :: ds), m2. split; [|split; [cbn; lia|exact Hm2]].
    cbn [uptodate_check_loop].
    rewrite (bind_ok _ _ _ _ _ E1), (bind_ok _ _ _ _ _ E2). reflexivity.
Qed.

(** ** The cue tracker *)

Lemma get_cue_series_cycle_cases
    (answer : option (gmap value (gmap string value))) (n : Node) :
  exists ds n',
    get_cue_series_cycle answer n = (Ok ds, n')
    /\ ((exists df attrs row,
           answer = Some df /\ attributes_dict n = Some attrs
           /\ df !! default (VStr "None") (attrs !! "Cue Prefix") = Some row
           /\ n' = set_cueSeries (Some row) n /\ ds = [(1 # 1)%Q])
        \/ (n' = n /\ ds = [(1 # 1)%Q; (1 # 1)%Q]
            /\ (answer = None \/ attributes_dict n = None
                \/ exists df attrs,
                     answer = Some df /\ attributes_dict n = Some attrs
                     /\ df !! default (VStr "None") (attrs !! "Cue Prefix")
                        = None))).
Proof.
  unfold get_cue_series_cycle.
  destruct answer as [df|].
  - destruct (attributes_dict n) as [attrs|] eqn:Ha.
    + destruct (df !! default (VStr "None") (attrs !! "Cue Prefix"))
        as [row|] eqn:Hr.
      * do 2 eexists. split.
        -- unfold bind at 1, try_except.
           rewrite (bind_ok _ _ n _ n (get_attribute_value_populated _ attrs n Ha)).
           unfold bind at 1, subscript. rewrite Hr. reflexivity.
        -- left. exists df, attrs, row. auto.
      * do 2 eexists. split.
        -- unfold bind at 1, try_except.
           rewrite (bind_ok _ _ n _ n (get_attribute_value_populated _ attrs n Ha)).
           unfold bind at 1, subscript. rewrite Hr. reflexivity.
        -- right. split; [reflexivity|]. split; [reflexivity|].
           right. right. exists df, attrs. auto.
    + do 2 eexists. split.
      * unfold bind at 1, try_except.
        rewrite (bind_raise _ _ n _ n (get_attribute_value_unpopulated _ n Ha)).
        reflexivity.
      * right. auto.
  - do 2 eexists. split; [reflexivity|]. right. auto.
Qed.

(** X9.  One pass of the cue tracker never raises.  It replaces the tracked
    cue record, and sleeps one second, exactly when the server answered,
    the attributes exist and the answer has a row for the cue prefix (the
    string "None" when the attributes carry no prefix); in every other case
    it keeps the record it had, whatever its age, and sleeps twice one
    second. *)
Theorem cue_tracker_cycle
    (answer : option (gmap value (gmap string value))) (n : Node) :
  exists ds n',
    get_cue_series_cycle answer n = (Ok ds, n')
    /\ ((exists df attrs row,
           answer = Some df /\ attributes_dict n = Some attrs
           /\ df !! default (VStr "None") (attrs !! "Cue Prefix") = Some row
           /\ n' = set_cueSeries (Some row) n /\ ds = [(1 # 1)%Q])
        \/ (n' = n /\ ds = [(1 # 1)%Q; (1 # 1)%Q]
            /\ (answer = None \/ attributes_dict n = None
                \/ exists df attrs,
                     answer = Some df /\ attributes_dict n = Some attrs
                     /\ df !! default (VStr "None") (attrs !! "Cue Prefix")
                        = None))).
Proof. apply get_cue_series_cycle_cases. Qed.

(** ** The display presenter, further *)

Lemma length_append s1 s2 :
  String.length (s1 +:+ s2) = (String.length s1 + String.length s2)%nat.
Proof.
  induction s1 as [|c s1 IH]; [reflexivity|].
  change (S (String.length (s1 +:+ s2))
          = S (String.length s1 + String.length s2)%nat).
  rewrite IH. reflexivity.
Qed.

Lemma append_assoc s1 s2 s3 : (s1 +:+ s2) +:+ s3 = s1 +:+ (s2 +:+ s3).
Proof.
  induction s1 as [|c s1 IH]; [reflexivity|].
  change (String c ((s1 +:+ s2) +:+ s3) = String c (s1 +:+ (s2 +:+ s3))).
  rewrite IH. reflexivity.
Qed.

Lemma length_spaces k : String.length (spaces k) = k.
Proof.
  induction k as [|k IH]; [reflexivity|].
  change (S (String.length (spaces k)) = S k). rewrite IH. reflexivity.
Qed.

Lemma substring_length_full s : forall m,
  (m <= String.length s)%nat -> String.length (substring 0 m s) = m.
Proof.
  induction s as [|c s IH]; intros m Hm.
  - destruct m; cbn in *; [reflexivity|lia].
  - destruct m as [|m]; cbn in *; [reflexivity|]. rewrite IH by lia. reflexivity.
Qed.

(** X10.  After the setup tasks have completed, on a display that is set
    up and whose latch is at most 1, a pass of the presenter shows the setup
    summary if it is the first such pass (and clears the flag) and the cue
    line otherwise, a missing attribute or field reading "None"; either way
    the stored message is exactly 32 characters long, so both rows of any
    earlier message are overwritten. *)
Theorem presenter_after_setup
    (first : bool) (n : Node) (g : gathering) (attrs : gmap string value)
    (d : list LCD.driver_call) :
  setup_tasks n = Some g -> gathering_done g = true ->
  attributes_dict n = Some attrs ->
  LCD.isSetup (LCD n) = true -> LCD.display (LCD n) = Some d ->
  LCD.currentPriority (LCD n) <= 1 ->
  exists text,
    text
    = (if first then
         "Setup: " +:+ py_str (default (VStr "None") (attrs !! "Node Number"))
           +:+ ", " +:+ py_str (default (VStr "None") (attrs !! "Node Name"))
           +:+ ", " +:+ py_str (default (VStr "None") (attrs !! "Cue Prefix"))
       else
         "Cue " +:+ py_str (default (VStr "None") (nodeSeries n !! "Cue Number"))
           +:+ ": " +:+ py_str (default (VStr "None") (nodeSeries n !! "Action")))
    /\ update_display_cycle first n
       = (Ok false, set_LCD (LCDCalls.shown (text +:+ spaces 32) 1 d) n)
    /\ String.length (LCD.message (LCDCalls.shown (text +:+ spaces 32) 1 d))
       = 32%nat.
Proof.
  intros Hg Hd Ha Hs Hdis Hp. eexists. split; [reflexivity|].
  split.
  - unfold update_display_cycle, bind, getattr, ret. rewrite Hg, Hd.
    destruct first.
    + rewrite !(get_attribute_value_populated _ attrs n Ha).
      cbv beta iota. cbn [fst snd].
      unfold call_LCD, LCD.default_priority.
      rewrite (display_text_shown _ _ _ d) by assumption.
      rewrite !append_assoc. reflexivity.
    + rewrite !get_node_series_value_total.
      cbv beta iota. cbn [fst snd].
      unfold call_LCD, LCD.default_priority.
      rewrite (display_text_shown _ _ _ d) by assumption.
      rewrite !append_assoc. reflexivity.
  - cbn [LCDCalls.shown LCD.message]. unfold slice.
    apply substring_length_full.
    match goal with
    | |- (_ <= String.length (?a +:+ ?b))%nat =>
        rewrite (length_append a b), length_spaces
    end.
    lia.
Qed.

Lemma presenter_after_setup_witness :
  update_display_cycle true (node example_tracking)
  = (Ok false,
     set_LCD (LCDCalls.shown ("Setup: 3, Left, L" +:+ spaces 32) 1 [LCD.begin_ 16 2])
       (node example_tracking)).
Proof.
  destruct (presenter_after_setup true (node example_tracking)
              (mkGathering (Some "State Dataframe Updated")
                 (Some "Attributes Updated"))
              {[ "Node Number" := VInt 3; "Node Name" := VStr "Left";
                 "Cue Prefix" := VStr "L" ]}
              [LCD.begin_ 16 2])
    as (text & Ht & E & _).
  - vm_compute. reflexivity.
  - reflexivity.
  - vm_compute. reflexivity.
  - reflexivity.
  - reflexivity.
  - vm_compute. discriminate.
  - rewrite E. subst text. vm_compute. reflexivity.
Defined.

(** ** Events and the attributes they leave alone *)

Lemma step_preserves {T} (f : Node -> T) e s :
  event_preserves f e s -> f (node (snd (step e s))) = f (node s).
Proof.
  destruct e; cbn [event_preserves step snd]; intros H.
  - rewrite stored_frame by reflexivity. apply resume_frame, H.
  - rewrite stored_frame by reflexivity. apply resume_frame, H.
  - apply resume_frame, H.
  - rewrite stored_frame by reflexivity. apply resume_frame, H.
  - rewrite stored_frame by reflexivity. apply resume_frame, H.
  - rewrite stored_frame by reflexivity. apply resume_frame, H.
  - rewrite stored_frame by reflexivity. apply resume_frame, H.
  - rewrite stored_frame by reflexivity. apply resume_frame, H.
  - pose proof (resume_frame f update_node_series_task _ s H) as Hr.
    destruct (resume update_node_series_task
                (resume_update_node_series (update_node_series_pc s)) s)
      as [[[pc b]|] s']; exact Hr.
  - destruct (run_tasks_pc s); cbn; auto.
  - destruct H as [H1 H2]. unfold resume_run_tasks.
    destruct (run_tasks_pc s); try reflexivity.
    + specialize (H1 (node s)).
      destruct ((modify (fun n => set_errorStorage
                           (ErrorStorage.update trace (errorStorage n)) n);;
                 call_LCD (LCD.display_text error_text 2)) (node s))
        as [[[]|e] n']; exact H1.
    + apply H2.
Qed.

(** Unfolds the coroutines down to the primitives that [frame] knows. *)
Ltac frame_event :=
  unfold resume_uptodate_check, uptodate_check_start, uptodate_check_poll,
    set_result, resume_update_LEDs, update_LEDs_start, update_LEDs_cycle,
    run_LEDs_cycle, resume_update_state_frame, resume_update_attributes,
    resume_synchronizer, update_state_frame_attempt, update_attributes_attempt,
    update_display_cycle, resume_get_cue_series, get_cue_series_start,
    get_cue_series_loop, get_cue_series_cycle, resume_get_button_input,
    get_button_input_loop, get_button_input_poll, get_button_input_release,
    resume_update_node_series, update_node_series_start,
    update_node_series_loop, update_node_series_publish,
    update_node_series_decide, is_new_cue, comprehension, cue_differs,
    new_cue_branch, final_phase_branch, set_node_state_from,
    set_node_series_value, cleanup;
  frame.

(** The attributes written by the synchronizers are written by nothing
    else, and the messages handed to [send_message] only grow in a turn of
    the node state machine. *)
Lemma step_keeps_attributes e s :
  (forall answer, e <> ev_update_attributes answer) ->
  attributes_dict (node (snd (step e s))) = attributes_dict (node s).
Proof.
  intros He. apply step_preserves.
  destruct e; try (exfalso; eapply He; reflexivity);
    cbn [event_preserves]; try (split; frame_event); frame_event.
Qed.

Lemma step_keeps_communication e s :
  e <> ev_update_node_series ->
  communication (node (snd (step e s))) = communication (node s).
Proof.
  intros He. apply step_preserves.
  destruct e; try contradiction;
    cbn [event_preserves]; try (split; frame_event); frame_event.
Qed.

(** ** Publication *)

Lemma decide_keeps_communication : preserves communication update_node_series_decide.
Proof. frame_event. Qed.

Lemma update_node_series_loop_accounting w n :
  match update_node_series_loop w n with
  | (Ok (pc', ob), n') =>
      communication n' = communication n
      /\ publish_pending pc'
         = match ob with
           | Some b => if updated b then 1%nat else 0%nat
           | None => 0%nat
           end
  | (Raise _, n') => communication n' = communication n
  end.
Proof.
  unfold update_node_series_loop. unfold bind at 1.
  pose proof (preserves_await_uptodate_future (fun n => n) w n) as Hp.
  destruct (await_uptodate_future w n) as [[[f|]|e] n1]; cbn [snd] in Hp;
    subst n1; try (split; reflexivity); try reflexivity.
  unfold bind, ret. pose proof (decide_keeps_communication n) as H.
  destruct (update_node_series_decide n) as [[b|e] n']; cbn [snd] in H;
    [|exact H].
  split; [exact H|]. destruct (updated b); reflexivity.
Qed.

Lemma resume_update_node_series_accounting pc n :
  match resume_update_node_series pc n with
  | (Ok (pc', ob), n') =>
      exists sent,
        communication n' = communication n ++ sent
        /\ Forall node_message sent
        /\ (length sent + publish_pending pc')%nat
           = (publish_pending pc
              + match ob with
                | Some b => if updated b then 1 else 0
                | None => 0
                end)%nat
  | (Raise _, n') => communication n' = communication n
  end.
Proof.
  destruct pc as [|w|]; cbn [resume_update_node_series].
  - unfold bind at 1.
    pose proof (preserves_await_setup_tasks (fun n => n) n) as Hp.
    destruct (await_setup_tasks n) as [[ready_|e] n1]; cbn [snd] in Hp;
      subst n1; [|reflexivity].
    destruct ready_.
    + unfold bind, update_node_series_start, modify.
      pose proof (update_node_series_loop_accounting None (set_nodeSeries ∅ n)) as H.
      destruct (update_node_series_loop None (set_nodeSeries ∅ n))
        as [[[pc' ob]|e] n']; [|exact H].
      destruct H as [Hc Hpc]. exists []. rewrite app_nil_r.
      split; [exact Hc|]. split; [constructor|]. cbn. lia.
    + exists []. rewrite app_nil_r. split; [reflexivity|].
      split; [constructor|reflexivity].
  - pose proof (update_node_series_loop_accounting w n) as H.
    destruct (update_node_series_loop w n) as [[[pc' ob]|e] n']; [|exact H].
    destruct H as [Hc Hpc]. exists []. rewrite app_nil_r.
    split; [exact Hc|]. split; [constructor|]. cbn. lia.
  - destruct (oldServerTime n) as [t|] eqn:Ht.
    + rewrite (bind_ok _ _ n tt _ (update_node_series_publish_eval n t Ht)).
      unfold ret. eexists. split; [reflexivity|]. split; [|reflexivity].
      constructor; [|constructor]. split; [|reflexivity].
      cbn. rewrite lookup_insert_eq. eexists. reflexivity.
    + unfold update_node_series_publish, bind, getattr. rewrite Ht. reflexivity.
Qed.

Lemma resume_keeps_node_pc {A} (t : task) (c : M A) (s : System) :
  update_node_series_pc (snd (resume t c s)) = update_node_series_pc s.
Proof.
  unfold resume. destruct (decide (t ∈ crashed s)); [reflexivity|].
  destruct (c (node s)) as [[a|e] n']; destruct (run_tasks_pc s); reflexivity.
Qed.

Lemma stored_keeps_node_pc {A} (g : A -> System -> System)
    (r : option A * System) :
  (forall a s, update_node_series_pc (g a s) = update_node_series_pc s) ->
  update_node_series_pc (stored g r) = update_node_series_pc (snd r).
Proof. intros Hg. destruct r as [[a|] s]; cbn; [rewrite Hg|]; reflexivity. Qed.

Lemma step_keeps_node_pc e s :
  e <> ev_update_node_series ->
  update_node_series_pc (snd (step e s)) = update_node_series_pc s.
Proof.
  intros He. destruct e; try contradiction; cbn [step snd];
    try (rewrite stored_keeps_node_pc by reflexivity);
    try apply resume_keeps_node_pc.
  - destruct (run_tasks_pc s); reflexivity.
  - unfold resume_run_tasks. destruct (run_tasks_pc s); try reflexivity.
    destruct ((modify (fun n => set_errorStorage
                         (ErrorStorage.update trace (errorStorage n)) n);;
               call_LCD (LCD.display_text error_text 2)) (node s))
      as [[[]|e] n']; reflexivity.
Qed.

Lemma step_accounting e s :
  exists sent,
    communication (node (snd (step e s))) = communication (node s) ++ sent
    /\ Forall node_message sent
    /\ (length sent + publish_pending (update_node_series_pc (snd (step e s))))%nat
       = (publish_pending (update_node_series_pc s)
          + count_updated (match fst (step e s) with
                           | Some b => [b]
                           | None => []
                           end))%nat.
Proof.
  assert (e = ev_update_node_series \/ e <> ev_update_node_series) as [->|He]
    by (destruct e; (left; reflexivity) || (right; discriminate)).
  - cbn [step].
    pose proof (resume_update_node_series_accounting (update_node_series_pc s)
                  (node s)) as H.
    destruct (resume_cases update_node_series_task
                (resume_update_node_series (update_node_series_pc s)) s)
      as [E|[(a & n' & Ec & E)|(e & n' & s' & Ec & E & Hn)]]; rewrite E.
    + exists []. rewrite app_nil_r. cbn. split; [reflexivity|].
      split; [constructor|lia].
    + rewrite Ec in H. destruct a as [pc' ob]. destruct H as (sent & Hc & Hm & Hl).
      exists sent. cbn [fst snd node with_update_node_series_pc with_node
                        update_node_series_pc].
      split; [exact Hc|]. split; [exact Hm|]. rewrite Hl.
      destruct ob as [b|]; [|reflexivity].
      unfold count_updated. cbn. destruct (updated b) eqn:Eb.
      * rewrite decide_True by reflexivity. reflexivity.
      * rewrite decide_False by discriminate. reflexivity.
    + rewrite Ec in H. exists []. rewrite app_nil_r. cbn [fst snd].
      rewrite Hn. split; [exact H|]. split; [constructor|].
      unfold resume in E.
      destruct (decide (update_node_series_task ∈ crashed s));
        [injection E as <-; cbn; lia|].
      rewrite Ec in E.
      destruct (run_tasks_pc s); injection E as <-; cbn; lia.
  - exists []. rewrite app_nil_r.
    split; [apply step_keeps_communication; exact He|].
    split; [constructor|].
    destruct (step_other e s He) as (Hb & _). rewrite Hb. cbn.
    rewrite (step_keeps_node_pc e s He). lia.
Qed.

Lemma count_updated_app bs1 bs2 :
  count_updated (bs1 ++ bs2) = (count_updated bs1 + count_updated bs2)%nat.
Proof.
  unfold count_updated. rewrite filter_app, length_app. reflexivity.
Qed.

(** A turn either leaves the log of [send_message] calls alone or is the
    publication: the node state machine resumes from the sleep that
    precedes it, writes the stored clock into the node record and hands
    the record, as it then is, to [send_message]. *)
Lemma step_sends e s :
  communication (node (snd (step e s))) = communication (node s)
  \/ (e = ev_update_node_series
      /\ update_node_series_pc s = NodeSleepBeforePublish
      /\ exists t,
           oldServerTime (node s) = Some t
           /\ nodeSeries (node (snd (step e s)))
              = <["Timestamp" := t]> (nodeSeries (node s))
           /\ communication (node (snd (step e s)))
              = communication (node s)
                  ++ [(nodeSeries (node (snd (step e s))), 71)]).
Proof.
  assert (e = ev_update_node_series \/ e <> ev_update_node_series) as [->|He]
    by (destruct e; (left; reflexivity) || (right; discriminate)).
  2:{ left. apply step_keeps_communication, He. }
  cbn [step].
  destruct (resume_cases update_node_series_task
              (resume_update_node_series (update_node_series_pc s)) s)
    as [E|[(a & n' & Ec & E)|(x & n' & s' & Ec & E & Hn)]]; rewrite E.
  - left. reflexivity.
  - destruct a as [pc' ob].
    cbn [snd node with_update_node_series_pc with_node].
    destruct (update_node_series_pc s) as [|w|] eqn:Hpc.
    + left.
      assert (H : preserves communication (resume_update_node_series NodeAwaitSetup))
        by frame_event.
      specialize (H (node s)). rewrite Ec in H. exact H.
    + left.
      assert (H : preserves communication (resume_update_node_series (NodeAwaitReady w)))
        by frame_event.
      specialize (H (node s)). rewrite Ec in H. exact H.
    + right. split; [reflexivity|]. split; [reflexivity|].
      cbn [resume_update_node_series] in Ec.
      destruct (oldServerTime (node s)) as [t|] eqn:Ht.
      * rewrite (bind_ok _ _ (node s) tt _
                   (update_node_series_publish_eval (node s) t Ht)) in Ec.
        unfold ret in Ec. injection Ec as _ _ <-.
        exists t. split; [reflexivity|]. split; reflexivity.
      * unfold update_node_series_publish, bind, getattr in Ec.
        rewrite Ht in Ec. discriminate.
  - left. cbn [snd]. rewrite Hn.
    destruct (update_node_series_pc s) as [|w|] eqn:Hpc.
    + assert (H : preserves communication (resume_update_node_series NodeAwaitSetup))
        by frame_event.
      specialize (H (node s)). rewrite Ec in H. exact H.
    + assert (H : preserves communication (resume_update_node_series (NodeAwaitReady w)))
        by frame_event.
      specialize (H (node s)). rewrite Ec in H. exact H.
    + cbn [resume_update_node_series] in Ec.
      destruct (oldServerTime (node s)) as [t|] eqn:Ht.
      * rewrite (bind_ok _ _ (node s) tt _
                   (update_node_series_publish_eval (node s) t Ht)) in Ec.
        discriminate.
      * unfold update_node_series_publish, bind, getattr in Ec.
        rewrite Ht in Ec. injection Ec as _ <-. reflexivity.
Qed.

(** X11.  Publication accounting.  [communication] logs the calls of
    [send_message] with the arguments as they are at the call.  At every
    state that a run reaches, a turn either leaves the log as it is or is a
    turn of the node state machine that resumes from the sleep before the
    publication: it writes the stored clock into the node record as
    Timestamp and calls [send_message] once, with the node record as it then
    is and the datatype number 71.  The number of calls made during the run
    plus a publication still pending at its end equals the number of cycles
    that set [updated] plus a publication pending at its start: a cycle
    that takes the no-cue or no-update branch never sends, and an updated
    cycle sends at most once. *)
Theorem publication_accounting (es : list event) (s : System) :
  (forall e,
     communication (node (snd (step e (snd (run es s)))))
     = communication (node (snd (run es s)))
     \/ (e = ev_update_node_series
         /\ update_node_series_pc (snd (run es s)) = NodeSleepBeforePublish
         /\ exists t,
              oldServerTime (node (snd (run es s))) = Some t
              /\ nodeSeries (node (snd (step e (snd (run es s)))))
                 = <["Timestamp" := t]> (nodeSeries (node (snd (run es s))))
              /\ communication (node (snd (step e (snd (run es s)))))
                 = communication (node (snd (run es s)))
                     ++ [(nodeSeries (node (snd (step e (snd (run es s))))),
                          71)]))
  /\ exists sent,
       communication (node (snd (run es s))) = communication (node s) ++ sent
       /\ Forall node_message sent
       /\ (length sent
           + publish_pending (update_node_series_pc (snd (run es s))))%nat
          = (publish_pending (update_node_series_pc s)
             + count_updated (fst (run es s)))%nat.
Proof.
  split; [intros e; apply step_sends|].
  revert s. induction es as [|e es IH]; intros s.
  - exists []. rewrite app_nil_r. cbn. split; [reflexivity|].
    split; [constructor|lia].
  - rewrite run_cons. cbn [fst snd].
    destruct (step_accounting e s) as (sent1 & Hc1 & Hm1 & Hl1).
    destruct (IH (snd (step e s))) as (sent2 & Hc2 & Hm2 & Hl2).
    exists (sent1 ++ sent2).
    split; [rewrite Hc2, Hc1, app_assoc; reflexivity|].
    split; [apply Forall_app; split; assumption|].
    rewrite length_app.
    replace (count_updated
               match fst (step e s) with
               | Some b => b :: fst (run es (snd (step e s)))
               | None => fst (run es (snd (step e s)))
               end)
      with (count_updated (match fst (step e s) with
                           | Some b => [b]
                           | None => []
                           end)
            + count_updated (fst (run es (snd (step e s)))))%nat
      by (rewrite <- count_updated_app; destruct (fst (step e s)); reflexivity).
    lia.
Qed.

Lemma publication_accounting_witness :
  communication
    (node (snd (step ev_update_node_series
                  (snd (run (example_setup ++ [ev_update_node_series])
                          (boot example_node))))))
  = communication
      (node (snd (run (example_setup ++ [ev_update_node_series])
                    (boot example_node))))
      ++ [(nodeSeries
             (node (snd (step ev_update_node_series
                           (snd (run (example_setup ++ [ev_update_node_series])
                                   (boot example_node)))))), 71)]
  /\ nodeSeries
       (node (snd (step ev_update_node_series
                     (snd (run (example_setup ++ [ev_update_node_series])
                             (boot example_node))))))
       !! "Timestamp" = Some (VInt 1).
Proof.
  destruct (publication_accounting (example_setup ++ [ev_update_node_series])
              (boot example_node)) as [H _].
  destruct (H ev_update_node_series) as [E|(_ & _ & t & Ht & Hn & Hc)].
  - apply (f_equal (@length _)) in E. vm_compute in E. discriminate.
  - split; [exact Hc|]. rewrite Hn, lookup_insert_eq.
    rewrite <- Ht. vm_compute. reflexivity.
Defined.

(** ** The change request *)

(** The loop of the node state machine either stays suspended or raises
    in its await, the node untouched, or runs one cycle. *)
Lemma update_node_series_loop_unfold w n :
  (exists r, update_node_series_loop w n = (r, n)
             /\ forall pc b, r <> Ok (pc, Some b))
  \/ update_node_series_loop w n
     = match update_node_series_decide n with
       | (Ok b, n') =>
           (Ok (if updated b then NodeSleepBeforePublish else NodeAwaitReady None,
                Some b), n')
       | (Raise e, n') => (Raise e, n')
       end.
Proof.
  unfold update_node_series_loop, bind, ret.
  pose proof (preserves_await_uptodate_future (fun n => n) w n) as Hp.
  destruct (await_uptodate_future w n) as [[[f|]|e] n1]; cbn [snd] in Hp;
    subst n1.
  - left. eexists. split; [reflexivity|]. intros pc b. discriminate.
  - right. destruct (update_node_series_decide n) as [[b|e] n']; reflexivity.
  - left. eexists. split; [reflexivity|]. intros pc b. discriminate.
Qed.

Lemma new_cue_branch_keeps_changeState n :
  match new_cue_branch n with
  | (Ok b, _) => b = NewCue
  | (Raise _, n') => changeState n' = changeState n
  end.
Proof.
  assert (HA : preserves changeState
                 (do cue <- getattr cueSeries; modify (set_nodeSeries cue)))
    by frame.
  assert (HB : preserves changeState (set_node_state_from "Initial Node State"))
    by (unfold set_node_state_from, set_node_series_value; frame).
  assert (HC : preserves changeState
                 (do v <- get_attribute_value "Node Number";
                  set_node_series_value "Node Number" v))
    by (unfold set_node_series_value; frame).
  unfold new_cue_branch. unfold bind at 1. specialize (HA n).
  destruct ((do cue <- getattr cueSeries; modify (set_nodeSeries cue)) n)
    as [[[]|e] n1]; cbn [snd] in HA; [|exact HA].
  unfold bind at 1. specialize (HB n1).
  destruct (set_node_state_from "Initial Node State" n1) as [[[]|e] n2];
    cbn [snd] in HB; [|congruence].
  unfold bind at 1. specialize (HC n2).
  destruct ((do v <- get_attribute_value "Node Number";
             set_node_series_value "Node Number" v) n2) as [[[]|e] n3];
    cbn [snd] in HC; [|congruence].
  reflexivity.
Qed.

Lemma decide_keeps_changeState n :
  match update_node_series_decide n with
  | (Ok NewCue, _) => True
  | (_, n') => changeState n' = changeState n
  end.
Proof.
  unfold update_node_series_decide. unfold bind at 1, getattr at 1.
  destruct (cueSeries n) as [cue|]; [|reflexivity].
  destruct (series_empty cue); [reflexivity|].
  unfold bind at 1. pose proof (is_new_cue_pure n) as Hp.
  destruct (is_new_cue n) as [[new_cue|e] n1]; cbn [snd] in Hp; subst n1;
    [|reflexivity].
  destruct new_cue.
  - pose proof (new_cue_branch_keeps_changeState n) as H.
    destruct (new_cue_branch n) as [[b|e] n']; [subst b; exact I|exact H].
  - unfold bind, gets.
    destruct (changeState n && initialState n); [|reflexivity].
    destruct (final_phase_branch_cases n)
      as [[e E]|(frame & cueState & row & v & _ & _ & _ & _ & E)];
      rewrite E; reflexivity.
Qed.

Lemma resume_update_node_series_keeps_changeState pc n :
  match resume_update_node_series pc n with
  | (Ok (_, Some NewCue), _) => True
  | (_, n') => changeState n' = changeState n
  end.
Proof.
  assert (L : forall w m,
             match update_node_series_loop w m with
             | (Ok (_, Some NewCue), _) => True
             | (_, n') => changeState n' = changeState m
             end).
  { intros w m.
    destruct (update_node_series_loop_unfold w m) as [(r & E & Hr)|E]; rewrite E.
    - destruct r as [[pc' [b|]]|e]; try reflexivity.
      destruct (Hr pc' b eq_refl).
    - pose proof (decide_keeps_changeState m) as H.
      destruct (update_node_series_decide m) as [[b|e] n']; [|exact H].
      destruct b; try exact H; exact I. }
  destruct pc as [|w|]; cbn [resume_update_node_series].
  - unfold bind at 1.
    pose proof (preserves_await_setup_tasks (fun n => n) n) as Hp.
    destruct (await_setup_tasks n) as [[ready_|e] n1]; cbn [snd] in Hp;
      subst n1; [|reflexivity].
    destruct ready_; [|reflexivity].
    unfold bind, update_node_series_start, modify.
    apply (L None (set_nodeSeries ∅ n)).
  - apply L.
  - assert (Hp : preserves changeState update_node_series_publish)
      by frame_event.
    unfold bind, ret. specialize (Hp n).
    destruct (update_node_series_publish n) as [[[]|e] n']; exact Hp.
Qed.

Lemma get_button_input_keeps_request pc n :
  changeState n = true ->
  changeState (snd (resume_get_button_input pc n)) = true.
Proof.
  intros Hc.
  assert (L : get_button_input_loop n = (Ok ButtonPoll, n)).
  { unfold get_button_input_loop, get_button_input_poll, bind, gets, ret.
    rewrite Hc. reflexivity. }
  destruct pc; cbn [resume_get_button_input].
  - unfold bind at 1.
    pose proof (preserves_await_setup_tasks (fun n => n) n) as Hp.
    destruct (await_setup_tasks n) as [[ready_|e] n1]; cbn [snd] in Hp;
      subst n1; [|exact Hc].
    destruct ready_; [rewrite L|]; exact Hc.
  - rewrite L. exact Hc.
  - exact Hc.
Qed.

Lemma step_keeps_request e s :
  changeState (node s) = true -> fst (step e s) <> Some NewCue ->
  changeState (node (snd (step e s))) = true.
Proof.
  intros Hc Hb.
  assert (Hother : event_preserves changeState e s ->
                   changeState (node (snd (step e s))) = true)
    by (intros H; rewrite (step_preserves changeState e s H); exact Hc).
  destruct e;
    try solve [apply Hother; cbn [event_preserves];
               first [solve [frame_event] | solve [split; frame_event]]].
  - cbn [step snd]. rewrite stored_frame by reflexivity.
    destruct (resume_cases get_button_input_task
                (resume_get_button_input (get_button_input_pc s)) s)
      as [E|[(a & n' & Ec & E)|(e & n' & s' & Ec & E & Hn)]]; rewrite E;
      cbn [snd node with_node]; try exact Hc.
    + pose proof (get_button_input_keeps_request (get_button_input_pc s)
                    (node s) Hc) as H. rewrite Ec in H. exact H.
    + pose proof (get_button_input_keeps_request (get_button_input_pc s)
                    (node s) Hc) as H. rewrite Ec in H. rewrite Hn. exact H.
  - cbn [step] in *.
    pose proof (resume_update_node_series_keeps_changeState
                  (update_node_series_pc s) (node s)) as H.
    destruct (resume_cases update_node_series_task
                (resume_update_node_series (update_node_series_pc s)) s)
      as [E|[(a & n' & Ec & E)|(e & n' & s' & Ec & E & Hn)]]; rewrite E in *;
      cbn [fst snd] in *.
    + exact Hc.
    + rewrite Ec in H. destruct a as [pc' [b|]]; cbn [fst snd node
        with_update_node_series_pc with_node] in *.
      * destruct b; congruence.
      * congruence.
    + rewrite Ec in H. rewrite Hn. congruence.
Qed.

(** X12.  A change request is sticky: once changeState is set, it stays
    set along every run in which the node state machine takes no new-cue
    cycle, whatever else happens (button polls and edges, clock polls,
    fetches, final-phase cycles, crashes, the exception handler). *)
Theorem change_request_persists (es : list event) (s : System) :
  changeState (node s) = true ->
  NewCue ∉ fst (run es s) ->
  changeState (node (snd (run es s))) = true.
Proof.
  revert s. induction es as [|e es IH]; intros s Hc Hn; [exact Hc|].
  rewrite run_cons in *. cbn [fst snd] in *.
  apply IH.
  - apply step_keeps_request; [exact Hc|].
    intros E. rewrite E in Hn. apply Hn. apply list_elem_of_here.
  - intros Hin. apply Hn. destruct (fst (step e s));
      [apply list_elem_of_further|]; exact Hin.
Qed.

Lemma change_request_persists_witness :
  changeState (node example_requested) = true
  /\ fst (run [ev_update_node_series; ev_update_node_series;
               ev_get_button_input; ev_button_edge; ev_uptodate_check (VInt 1);
               ev_update_node_series]
            example_requested) = [FinalPhase]
  /\ changeState
       (node (snd (run [ev_update_node_series; ev_update_node_series;
                        ev_get_button_input; ev_button_edge;
                        ev_uptodate_check (VInt 1); ev_update_node_series]
                     example_requested))) = true.
Proof.
  assert (Hc : changeState (node example_requested) = true)
    by (vm_compute; reflexivity).
  assert (Hb : fst (run [ev_update_node_series; ev_update_node_series;
                         ev_get_button_input; ev_button_edge;
                         ev_uptodate_check (VInt 1); ev_update_node_series]
                      example_requested) = [FinalPhase])
    by (vm_compute; reflexivity).
  split; [exact Hc|]. split; [exact Hb|].
  apply change_request_persists; [exact Hc|].
  rewrite Hb. intros H. apply list_elem_of_singleton in H. discriminate.
Defined.

Lemma selection_rows_witness :
  uptodate_future (node example_tracking) = Some 0%nat
  /\ justPressed (node example_requested) = Some true
  /\ selection (node example_requested) = (Off, Some Standby)
  /\ selection (node example_hold_after_standby) = (Off, Some Standby).
Proof.
  split; [reflexivity|]. split; [vm_compute; reflexivity|]. split.
  - rewrite (selection_rows (node example_requested) 0%nat true);
      vm_compute; reflexivity.
  - rewrite (selection_rows (node example_hold_after_standby) 0%nat false);
      vm_compute; reflexivity.
Defined.

(** ** Health of a running node *)

Lemma resume_crashed {A} (t : task) (c : M A) (s : System) u :
  u ∈ crashed (snd (resume t c s)) ->
  u ∈ crashed s \/ (u = t /\ raises c (node s)).
Proof.
  unfold resume. destruct (decide (t ∈ crashed s)); [auto|].
  destruct (c (node s)) as [[a|e] n'] eqn:E.
  - destruct (run_tasks_pc s); cbn; auto.
  - destruct (run_tasks_pc s); cbn; auto; intros H;
      apply elem_of_cons in H as [->|H]; auto; right; split; auto;
      exists e, n'; exact E.
Qed.

Lemma stored_crashed {A} (g : A -> System -> System) (r : option A * System) :
  (forall a s, crashed (g a s) = crashed s) ->
  crashed (stored g r) = crashed (snd r).
Proof. intros Hg. destruct r as [[a|] s]; cbn; [rewrite Hg|]; reflexivity. Qed.

(** A coroutine only joins the crashed ones when its own code raises. *)
Lemma step_crashed e s t :
  t ∈ crashed (snd (step e s)) ->
  t ∈ crashed s \/ (event_task e = Some t /\ event_raises e s).
Proof.
  destruct e; cbn [step snd event_task event_raises];
    try (rewrite stored_crashed by reflexivity);
    try (intros H; apply resume_crashed in H as [H|[-> H]]; auto; fail).
  - intros H.
    assert (H' : t ∈ crashed (snd (resume update_node_series_task
                   (resume_update_node_series (update_node_series_pc s)) s))).
    { destruct (resume update_node_series_task
                  (resume_update_node_series (update_node_series_pc s)) s)
        as [[[pc b]|] s']; exact H. }
    apply resume_crashed in H' as [H'|[-> H']]; auto.
  - destruct (run_tasks_pc s); auto.
  - unfold resume_run_tasks. destruct (run_tasks_pc s); auto.
    destruct ((modify (fun n => set_errorStorage
                         (ErrorStorage.update trace (errorStorage n)) n);;
               call_LCD (LCD.display_text error_text 2)) (node s))
      as [[[]|e] n']; auto.
Qed.

Lemma resume_keeps {T A} (g : System -> T) (t : task) (c : M A) (s : System) :
  (forall x s, g (with_node x s) = g s) ->
  (forall x s, g (with_crashed x s) = g s) ->
  (forall x s, g (with_run_tasks_pc x s) = g s) ->
  g (snd (resume t c s)) = g s.
Proof.
  intros H1 H2 H3. unfold resume.
  destruct (decide (t ∈ crashed s)); [reflexivity|].
  destruct (c (node s)) as [[a|e] n']; destruct (run_tasks_pc s); cbn;
    rewrite ?H2, ?H3, ?H1; reflexivity.
Qed.

Lemma stored_keeps {T A} (g : System -> T) (h : A -> System -> System)
    (r : option A * System) :
  (forall a s, g (h a s) = g s) -> g (stored h r) = g (snd r).
Proof. intros Hh. destruct r as [[a|] s]; cbn; [rewrite Hh|]; reflexivity. Qed.

Lemma step_keeps_uptodate_check_pc e s :
  (forall r, e <> ev_uptodate_check r) ->
  uptodate_check_pc (snd (step e s)) = uptodate_check_pc s.
Proof.
  intros He. destruct e; try (exfalso; eapply He; reflexivity);
    cbn [step snd];
    try (rewrite stored_keeps by reflexivity);
    try (apply resume_keeps; reflexivity).
  - rewrite <- (resume_keeps uptodate_check_pc update_node_series_task
                  (resume_update_node_series (update_node_series_pc s)) s)
      by reflexivity.
    destruct (resume update_node_series_task
                (resume_update_node_series (update_node_series_pc s)) s)
      as [[[pc b]|] s']; reflexivity.
  - destruct (run_tasks_pc s); reflexivity.
  - unfold resume_run_tasks. destruct (run_tasks_pc s); try reflexivity.
    destruct ((modify (fun n => set_errorStorage
                         (ErrorStorage.update trace (errorStorage n)) n);;
               call_LCD (LCD.display_text error_text 2)) (node s))
      as [[[]|e] n']; reflexivity.
Qed.

Lemma step_keeps_update_LEDs_pc e s :
  e <> ev_update_LEDs ->
  update_LEDs_pc (snd (step e s)) = update_LEDs_pc s.
Proof.
  intros He. destruct e; try contradiction; cbn [step snd];
    try (rewrite stored_keeps by reflexivity);
    try (apply resume_keeps; reflexivity).
  - rewrite <- (resume_keeps update_LEDs_pc update_node_series_task
                  (resume_update_node_series (update_node_series_pc s)) s)
      by reflexivity.
    destruct (resume update_node_series_task
                (resume_update_node_series (update_node_series_pc s)) s)
      as [[[pc b]|] s']; reflexivity.
  - destruct (run_tasks_pc s); reflexivity.
  - unfold resume_run_tasks. destruct (run_tasks_pc s); try reflexivity.
    destruct ((modify (fun n => set_errorStorage
                         (ErrorStorage.update trace (errorStorage n)) n);;
               call_LCD (LCD.display_text error_text 2)) (node s))
      as [[[]|e] n']; reflexivity.
Qed.

(** *** Coroutines that return *)

Lemma resume_uptodate_check_returns pc r n :
  is_Some (uptodate_future n) ->
  (pc = Polling -> is_Some (oldServerTime n)) ->
  exists n',
    resume_uptodate_check pc r n = (Ok Polling, n')
    /\ is_Some (uptodate_future n') /\ is_Some (oldServerTime n').
Proof.
  intros [f Hf] Ho. destruct pc; cbn [resume_uptodate_check].
  - eexists. split; [reflexivity|]. cbn. split; eauto.
  - destruct (Ho eq_refl) as [old Hold].
    destruct (decide (clock_changed r old)) as [Hch|Hch].
    + rewrite (bind_ok _ _ n _ _ (uptodate_check_poll_changed r f old n Hf Hold Hch)).
      eexists. split; [reflexivity|]. destruct (ready n); cbn; split; eauto.
    + rewrite (bind_ok _ _ n _ _ (uptodate_check_poll_stale r f old n Hf Hold Hch)).
      eexists. split; [reflexivity|]. destruct (ready n); cbn; split; eauto.
Qed.

Lemma resume_update_LEDs_returns pc n :
  is_Some (uptodate_future n) ->
  (pc = InLoop -> is_Some (justPressed n)) ->
  exists n',
    resume_update_LEDs pc n = (Ok InLoop, n') /\ is_Some (justPressed n').
Proof.
  intros [f Hf] Hj. destruct pc; cbn [resume_update_LEDs].
  - unfold bind at 1, update_LEDs_start, modify.
    rewrite (bind_ok _ _ _ _ _
               (update_LEDs_cycle_eval (set_justPressed (Some false) n) f false
                  Hf eq_refl)).
    eexists. split; [reflexivity|]. cbn. eauto.
  - destruct (Hj eq_refl) as [jp Hjp].
    rewrite (bind_ok _ _ _ _ _ (update_LEDs_cycle_eval n f jp Hf Hjp)).
    eexists. split; [reflexivity|]. cbn. eauto.
Qed.

Lemma await_uptodate_future_returns w n :
  is_Some (uptodate_future n) ->
  exists w', await_uptodate_future w n = (Ok w', n).
Proof.
  intros [f Hf]. unfold await_uptodate_future, bind, getattr, future_done, gets, ret.
  destruct w as [f'|]; [|rewrite Hf]; eexists; reflexivity.
Qed.

Lemma await_setup_tasks_returns n :
  is_Some (setup_tasks n) -> exists b, await_setup_tasks n = (Ok b, n).
Proof.
  intros [g Hg]. unfold await_setup_tasks, bind, getattr, ret. rewrite Hg.
  eexists. reflexivity.
Qed.

Lemma update_attributes_attempt_cases a n :
  update_attributes_attempt a n = (Ok (Backoff (5 # 1)%Q), n)
  \/ exists row,
       update_attributes_attempt a n
       = (Ok (Finished "Attributes Updated"), set_attributes_dict (Some row) n).
Proof.
  destruct a as [df|].
  - destruct (df !! VStr (mac n)) as [row|] eqn:E.
    + right. exists row. apply update_attributes_attempt_succeeds. exact E.
    + left. apply update_attributes_attempt_fails. exact E.
  - left. apply update_attributes_attempt_fails. exact I.
Qed.

Lemma resume_update_attributes_returns w a n :
  is_Some (uptodate_future n) -> setup_populated n ->
  exists w' n',
    resume_update_attributes w a n = (Ok w', n') /\ setup_populated n'.
Proof.
  intros Hf (g & Hg & Ha & Hs).
  unfold resume_update_attributes, resume_synchronizer.
  rewrite (bind_ok _ _ n g n) by (unfold getattr; rewrite Hg; reflexivity).
  destruct (attributes_result g) as [res|] eqn:Er.
  - do 2 eexists. split; [reflexivity|]. exists g. rewrite Er. auto.
  - destruct (await_uptodate_future_returns w n Hf) as [w' Ew].
    rewrite (bind_ok _ _ n _ n Ew). destruct w' as [f'|].
    + do 2 eexists. split; [reflexivity|]. exists g. rewrite Er. auto.
    + destruct (update_attributes_attempt_cases a n) as [E|[row E]];
        rewrite (bind_ok _ _ n _ _ E).
      * do 2 eexists. split; [reflexivity|]. exists g. rewrite Er. auto.
      * do 2 eexists. split; [reflexivity|]. eexists. cbn.
        split; [reflexivity|]. split; [eauto|exact Hs].
Qed.

Lemma resume_update_state_frame_returns w a n :
  is_Some (uptodate_future n) -> setup_populated n ->
  exists w' n',
    resume_update_state_frame w a n = (Ok w', n') /\ setup_populated n'.
Proof.
  intros Hf (g & Hg & Ha & Hs).
  unfold resume_update_state_frame, resume_synchronizer.
  rewrite (bind_ok _ _ n g n) by (unfold getattr; rewrite Hg; reflexivity).
  destruct (state_frame_result g) as [res|] eqn:Er.
  - do 2 eexists. split; [reflexivity|]. exists g. rewrite Er. auto.
  - destruct (await_uptodate_future_returns w n Hf) as [w' Ew].
    rewrite (bind_ok _ _ n _ n Ew). destruct w' as [f'|].
    + do 2 eexists. split; [reflexivity|]. exists g. rewrite Er. auto.
    + destruct a as [df|]; cbn [update_state_frame_attempt].
      * do 2 eexists. split; [reflexivity|]. eexists. cbn.
        split; [reflexivity|]. split; [exact Ha|eauto].
      * do 2 eexists. split; [reflexivity|]. exists g. rewrite Er. auto.
Qed.

Lemma display_text_returns text priority l :
  LCDCalls.wf l ->
  exists l', LCD.display_text text priority l = Ok l' /\ LCDCalls.wf l'.
Proof.
  intros Hwf. unfold LCD.display_text.
  destruct (LCD.isSetup l && (priority >=? LCD.currentPriority l)) eqn:E.
  - apply andb_true_iff in E as [E _]. destruct (Hwf E) as [d Hd]. rewrite Hd.
    eexists. split; [reflexivity|]. intros _. eexists. reflexivity.
  - exists l. auto.
Qed.

Lemma update_display_cycle_returns first n :
  setup_populated n -> LCDCalls.wf (LCD n) ->
  exists b n',
    update_display_cycle first n = (Ok b, n') /\ LCDCalls.wf (LCD n').
Proof.
  intros (g & Hg & Ha & _) Hwf.
  assert (L : forall text : string,
             exists n', call_LCD (LCD.display_text text LCD.default_priority) n
                        = (Ok tt, n')
                        /\ LCDCalls.wf (LCD n')).
  { intros text. unfold call_LCD.
    destruct (display_text_returns text LCD.default_priority (LCD n) Hwf)
      as (l' & E & Hwf'). rewrite E. eexists. split; [reflexivity|exact Hwf']. }
  unfold update_display_cycle, bind, getattr, ret. rewrite Hg.
  destruct (gathering_done g) eqn:Hd.
  - assert (is_Some (attributes_dict n)) as [attrs Hattrs].
    { apply Ha. unfold gathering_done in Hd.
      destruct (state_frame_result g); [|discriminate].
      destruct (attributes_result g); [eauto|discriminate]. }
    destruct first.
    + rewrite !(get_attribute_value_populated _ attrs n Hattrs).
      cbv beta iota. cbn [fst snd].
      match goal with
      | |- context [call_LCD (LCD.display_text ?t _) n] =>
          destruct (L t) as (n' & E & Hwf')
      end.
      rewrite E. exists false, n'. auto.
    + rewrite !get_node_series_value_total.
      cbv beta iota. cbn [fst snd].
      match goal with
      | |- context [call_LCD (LCD.display_text ?t _) n] =>
          destruct (L t) as (n' & E & Hwf')
      end.
      rewrite E. exists false, n'. auto.
  - unfold gets. cbv beta iota. cbn [fst snd].
    destruct (L ("MAC Addr: " +:+ mac n)) as (n' & E & Hwf').
    rewrite E. exists first, n'. auto.
Qed.

Lemma resume_get_cue_series_returns pc a n :
  is_Some (uptodate_future n) -> is_Some (setup_tasks n) ->
  exists pc' n', resume_get_cue_series pc a n = (Ok pc', n').
Proof.
  intros Hf Hg.
  assert (L : forall w m, is_Some (uptodate_future m) ->
                          exists pc' n', get_cue_series_loop w a m = (Ok pc', n')).
  { intros w m Hm. unfold get_cue_series_loop.
    destruct (await_uptodate_future_returns w m Hm) as [w' Ew].
    rewrite (bind_ok _ _ m _ m Ew). destruct w' as [f'|].
    - do 2 eexists. reflexivity.
    - destruct (get_cue_series_cycle_cases a m) as (ds & n' & E & _).
      rewrite (bind_ok _ _ m _ _ E). do 2 eexists. reflexivity. }
  destruct pc as [|w]; cbn [resume_get_cue_series].
  - destruct (await_setup_tasks_returns n Hg) as [b Eb].
    rewrite (bind_ok _ _ n _ n Eb). destruct b.
    + unfold bind at 1, get_cue_series_start, modify. apply L. exact Hf.
    + do 2 eexists. reflexivity.
  - apply L. exact Hf.
Qed.

Lemma resume_get_button_input_returns pc n :
  is_Some (setup_tasks n) ->
  exists pc' n',
    resume_get_button_input pc n = (Ok pc', n')
    /\ (is_Some (justPressed n) -> is_Some (justPressed n')).
Proof.
  intros Hg.
  assert (L : exists pc' n',
             get_button_input_loop n = (Ok pc', n')
             /\ (is_Some (justPressed n) -> is_Some (justPressed n'))).
  { unfold get_button_input_loop, get_button_input_poll, bind, gets, modify, ret.
    destruct (changeState n); cbn.
    - do 2 eexists. split; [reflexivity|auto].
    - destruct (GPIO.pressed (GPIO n)); do 2 eexists;
        (split; [reflexivity|cbn; eauto]). }
  destruct pc; cbn [resume_get_button_input].
  - destruct (await_setup_tasks_returns n Hg) as [b Eb].
    rewrite (bind_ok _ _ n _ n Eb). destruct b; [exact L|].
    do 2 eexists. split; [reflexivity|auto].
  - exact L.
  - do 2 eexists. split; [reflexivity|]. cbn. eauto.
Qed.

(** *** Every event keeps a healthy system healthy *)

Lemma stored_resume_cases {A} (t : task) (c : M A)
    (g : A -> System -> System) (s : System) :
  stored g (resume t c s) = s
  \/ (exists a n', c (node s) = (Ok a, n')
                   /\ stored g (resume t c s) = g a (with_node n' s))
  \/ raises c (node s).
Proof.
  destruct (resume_cases t c s)
    as [E|[(a & n' & Ec & E)|(e & n' & s' & Ec & E & Hn)]].
  - left. rewrite E. reflexivity.
  - right. left. exists a, n'. rewrite E. auto.
  - right. right. exists e, n'. exact Ec.
Qed.

Lemma setup_populated_view n n' :
  (setup_tasks n', attributes_dict n', stateFrame n')
  = (setup_tasks n, attributes_dict n, stateFrame n) ->
  setup_populated n -> setup_populated n'.
Proof.
  intros [= H1 H2 H3] (g & Hg & Ha & Hs). exists g.
  rewrite H1, H2, H3. auto.
Qed.

Lemma node_ok_view n n' :
  setup_view n' = setup_view n -> node_ok n -> node_ok n'.
Proof.
  unfold setup_view. intros [= H1 H2 H3 H4 H5] (Hf & Hp & Hw).
  split; [rewrite H1; exact Hf|]. split; [|rewrite H5; exact Hw].
  apply (setup_populated_view n); [|exact Hp]. rewrite H2, H3, H4. reflexivity.
Qed.

Lemma preserves_result {T A} (f : Node -> T) (c : M A) n r n' :
  preserves f c -> c n = (r, n') -> f n' = f n.
Proof. intros H E. specialize (H n). rewrite E in H. exact H. Qed.

(** Under the invariant, only the node state machine can raise. *)
Lemma healthy_event_returns e s :
  healthy s -> event_raises e s -> e = ev_update_node_series.
Proof.
  intros ((Hf & Hp & Hw) & Ho & Hj & _).
  assert (Hg : is_Some (setup_tasks (node s)))
    by (destruct Hp as (g & Hg & _); eauto).
  destruct e; cbn [event_raises]; try contradiction; try reflexivity;
    intros (x & n' & E); exfalso.
  - destruct (resume_uptodate_check_returns (uptodate_check_pc s) r (node s)
                Hf Ho) as (m & E' & _). congruence.
  - destruct (resume_update_LEDs_returns (update_LEDs_pc s) (node s) Hf Hj)
      as (m & E' & _). congruence.
  - discriminate.
  - destruct (resume_update_state_frame_returns (update_state_frame_pc s)
                answer (node s) Hf Hp) as (w' & m & E' & _). congruence.
  - destruct (resume_update_attributes_returns (update_attributes_pc s)
                answer (node s) Hf Hp) as (w' & m & E' & _). congruence.
  - destruct (update_display_cycle_returns (update_display_first s) (node s)
                Hp Hw) as (b & m & E' & _). congruence.
  - destruct (resume_get_cue_series_returns (get_cue_series_pc s) answer
                (node s) Hf Hg) as (pc' & m & E'). congruence.
  - destruct (resume_get_button_input_returns (get_button_input_pc s) (node s)
                Hg) as (pc' & m & E' & _). congruence.
Qed.

Lemma step_healthy_crashed e s :
  healthy s ->
  forall t, t ∈ crashed (snd (step e s)) -> t = update_node_series_task.
Proof.
  intros Hs t Ht. destruct (step_crashed e s t Ht) as [H|[Ht' Hr]].
  - destruct Hs as (_ & _ & _ & Hc). apply Hc. exact H.
  - rewrite (healthy_event_returns e s Hs Hr) in Ht'. cbn in Ht'. congruence.
Qed.

Lemma step_healthy_clock e s :
  healthy s ->
  uptodate_check_pc (snd (step e s)) = Polling ->
  is_Some (oldServerTime (node (snd (step e s)))).
Proof.
  intros Hs.
  assert (Hother : (forall r, e <> ev_uptodate_check r) ->
                   event_preserves oldServerTime e s ->
                   uptodate_check_pc (snd (step e s)) = Polling ->
                   is_Some (oldServerTime (node (snd (step e s))))).
  { intros He Hp. rewrite (step_keeps_uptodate_check_pc e s He).
    rewrite (step_preserves oldServerTime e s Hp).
    destruct Hs as (_ & Ho & _). exact Ho. }
  destruct e;
    try solve [apply Hother; [intros r'; discriminate|];
               cbn [event_preserves];
               first [solve [frame_event] | solve [split; frame_event]]].
  cbn [step snd].
  destruct (stored_resume_cases uptodate_check_task
              (resume_uptodate_check (uptodate_check_pc s) r)
              with_uptodate_check_pc s)
    as [E|[(a & n' & Ec & E)|Hr]].
  - rewrite E. destruct Hs as (_ & Ho & _). exact Ho.
  - rewrite E. cbn. intros _.
    destruct Hs as ((Hf & _) & Ho & _).
    destruct (resume_uptodate_check_returns (uptodate_check_pc s) r (node s)
                Hf Ho) as (m & E' & _ & Hold).
    rewrite Ec in E'. injection E' as _ ->. exact Hold.
  - pose proof (healthy_event_returns (ev_uptodate_check r) s Hs Hr).
    discriminate.
Qed.

Lemma step_healthy_pressed e s :
  healthy s ->
  update_LEDs_pc (snd (step e s)) = InLoop ->
  is_Some (justPressed (node (snd (step e s)))).
Proof.
  intros Hs.
  assert (Hother : e <> ev_update_LEDs ->
                   event_preserves justPressed e s ->
                   update_LEDs_pc (snd (step e s)) = InLoop ->
                   is_Some (justPressed (node (snd (step e s))))).
  { intros He Hp. rewrite (step_keeps_update_LEDs_pc e s He).
    rewrite (step_preserves justPressed e s Hp).
    destruct Hs as (_ & _ & Hj & _). exact Hj. }
  destruct e;
    try solve [apply Hother; [discriminate|];
               cbn [event_preserves];
               first [solve [frame_event] | solve [split; frame_event]]].
  - cbn [step snd].
    destruct (stored_resume_cases update_LEDs_task
                (resume_update_LEDs (update_LEDs_pc s)) with_update_LEDs_pc s)
      as [E|[(a & n' & Ec & E)|Hr]].
    + rewrite E. destruct Hs as (_ & _ & Hj & _). exact Hj.
    + rewrite E. cbn. intros _.
      destruct Hs as ((Hf & _) & _ & Hj & _).
      destruct (resume_update_LEDs_returns (update_LEDs_pc s) (node s) Hf Hj)
        as (m & E' & Hjp).
      rewrite Ec in E'. injection E' as _ ->. exact Hjp.
    + pose proof (healthy_event_returns ev_update_LEDs s Hs Hr). discriminate.
  - rewrite (step_keeps_update_LEDs_pc _ s) by discriminate.
    cbn [step snd].
    destruct (stored_resume_cases get_button_input_task
                (resume_get_button_input (get_button_input_pc s))
                with_get_button_input_pc s)
      as [E|[(a & n' & Ec & E)|Hr]].
    + rewrite E. destruct Hs as (_ & _ & Hj & _). exact Hj.
    + rewrite E. cbn. intros Hpc.
      destruct Hs as ((_ & (g & Hg & _) & _) & _ & Hj & _).
      destruct (resume_get_button_input_returns (get_button_input_pc s)
                  (node s) ltac:(eauto)) as (pc' & m & E' & Hjp).
      rewrite Ec in E'. injection E' as _ ->. apply Hjp, Hj, Hpc.
    + pose proof (healthy_event_returns ev_get_button_input s Hs Hr).
      discriminate.
Qed.

Lemma clear_wf l l' : LCD.clear l = Ok l' -> LCDCalls.wf l'.
Proof.
  unfold LCD.clear. destruct (LCD.display l); [|discriminate].
  intros [= <-]. intros _. eexists. reflexivity.
Qed.

Lemma resume_run_tasks_node_ok trace s :
  node_ok (node s) -> node_ok (node (resume_run_tasks trace s)).
Proof.
  intros (Hf & Hp & Hw). unfold resume_run_tasks.
  destruct (run_tasks_pc s); try (repeat split; assumption).
  - unfold bind, modify, call_LCD. cbn.
    destruct (display_text_returns error_text 2 (LCD (node s)) Hw)
      as (l' & E & Hw').
    rewrite E. cbn. repeat split; assumption.
  - cbn. unfold cleanup, call_LCD.
    destruct (LCD.clear (LCD (node s))) as [l'|e] eqn:E; cbn.
    + split; [exact Hf|]. split; [exact Hp|]. apply (clear_wf _ _ E).
    + repeat split; assumption.
Qed.

Lemma step_healthy_node_ok e s :
  healthy s -> node_ok (node (snd (step e s))).
Proof.
  intros Hs. pose proof Hs as ((Hf & Hp & Hw) & Ho & Hj & _).
  assert (Hother : event_preserves setup_view e s ->
                   node_ok (node (snd (step e s)))).
  { intros H. apply (node_ok_view (node s)); [|repeat split; assumption].
    apply (step_preserves setup_view e s H). }
  destruct e;
    try solve [apply Hother; cbn [event_preserves];
               first [solve [frame_event] | solve [split; frame_event]]].
  - cbn [step snd].
    destruct (stored_resume_cases uptodate_check_task
                (resume_uptodate_check (uptodate_check_pc s) r)
                with_uptodate_check_pc s)
      as [E|[(a & n' & Ec & E)|Hr]].
    + rewrite E. repeat split; assumption.
    + rewrite E. cbn.
      destruct (resume_uptodate_check_returns (uptodate_check_pc s) r (node s)
                  Hf Ho) as (m & E' & Hf' & _).
      rewrite Ec in E'. injection E' as _ ->.
      assert (Hfr : preserves (fun n => (setup_tasks n, attributes_dict n,
                                         stateFrame n, LCD n))
                      (resume_uptodate_check (uptodate_check_pc s) r))
        by frame_event.
      pose proof (preserves_result _ _ _ _ _ Hfr Ec) as [= H1 H2 H3 H4].
      split; [exact Hf'|]. split; [|rewrite H4; exact Hw].
      apply (setup_populated_view (node s)); [|exact Hp].
      rewrite H1, H2, H3. reflexivity.
    + pose proof (healthy_event_returns (ev_uptodate_check r) s Hs Hr). discriminate.
  - cbn [step snd].
    destruct (stored_resume_cases update_state_frame_task
                (resume_update_state_frame (update_state_frame_pc s) answer)
                with_update_state_frame_pc s)
      as [E|[(a & n' & Ec & E)|Hr]].
    + rewrite E. repeat split; assumption.
    + rewrite E. cbn.
      destruct (resume_update_state_frame_returns (update_state_frame_pc s)
                  answer (node s) Hf Hp) as (w' & m & E' & Hp').
      rewrite Ec in E'. injection E' as _ ->.
      assert (Hfr : preserves (fun n => (uptodate_future n, LCD n))
                      (resume_update_state_frame (update_state_frame_pc s) answer))
        by frame_event.
      pose proof (preserves_result _ _ _ _ _ Hfr Ec) as [= H1 H2].
      split; [rewrite H1; exact Hf|]. split; [exact Hp'|rewrite H2; exact Hw].
    + pose proof (healthy_event_returns (ev_update_state_frame answer) s Hs Hr). discriminate.
  - cbn [step snd].
    destruct (stored_resume_cases update_attributes_task
                (resume_update_attributes (update_attributes_pc s) answer)
                with_update_attributes_pc s)
      as [E|[(a & n' & Ec & E)|Hr]].
    + rewrite E. repeat split; assumption.
    + rewrite E. cbn.
      destruct (resume_update_attributes_returns (update_attributes_pc s)
                  answer (node s) Hf Hp) as (w' & m & E' & Hp').
      rewrite Ec in E'. injection E' as _ ->.
      assert (Hfr : preserves (fun n => (uptodate_future n, LCD n))
                      (resume_update_attributes (update_attributes_pc s) answer))
        by frame_event.
      pose proof (preserves_result _ _ _ _ _ Hfr Ec) as [= H1 H2].
      split; [rewrite H1; exact Hf|]. split; [exact Hp'|rewrite H2; exact Hw].
    + pose proof (healthy_event_returns (ev_update_attributes answer) s Hs Hr). discriminate.
  - cbn [step snd].
    destruct (stored_resume_cases update_display_task
                (update_display_cycle (update_display_first s))
                with_update_display_first s)
      as [E|[(a & n' & Ec & E)|Hr]].
    + rewrite E. repeat split; assumption.
    + rewrite E. cbn.
      destruct (update_display_cycle_returns (update_display_first s) (node s)
                  Hp Hw) as (b & m & E' & Hw').
      rewrite Ec in E'. injection E' as _ ->.
      assert (Hfr : preserves (fun n => (uptodate_future n, setup_tasks n,
                                         attributes_dict n, stateFrame n))
                      (update_display_cycle (update_display_first s)))
        by frame_event.
      pose proof (preserves_result _ _ _ _ _ Hfr Ec) as [= H1 H2 H3 H4].
      split; [rewrite H1; exact Hf|]. split; [|exact Hw'].
      apply (setup_populated_view (node s)); [|exact Hp].
      rewrite H2, H3, H4. reflexivity.
    + pose proof (healthy_event_returns ev_update_display s Hs Hr). discriminate.
  - cbn [step snd]. apply resume_run_tasks_node_ok. repeat split; assumption.
Qed.

Lemma step_healthy e s : healthy s -> healthy (snd (step e s)).
Proof.
  intros Hs. split; [apply step_healthy_node_ok; exact Hs|].
  split; [apply step_healthy_clock; exact Hs|].
  split; [apply step_healthy_pressed; exact Hs|].
  apply step_healthy_crashed. exact Hs.
Qed.

Lemma run_healthy es : forall s, healthy s -> healthy (snd (run es s)).
Proof.
  induction es as [|e es IH]; intros s Hs; [exact Hs|].
  rewrite run_cons. cbn [snd]. apply IH, step_healthy, Hs.
Qed.

Lemma boot_healthy errorStorageFile disk mac ADDRESSES responds :
  healthy (boot (Node_init errorStorageFile disk mac ADDRESSES responds)).
Proof.
  split; [|split; [discriminate|split; [discriminate|]]].
  - split; [eexists; reflexivity|]. split.
    + eexists. split; [reflexivity|]. split; intros [x Hx]; discriminate.
    + cbn. rewrite init_outcome. intros H. cbn in H. rewrite H.
      eexists. reflexivity.
  - intros t Ht. inversion Ht.
Qed.

(** X14.  Crash containment.  In every run of a freshly constructed node,
    whatever the server answers and whenever the button is pressed, the only
    coroutine that can end with an exception is the node state machine: the
    readiness loop, both synchronizers, the cue tracker, the presenter, the
    LED loops and the button monitor never raise. *)
Theorem only_the_node_state_machine_can_crash
    (errorStorageFile : string) (disk : option (list string)) (mac : string)
    (ADDRESSES : list Z) (responds : Z -> bool) (es : list event) (t : task) :
  t ∈ crashed (snd (run es (boot (Node_init errorStorageFile disk mac
                                    ADDRESSES responds)))) ->
  t = update_node_series_task.
Proof.
  apply (run_healthy es _ (boot_healthy errorStorageFile disk mac ADDRESSES
                             responds)).
Qed.

(** X15.  Setup means populated.  At every point of every run of a freshly
    constructed node the gathering future of the setup tasks exists, and
    once it is done the attribute dictionary and the transition table have
    been stored, so that a read of an attribute returns the stored value or
    the string "None" and does not raise. *)
Theorem setup_done_means_populated
    (errorStorageFile : string) (disk : option (list string)) (mac : string)
    (ADDRESSES : list Z) (responds : Z -> bool) (es : list event) :
  exists g,
    setup_tasks (node (snd (run es (boot (Node_init errorStorageFile disk mac
                                            ADDRESSES responds))))) = Some g
    /\ (gathering_done g = true ->
        exists attrs frame,
          attributes_dict (node (snd (run es (boot (Node_init errorStorageFile
                                   disk mac ADDRESSES responds))))) = Some attrs
          /\ stateFrame (node (snd (run es (boot (Node_init errorStorageFile
                                   disk mac ADDRESSES responds))))) = Some frame
          /\ forall key,
               get_attribute_value key
                 (node (snd (run es (boot (Node_init errorStorageFile disk mac
                                             ADDRESSES responds)))))
               = (Ok (default (VStr "None") (attrs !! key)),
                  node (snd (run es (boot (Node_init errorStorageFile disk mac
                                             ADDRESSES responds)))))).
Proof.
  destruct (run_healthy es _ (boot_healthy errorStorageFile disk mac ADDRESSES
                                responds))
    as ((_ & (g & Hg & Ha & Hs) & _) & _).
  exists g. split; [exact Hg|]. intros Hd. unfold gathering_done in Hd.
  destruct (state_frame_result g) as [r1|]; [|discriminate].
  destruct (attributes_result g) as [r2|]; [|discriminate].
  destruct (Ha ltac:(eauto)) as [attrs Hattrs].
  destruct (Hs ltac:(eauto)) as [frame Hframe].
  exists attrs, frame. split; [exact Hattrs|]. split; [exact Hframe|].
  intros key. apply get_attribute_value_populated. exact Hattrs.
Qed.

Lemma only_the_node_state_machine_can_crash_witness :
  crashed (snd (run example_crash (boot example_node)))
  = [update_node_series_task]
  /\ forall t,
       t ∈ crashed (snd (run (example_crash ++ [ev_update_display;
                                                ev_get_cue_series None])
                           (boot example_node))) ->
       t = update_node_series_task.
Proof.
  split; [vm_compute; reflexivity|].
  intros t.
  apply (only_the_node_state_machine_can_crash "errors.json" None
           "b8:27:eb:00:00:01" [39; 63] (Z.eqb 63)).
Defined.

(** ** The error message *)

Lemma update_display_cycle_latched first n :
  1 < LCD.currentPriority (LCD n) ->
  LCD (snd (update_display_cycle first n)) = LCD n.
Proof.
  intros Hp. unfold update_display_cycle. unfold bind at 1.
  pose proof (preserves_getattr (fun n => n) setup_tasks n) as H1.
  destruct (getattr setup_tasks n) as [[g|e] n1]; cbn [snd] in H1; subst n1;
    [|reflexivity].
  unfold bind at 1.
  match goal with
  | |- context [let (_, _) := ?c n in _] =>
      assert (H2 : preserves (fun n => n) c) by frame;
      specialize (H2 n); destruct (c n) as [[mf|e] n1]
  end; cbn [snd] in H2; subst n1; [|reflexivity].
  unfold bind, call_LCD, ret.
  rewrite display_text_below_latch by (unfold LCD.default_priority; lia).
  reflexivity.
Qed.

Lemma resume_handler_done {A} (t : task) (c : M A) (s : System) :
  handler_done s -> handler_done (snd (resume t c s)).
Proof.
  unfold handler_done, resume. intros H.
  destruct (decide (t ∈ crashed s)); [exact H|].
  destruct (c (node s)) as [[a|e] n']; destruct (run_tasks_pc s) eqn:E;
    cbn [snd]; unfold with_crashed, with_run_tasks_pc, with_node;
    cbn [run_tasks_pc]; rewrite ?E; destruct H as [H|H];
    try discriminate; auto.
Qed.

Lemma step_handler_done e s :
  handler_done s -> handler_done (snd (step e s)).
Proof.
  intros H.
  assert (G : forall {A} (g : A -> System -> System) (r : option A * System),
             (forall a s, run_tasks_pc (g a s) = run_tasks_pc s) ->
             handler_done (snd r) -> handler_done (stored g r)).
  { intros A g [[a|] s0] Hg H0; unfold handler_done in *; cbn in *;
      [rewrite Hg|]; exact H0. }
  destruct e; cbn [step snd];
    try (apply G; [reflexivity|]); try (apply resume_handler_done; exact H).
  - pose proof (resume_handler_done update_node_series_task
                  (resume_update_node_series (update_node_series_pc s)) s H)
      as H'.
    destruct (resume update_node_series_task
                (resume_update_node_series (update_node_series_pc s)) s)
      as [[[pc b]|] s']; exact H'.
  - destruct (run_tasks_pc s); exact H.
  - unfold resume_run_tasks. destruct H as [H|H]; rewrite H.
    + right. reflexivity.
    + right. exact H.
Qed.

Lemma step_shown_and_logged e s :
  handler_done s -> 2 <= LCD.currentPriority (LCD (node s)) ->
  shown_and_logged (node (snd (step e s))) = shown_and_logged (node s).
Proof.
  intros Hd Hp.
  destruct e;
    try solve [apply step_preserves; cbn [event_preserves];
               first [solve [frame_event] | solve [split; frame_event]]].
  - cbn [step snd]. rewrite stored_frame by reflexivity.
    assert (He : preserves errorStorage
                   (update_display_cycle (update_display_first s)))
      by frame_event.
    pose proof (update_display_cycle_latched (update_display_first s) (node s)
                  ltac:(lia)) as Hl.
    specialize (He (node s)).
    destruct (resume_cases update_display_task
                (update_display_cycle (update_display_first s)) s)
      as [E|[(a & n' & Ec & E)|(e & n' & s' & Ec & E & Hn)]]; rewrite E;
      cbn [snd node with_node]; try reflexivity.
    + rewrite Ec in Hl, He. cbn in Hl, He. unfold shown_and_logged.
      rewrite Hl, He. reflexivity.
    + rewrite Ec in Hl, He. cbn in Hl, He. rewrite Hn. unfold shown_and_logged.
      rewrite Hl, He. reflexivity.
  - cbn [step snd]. unfold resume_run_tasks.
    destruct Hd as [Hd|Hd]; rewrite Hd; [|reflexivity].
    cbn. unfold cleanup, call_LCD, LCD.clear.
    destruct (LCD.display (LCD (node s))); reflexivity.
Qed.

Lemma run_shown_and_logged es : forall s,
  handler_done s -> 2 <= LCD.currentPriority (LCD (node s)) ->
  shown_and_logged (node (snd (run es s))) = shown_and_logged (node s).
Proof.
  induction es as [|e es IH]; intros s Hd Hp; [reflexivity|].
  rewrite run_cons. cbn [snd].
  pose proof (step_shown_and_logged e s Hd Hp) as H.
  rewrite IH.
  - exact H.
  - apply step_handler_done. exact Hd.
  - injection H as _ H _. rewrite H. exact Hp.
Qed.

Lemma step_returned e s : run_tasks_pc s = Returned -> snd (step e s) = s.
Proof.
  intros H.
  assert (R : forall {A} (t : task) (c : M A), resume t c s = (None, s)).
  { intros A t c. unfold resume. rewrite H.
    destruct (decide (t ∈ crashed s)); reflexivity. }
  destruct e; cbn [step snd]; rewrite ?R; try reflexivity.
  - rewrite H. reflexivity.
  - unfold resume_run_tasks. rewrite H. reflexivity.
Qed.

Lemma run_returned es : forall s,
  run_tasks_pc s = Returned -> snd (run es s) = s.
Proof.
  induction es as [|e es IH]; intros s H; [reflexivity|].
  rewrite run_cons. cbn [snd]. rewrite (step_returned e s H). apply IH, H.
Qed.

Lemma resume_sleeping {A} (t : task) (c : M A) (s : System) :
  run_tasks_pc s = Sleeping10 -> run_tasks_pc (snd (resume t c s)) = Sleeping10.
Proof.
  intros H. unfold resume.
  destruct (decide (t ∈ crashed s)); [exact H|]. rewrite H.
  destruct (c (node s)) as [[a|e] n']; cbn; first [exact H|reflexivity].
Qed.

(** While the handler sleeps, a turn of a coroutine leaves the display as
    it is, the driver included; the handler's own next turn is the
    cleanup. *)
Lemma step_sleeping e s :
  run_tasks_pc s = Sleeping10 -> 2 <= LCD.currentPriority (LCD (node s)) ->
  (run_tasks_pc (snd (step e s)) = Sleeping10
   /\ LCD (node (snd (step e s))) = LCD (node s))
  \/ (run_tasks_pc (snd (step e s)) = Returned
      /\ node (snd (step e s)) = snd (cleanup (node s))).
Proof.
  intros Hpc Hp.
  assert (G : forall {A} (g : A -> System -> System) (r : option A * System),
             (forall a s, run_tasks_pc (g a s) = run_tasks_pc s) ->
             run_tasks_pc (snd r) = Sleeping10 ->
             run_tasks_pc (stored g r) = Sleeping10).
  { intros A g [[a|] s0] Hg H0; cbn in *; [rewrite Hg|]; exact H0. }
  assert (Hother : run_tasks_pc (snd (step e s)) = Sleeping10 ->
                   event_preserves LCD e s ->
                   (run_tasks_pc (snd (step e s)) = Sleeping10
                    /\ LCD (node (snd (step e s))) = LCD (node s))
                   \/ (run_tasks_pc (snd (step e s)) = Returned
                       /\ node (snd (step e s)) = snd (cleanup (node s)))).
  { intros H1 H2. left. split; [exact H1|]. apply step_preserves, H2. }
  destruct e;
    try solve [apply Hother;
               [cbn [step snd];
                first [apply G; [reflexivity|apply resume_sleeping; exact Hpc]
                      | apply resume_sleeping; exact Hpc]
               |cbn [event_preserves]; frame_event]].
  - left. cbn [step snd]. split.
    + apply G; [reflexivity|apply resume_sleeping; exact Hpc].
    + rewrite stored_frame by reflexivity.
      pose proof (update_display_cycle_latched (update_display_first s) (node s)
                    ltac:(lia)) as Hl.
      destruct (resume_cases update_display_task
                  (update_display_cycle (update_display_first s)) s)
        as [E|[(a & n' & Ec & E)|(x & n' & s' & Ec & E & Hn)]]; rewrite E;
        cbn [snd node with_node]; try reflexivity.
      * rewrite Ec in Hl. exact Hl.
      * rewrite Ec in Hl. rewrite Hn. exact Hl.
  - left. cbn [step].
    pose proof (resume_sleeping update_node_series_task
                  (resume_update_node_series (update_node_series_pc s)) s Hpc)
      as H1.
    assert (H2 : preserves LCD (resume_update_node_series (update_node_series_pc s)))
      by frame_event.
    pose proof (resume_frame LCD update_node_series_task _ s H2) as H3.
    destruct (resume update_node_series_task
                (resume_update_node_series (update_node_series_pc s)) s)
      as [[[pc b]|] s']; cbn [snd] in *; split; assumption.
  - left. cbn [step snd]. rewrite Hpc. cbn. split; [exact Hpc|reflexivity].
  - right. cbn [step snd]. unfold resume_run_tasks. rewrite Hpc.
    split; reflexivity.
Qed.

Lemma run_sleeping es : forall s,
  run_tasks_pc s = Sleeping10 -> 2 <= LCD.currentPriority (LCD (node s)) ->
  (run_tasks_pc (snd (run es s)) = Sleeping10
   /\ LCD (node (snd (run es s))) = LCD (node s))
  \/ (run_tasks_pc (snd (run es s)) = Returned
      /\ LCD (node (snd (run es s))) = LCD (snd (cleanup (node s)))).
Proof.
  induction es as [|e es IH]; intros s Hpc Hp; [left; auto|].
  rewrite run_cons. cbn [snd].
  destruct (step_sleeping e s Hpc Hp) as [[H1 H2]|[H1 H2]].
  - destruct (IH (snd (step e s)) H1 ltac:(rewrite H2; exact Hp))
      as [[H3 H4]|[H3 H4]].
    + left. split; [exact H3|]. rewrite H4. exact H2.
    + right. split; [exact H3|]. rewrite H4.
      unfold cleanup, call_LCD. rewrite H2.
      destruct (LCD.clear (LCD (node s))); cbn; [reflexivity|exact H2].
  - right. rewrite (run_returned es _ H1). split; [exact H1|].
    rewrite H2. reflexivity.
Qed.

(** X16.  The error message.  When an exception has reached the handler of
    [run_tasks] on a node whose display is set up with a latch of at most 2,
    the handler's turn logs the traceback and writes "An error has
    occurred: check log" to the screen at latch 2, then sleeps.  While it
    sleeps, whatever the coroutines that are still alive do (the presenter
    included), the driver receives no further call: the screen shows the
    error text until the cleanup.  The handler's next turn is the cleanup,
    which clears the screen (the driver's last call is [clear]) before
    [run_tasks] returns, and nothing runs after that.  Throughout, before
    and after the cleanup, the stored message of the display object stays
    the error text, the latch stays 2 and the log keeps the traceback. *)
Theorem error_message_until_cleanup
    (s : System) (trace : string) (es : list event) :
  run_tasks_pc s = Handling ->
  LCD.isSetup (LCD (node s)) = true -> LCDCalls.wf (LCD (node s)) ->
  LCD.currentPriority (LCD (node s)) <= 2 ->
  (exists d,
     LCD.display (LCD (node s)) = Some d
     /\ run_tasks_pc (snd (step (ev_run_tasks trace) s)) = Sleeping10
     /\ LCD.display (LCD (node (snd (step (ev_run_tasks trace) s))))
        = Some (d ++ [LCD.home;
                      LCD.message_ ("An error has occ" +:+ String "010"%char "");
                      LCD.message_ "urred: check log"])
     /\ (run_tasks_pc (snd (run (ev_run_tasks trace :: es) s)) = Sleeping10
         /\ LCD (node (snd (run (ev_run_tasks trace :: es) s)))
            = LCD (node (snd (step (ev_run_tasks trace) s)))
         \/ run_tasks_pc (snd (run (ev_run_tasks trace :: es) s)) = Returned
            /\ LCD.display (LCD (node (snd (run (ev_run_tasks trace :: es) s))))
               = Some (d ++ [LCD.home;
                             LCD.message_
                               ("An error has occ" +:+ String "010"%char "");
                             LCD.message_ "urred: check log";
                             LCD.clear_])))
  /\ (forall e,
        run_tasks_pc (snd (run (ev_run_tasks trace :: es) s)) = Returned ->
        snd (step e (snd (run (ev_run_tasks trace :: es) s)))
        = snd (run (ev_run_tasks trace :: es) s))
  /\ LCD.message (LCD (node (snd (run (ev_run_tasks trace :: es) s)))) = error_text
  /\ LCD.currentPriority (LCD (node (snd (run (ev_run_tasks trace :: es) s)))) = 2
  /\ trace ∈ ErrorStorage.errors
               (errorStorage (node (snd (run (ev_run_tasks trace :: es) s)))).
Proof.
  intros Hpc Hs Hwf Hp. rewrite run_cons. cbn [snd].
  destruct (Hwf Hs) as [d Hd].
  assert (E : step (ev_run_tasks trace) s
              = (None,
                 with_run_tasks_pc Sleeping10
                   (with_node
                      (set_LCD (LCDCalls.shown error_text 2 d)
                         (set_errorStorage
                            (ErrorStorage.update trace (errorStorage (node s)))
                            (node s))) s))).
  { cbn [step]. unfold resume_run_tasks. rewrite Hpc.
    unfold bind, modify, call_LCD. cbn [LCD set_errorStorage].
    rewrite (display_text_shown _ _ _ d) by assumption. reflexivity. }
  rewrite E. cbn [snd].
  set (s1 := with_run_tasks_pc Sleeping10
               (with_node
                  (set_LCD (LCDCalls.shown error_text 2 d)
                     (set_errorStorage
                        (ErrorStorage.update trace (errorStorage (node s)))
                        (node s))) s)).
  split; [|split].
  - exists d. split; [exact Hd|]. split; [reflexivity|].
    split; [reflexivity|].
    destruct (run_sleeping es s1 eq_refl ltac:(cbn; lia)) as [[H1 H2]|[H1 H2]].
    + left. split; [exact H1|exact H2].
    + right. split; [exact H1|]. rewrite H2. cbn.
      rewrite <- ?app_assoc. reflexivity.
  - intros e H. apply step_returned, H.
  - pose proof (run_shown_and_logged es s1 ltac:(left; reflexivity)
                  ltac:(cbn; lia)) as H.
    unfold shown_and_logged in H. injection H as H1 H2 H3.
    rewrite H1, H2, H3. cbn. split; [reflexivity|]. split; [reflexivity|].
    unfold ErrorStorage.update.
    destruct (decide (trace ∈ ErrorStorage.errors (errorStorage (node s))));
      cbn; [assumption|].
    apply elem_of_app. right. apply list_elem_of_singleton. reflexivity.
Qed.

Lemma error_message_until_cleanup_witness :
  run_tasks_pc (snd (run example_crash (boot example_node))) = Handling
  /\ (exists d,
        LCD.display (LCD (node (snd (run example_crash (boot example_node)))))
        = Some d
        /\ run_tasks_pc
             (snd (run [ev_run_tasks "KeyError: 'Go'"; ev_update_display;
                        ev_update_display]
                     (snd (run example_crash (boot example_node)))))
           = Sleeping10
        /\ LCD.display
             (LCD (node (snd (run [ev_run_tasks "KeyError: 'Go'";
                                   ev_update_display; ev_update_display]
                                (snd (run example_crash (boot example_node)))))))
           = Some (d ++ [LCD.home;
                         LCD.message_
                           ("An error has occ" +:+ String "010"%char "");
                         LCD.message_ "urred: check log"]))
  /\ (exists d,
        LCD.display (LCD (node (snd (run example_crash (boot example_node)))))
        = Some d
        /\ LCD.display
             (LCD (node (snd (run [ev_run_tasks "KeyError: 'Go'";
                                   ev_update_display; ev_update_display;
                                   ev_run_tasks "KeyError: 'Go'";
                                   ev_update_display]
                                (snd (run example_crash (boot example_node)))))))
           = Some (d ++ [LCD.home;
                         LCD.message_
                           ("An error has occ" +:+ String "010"%char "");
                         LCD.message_ "urred: check log";
                         LCD.clear_]))
  /\ LCD.message
       (LCD (node (snd (run [ev_run_tasks "KeyError: 'Go'"; ev_update_display;
                             ev_update_display; ev_run_tasks "KeyError: 'Go'";
                             ev_update_display]
                          (snd (run example_crash (boot example_node)))))))
     = error_text.
Proof.
  assert (H : run_tasks_pc (snd (run example_crash (boot example_node)))
              = Handling) by (vm_compute; reflexivity).
  assert (Hs : LCD.isSetup
                 (LCD (node (snd (run example_crash (boot example_node)))))
               = true) by (vm_compute; reflexivity).
  assert (Hw : LCDCalls.wf
                 (LCD (node (snd (run example_crash (boot example_node))))))
    by (intros _; eexists; vm_compute; reflexivity).
  assert (Hp : LCD.currentPriority
                 (LCD (node (snd (run example_crash (boot example_node)))))
               <= 2) by (vm_compute; discriminate).
  split; [exact H|]. split; [|split].
  - destruct (error_message_until_cleanup
                (snd (run example_crash (boot example_node)))
                "KeyError: 'Go'" [ev_update_display; ev_update_display]
                H Hs Hw Hp)
      as [(d & Hd & _ & Hshow & [[H1 H2]|[H1 _]]) _].
    + exists d. split; [exact Hd|]. split; [exact H1|].
      rewrite H2. exact Hshow.
    + vm_compute in H1. discriminate.
  - destruct (error_message_until_cleanup
                (snd (run example_crash (boot example_node)))
                "KeyError: 'Go'"
                [ev_update_display; ev_update_display;
                 ev_run_tasks "KeyError: 'Go'"; ev_update_display]
                H Hs Hw Hp)
      as [(d & Hd & _ & _ & [[H1 _]|[_ H2]]) _].
    + vm_compute in H1. discriminate.
    + exists d. split; [exact Hd|exact H2].
  - apply (error_message_until_cleanup
             (snd (run example_crash (boot example_node)))
             "KeyError: 'Go'"
             [ev_update_display; ev_update_display;
              ev_run_tasks "KeyError: 'Go'"; ev_update_display]
             H Hs Hw Hp).
Defined.

(** ** Before the setup tasks complete *)

Lemma await_setup_tasks_eval n g :
  setup_tasks n = Some g -> await_setup_tasks n = (Ok (gathering_done g), n).
Proof.
  intros Hg. unfold await_setup_tasks, bind, getattr, ret. rewrite Hg.
  reflexivity.
Qed.

Lemma resume_synchronizer_done attempt_ result store w answer n g :
  setup_tasks n = Some g -> is_Some (result g) ->
  resume_synchronizer attempt_ result store w answer n = (Ok w, n).
Proof.
  intros Hg [x Hx]. unfold resume_synchronizer, bind, getattr.
  rewrite Hg, Hx. reflexivity.
Qed.

Lemma gathering_done_results g :
  gathering_done g = true
  <-> is_Some (state_frame_result g) /\ is_Some (attributes_result g).
Proof.
  unfold gathering_done.
  destruct (state_frame_result g), (attributes_result g); split;
    try discriminate; try (intros [[x Hx] [y Hy]]; discriminate); eauto.
Qed.

(** The gathering future never goes back from done to not done. *)
Lemma step_setup_monotone e s g g' :
  setup_tasks (node s) = Some g ->
  setup_tasks (node (snd (step e s))) = Some g' ->
  gathering_done g = true -> gathering_done g' = true.
Proof.
  intros Hg Hg' Hd.
  assert (Hother : event_preserves setup_tasks e s -> gathering_done g' = true).
  { intros H. rewrite (step_preserves setup_tasks e s H), Hg in Hg'.
    injection Hg' as <-. exact Hd. }
  apply gathering_done_results in Hd as [Hd1 Hd2].
  assert (Hsync : forall {A} (t : task) (c : M A) (h : A -> System -> System)
                         (a0 : A),
             (forall a s, node (h a s) = node s) ->
             c (node s) = (Ok a0, node s) ->
             node (stored h (resume t c s)) = node s).
  { intros A t c h a0 Hh Ec.
    destruct (stored_resume_cases t c h s) as [E|[(a & n' & Ec' & E)|(x & n' & Er)]].
    - rewrite E. reflexivity.
    - rewrite E, Hh. cbn. congruence.
    - congruence. }
  destruct e;
    try solve [apply Hother; cbn [event_preserves];
               first [solve [frame_event] | solve [split; frame_event]]].
  - cbn [step snd] in Hg'.
    rewrite (Hsync _ _ _ _ (update_state_frame_pc s)) in Hg'.
    + rewrite Hg in Hg'. injection Hg' as <-.
      apply gathering_done_results. auto.
    + reflexivity.
    + apply (resume_synchronizer_done _ _ _ _ _ _ g Hg Hd1).
  - cbn [step snd] in Hg'.
    rewrite (Hsync _ _ _ _ (update_attributes_pc s)) in Hg'.
    + rewrite Hg in Hg'. injection Hg' as <-.
      apply gathering_done_results. auto.
    + reflexivity.
    + apply (resume_synchronizer_done _ _ _ _ _ _ g Hg Hd2).
Qed.

Lemma step_keeps_gated_pcs e s :
  e <> ev_update_node_series -> (forall a, e <> ev_get_cue_series a) ->
  e <> ev_get_button_input ->
  gated_pcs (snd (step e s)) = gated_pcs s.
Proof.
  intros H1 H2 H3.
  destruct e; try contradiction; try (exfalso; eapply H2; reflexivity);
    cbn [step snd];
    try (rewrite stored_keeps by reflexivity);
    try (apply resume_keeps; reflexivity).
  - destruct (run_tasks_pc s); reflexivity.
  - unfold resume_run_tasks. destruct (run_tasks_pc s); try reflexivity.
    destruct ((modify (fun n => set_errorStorage
                         (ErrorStorage.update trace (errorStorage n)) n);;
               call_LCD (LCD.display_text error_text 2)) (node s))
      as [[[]|e] n']; reflexivity.
Qed.

Lemma step_untouched e s g :
  setup_tasks (node s) = Some g -> gathering_done g = false ->
  untouched s -> untouched (snd (step e s)).
Proof.
  intros Hg Hd [Hv Hpc].
  pose proof (await_setup_tasks_eval (node s) g Hg) as Ea. rewrite Hd in Ea.
  assert (Hother : e <> ev_update_node_series ->
                   (forall a, e <> ev_get_cue_series a) ->
                   e <> ev_get_button_input ->
                   event_preserves cue_view e s ->
                   untouched (snd (step e s))).
  { intros H1 H2 H3 H. split.
    - rewrite (step_preserves cue_view e s H). exact Hv.
    - rewrite (step_keeps_gated_pcs e s H1 H2 H3). exact Hpc. }
  injection Hpc as Hn Hc Hb.
  destruct e;
    try solve [apply Hother; try discriminate; try (intros a'; discriminate);
               cbn [event_preserves];
               first [solve [frame_event] | solve [split; frame_event]]].
  - cbn [step snd].
    assert (Ec : resume_get_cue_series (get_cue_series_pc s) answer (node s)
                 = (Ok CueAwaitSetup, node s)).
    { rewrite Hc. cbn [resume_get_cue_series].
      rewrite (bind_ok _ _ _ _ _ Ea). reflexivity. }
    destruct (stored_resume_cases get_cue_series_task
                (resume_get_cue_series (get_cue_series_pc s) answer)
                with_get_cue_series_pc s)
      as [E|[(a & n' & Ec' & E)|(x & n' & Er)]]; [| |congruence].
    + rewrite E. split; [exact Hv|]. unfold gated_pcs. congruence.
    + rewrite E. rewrite Ec in Ec'. injection Ec' as <- <-.
      split; [exact Hv|]. unfold gated_pcs. cbn. congruence.
  - cbn [step snd].
    assert (Ec : resume_get_button_input (get_button_input_pc s) (node s)
                 = (Ok ButtonAwaitSetup, node s)).
    { rewrite Hb. cbn [resume_get_button_input].
      rewrite (bind_ok _ _ _ _ _ Ea). reflexivity. }
    destruct (stored_resume_cases get_button_input_task
                (resume_get_button_input (get_button_input_pc s))
                with_get_button_input_pc s)
      as [E|[(a & n' & Ec' & E)|(x & n' & Er)]]; [| |congruence].
    + rewrite E. split; [exact Hv|]. unfold gated_pcs. congruence.
    + rewrite E. rewrite Ec in Ec'. injection Ec' as <- <-.
      split; [exact Hv|]. unfold gated_pcs. cbn. congruence.
  - cbn [step].
    assert (Ec : resume_update_node_series (update_node_series_pc s) (node s)
                 = (Ok (NodeAwaitSetup, None), node s)).
    { rewrite Hn. cbn [resume_update_node_series].
      rewrite (bind_ok _ _ _ _ _ Ea). reflexivity. }
    destruct (resume_cases update_node_series_task
                (resume_update_node_series (update_node_series_pc s)) s)
      as [E|[(a & n' & Ec' & E)|(x & n' & s' & Er & _)]]; [| |congruence].
    + rewrite E. split; [exact Hv|]. unfold gated_pcs. cbn. congruence.
    + rewrite E. rewrite Ec in Ec'. injection Ec' as <- <-.
      split; [exact Hv|]. unfold gated_pcs. cbn. congruence.
Qed.

Lemma run_untouched es : forall s,
  healthy s ->
  (forall g, setup_tasks (node s) = Some g -> gathering_done g = false ->
             untouched s) ->
  forall g', setup_tasks (node (snd (run es s))) = Some g' ->
             gathering_done g' = false -> untouched (snd (run es s)).
Proof.
  induction es as [|e es IH]; intros s Hs K; [exact K|].
  rewrite run_cons. cbn [snd].
  apply IH; [apply step_healthy; exact Hs|].
  intros g1 Hg1 Hd1.
  destruct Hs as ((_ & (g & Hg & _) & _) & _).
  destruct (gathering_done g) eqn:Hd.
  - rewrite (step_setup_monotone e s g g1 Hg Hg1 Hd) in Hd1. discriminate.
  - apply (step_untouched e s g Hg Hd). apply (K g Hg Hd).
Qed.

(** X17.  Nothing before setup.  At every point of every run of a freshly
    constructed node at which not both synchronizers have returned, the cue
    tracker, the button monitor and the node state machine are still waiting
    for the setup tasks: no cue is tracked, the node record is empty,
    nothing has been published, and the transition flags are as the
    constructor left them. *)
Theorem nothing_before_setup
    (errorStorageFile : string) (disk : option (list string)) (mac : string)
    (ADDRESSES : list Z) (responds : Z -> bool) (es : list event)
    (g : gathering) :
  setup_tasks (node (snd (run es (boot (Node_init errorStorageFile disk mac
                                          ADDRESSES responds))))) = Some g ->
  gathering_done g = false ->
  untouched (snd (run es (boot (Node_init errorStorageFile disk mac
                                  ADDRESSES responds)))).
Proof.
  apply run_untouched.
  - apply boot_healthy.
  - intros g0 _ _. split; reflexivity.
Qed.

Lemma nothing_before_setup_witness :
  untouched
    (snd (run [ev_uptodate_check (VInt 0); ev_uptodate_check (VInt 1);
               ev_update_attributes (Some example_attributes);
               ev_update_state_frame None;
               ev_get_cue_series (Some (example_cue 12 "Standby" "Wait"));
               ev_button_edge; ev_get_button_input; ev_update_node_series]
            (boot example_node))).
Proof.
  apply (nothing_before_setup "errors.json" None "b8:27:eb:00:00:01" [39; 63]
           (Z.eqb 63) _ (mkGathering None (Some "Attributes Updated"))).
  - vm_compute. reflexivity.
  - reflexivity.
Defined.

(** ** Reads of the node record and of the attributes *)



(** ** The LEDs *)

(** The literal of the source is the quotient 255/100 rounded to the nearest
    float. *)
Lemma lit_2_55_nearest :
  (x ← PyFloat.of_int 255; y ← PyFloat.of_int 100;
   Some (SpecFloat.SFdiv PyFloat.prec PyFloat.emax x y))
  = Some PyFloat.lit_2_55.
Proof. vm_compute. reflexivity. Qed.

Lemma byte_cases (P : Z -> Prop) :
  (forall k, (k < 256)%nat -> P (Z.of_nat k)) ->
  forall v, 0 <= v <= 255 -> P v.
Proof.
  intros H v Hv. rewrite <- (Z2Nat.id v) by lia. apply H. lia.
Qed.

Lemma percentage_of_byte v :
  0 <= v <= 255 ->
  (f ← PyFloat.int_truediv v PyFloat.lit_2_55; PyFloat.to_int f)
  = Some (100 * v / 255).
Proof.
  revert v. apply byte_cases. intros k Hk.
  assert (E : forallb
                (fun k =>
                   bool_decide
                     ((f ← PyFloat.int_truediv (Z.of_nat k) PyFloat.lit_2_55;
                       PyFloat.to_int f)
                      = Some (100 * Z.of_nat k / 255)))
                (seq 0 256) = true) by (vm_compute; reflexivity).
  rewrite forallb_forall in E.
  specialize (E k). rewrite bool_decide_eq_true in E.
  apply E, in_seq. lia.
Qed.

(** X18. Hexadecimal colours become percentages: when the three parts of the
    colour read as numbers between 0 and 255, [__get_hex] returns for each
    the integer part of 100 v / 255 (the float quotient by 2.55 truncated,
    not rounded), a number between 0 and 100 that is 100 only for 255 and 0
    only below 3. *)
Theorem get_hex_percentages (int16 : string -> option Z) hexNum r g b :
  int16 ("0x" +:+ slice 0 2 hexNum) = Some r ->
  int16 ("0x" +:+ slice 2 4 hexNum) = Some g ->
  int16 ("0x" +:+ slice 4 (String.length hexNum) hexNum) = Some b ->
  0 <= r <= 255 -> 0 <= g <= 255 -> 0 <= b <= 255 ->
  RGBLEDManagement.get_hex int16 hexNum
  = Some (100 * r / 255, 100 * g / 255, 100 * b / 255)
  /\ Forall (fun v => 0 <= 100 * v / 255 <= 100
                      /\ (100 * v / 255 = 100 <-> v = 255)
                      /\ (100 * v / 255 = 0 <-> v < 3)) [r; g; b].
Proof.
  intros Er Eg Eb Hr Hg Hb. split.
  - unfold RGBLEDManagement.get_hex, RGBLEDManagement.percentage.
    rewrite Er, Eg, Eb. cbn [mbind option_bind].
    rewrite !percentage_of_byte by assumption. reflexivity.
  - assert (H : forall v, 0 <= v <= 255 ->
                  0 <= 100 * v / 255 <= 100
                  /\ (100 * v / 255 = 100 <-> v = 255)
                  /\ (100 * v / 255 = 0 <-> v < 3)).
    { intros v Hv.
      pose proof (Z.div_mod (100 * v) 255 ltac:(lia)) as Hd.
      pose proof (Z.mod_pos_bound (100 * v) 255 ltac:(lia)) as Hm.
      repeat split; lia. }
    repeat (apply Forall_cons_2; [apply H; assumption|]). apply Forall_nil_2.
Qed.

Lemma get_hex_percentages_witness :
  RGBLEDManagement.get_hex example_int16 "FFFF00" = Some (100, 100, 0).
Proof.
  destruct (get_hex_percentages example_int16 "FFFF00" 255 255 0) as [E _].
  - reflexivity.
  - reflexivity.
  - reflexivity.
  - lia.
  - lia.
  - lia.
  - exact E.
Defined.

(** *** One call of run_LED_tasks *)

Ltac led_eval :=
  repeat progress
    (cbn -[Z.add Z.max RGBLEDManagement.get_hex];
     unfold RGBLEDManagement.set_hex;
     repeat match goal with
            | E : RGBLEDManagement.get_hex _ _ = _ |- _ => rewrite E
            | H : (_ <=? _)%Z = true |- _ => rewrite H
            end;
     rewrite ?Z.leb_refl).

Ltac led_done :=
  eexists; split; [reflexivity|];
  cbn -[Z.add Z.max RGBLEDManagement.get_hex];
  split;
    [split; intros; first [reflexivity | discriminate | exact I
                          | eexists; reflexivity
                          | match goal with
                            | H : is_Some None |- _ => destruct H; discriminate
                            end]
    |];
  split;
    [repeat first [apply Forall_nil_2
                  | apply Forall_cons_2; [cbn; auto|]]|];
  split;
    [intros h rgb Eh; try discriminate Eh; injection Eh as <-;
     match goal with
     | E : RGBLEDManagement.get_hex _ _ = _ |- _ => rewrite E
     end;
     intros Ergb; try discriminate Ergb; injection Ergb as <-;
     eexists; split; reflexivity
    |];
  intros; try discriminate; repeat split; reflexivity.

(** The outcome of one call of [run_LED_tasks], case by case. *)
Lemma run_LED_tasks_cases (int16 : string -> option Z) now g d :
  exists o,
    Devices.run_LED_tasks int16 now g d = Some o
    /\ (Devices.returned o = true
        <-> match shown_colour g with
            | Some h => is_Some (RGBLEDManagement.get_hex int16 h)
            | None => True
            end)
    /\ Forall (fun x => fst x = now \/ fst x = now + Z.max (GPIO.delay g) 0)
         (Devices.timeline o)
    /\ (forall h rgb,
          shown_colour g = Some h ->
          RGBLEDManagement.get_hex int16 h = Some rgb ->
          exists d1, Devices.timeline o !! 1%nat = Some (now, d1)
                     /\ Devices.lights d1 = (Some (lit_first g), rgb))
    /\ (Devices.returned o = true ->
        LEDManager.output (Devices.buttonLED (devices_after d o)) = Some (steady_on g)
        /\ (if steady_colour g then
              RGBLEDManagement.get_hex int16 (GPIO.screenArg g)
              = Some (snd (Devices.lights (devices_after d o)))
            else snd (Devices.lights (devices_after d o)) = Devices.default_lights d)
        /\ Devices.default_lights (devices_after d o) = Devices.default_lights d).
Proof.
  unfold Devices.run_LED_tasks, shown_colour, GPIO.run_LED_tasks, steady_on,
    steady_colour, lit_first, devices_after.
  destruct g as [delay conn st bt sa ba ip].
  cbn [GPIO.isConnected GPIO.buttonTask GPIO.screenTask GPIO.screenArg
       GPIO.buttonArg GPIO.delay].
  assert (Hl : (now <=? now + Z.max delay 0)%Z = true) by (apply Z.leb_le; lia).
  destruct conn.
  - destruct (RGBLEDManagement.get_hex int16 sa) as [[[r gr] bl]|] eqn:E;
      destruct bt, st; led_eval; led_done.
  - destruct (RGBLEDManagement.get_hex int16 "FF0000") as [[[r gr] bl]|] eqn:E;
      led_eval; led_done.
Qed.

(** X19. One call of [run_LED_tasks], whatever the selection and whatever the
    LEDs showed before: the call raises exactly when the colour it has to
    convert does not convert; its writes happen when it starts and, for a
    blink, [delay] seconds later; after the first turn of both tasks the
    screen shows the converted colour and the button's LED is lit if it is
    to stay lit or to blink; and when it returns, the button's
    LED is lit only for a connected node with the steady task and argument
    True, the screen shows the colour of the solid task of a connected node
    and the default colour in every other case (each blink ends at rest),
    and the default colour itself is unchanged. *)
Theorem led_cycle_ends_at_rest (int16 : string -> option Z) now g d :
  exists o,
    Devices.run_LED_tasks int16 now g d = Some o
    /\ (Devices.returned o = true
        <-> match shown_colour g with
            | Some h => is_Some (RGBLEDManagement.get_hex int16 h)
            | None => True
            end)
    /\ Forall (fun x => fst x = now \/ fst x = now + Z.max (GPIO.delay g) 0)
         (Devices.timeline o)
    /\ (forall h rgb,
          shown_colour g = Some h ->
          RGBLEDManagement.get_hex int16 h = Some rgb ->
          exists d1, Devices.timeline o !! 1%nat = Some (now, d1)
                     /\ Devices.lights d1 = (Some (lit_first g), rgb))
    /\ (Devices.returned o = true ->
        LEDManager.output (Devices.buttonLED (devices_after d o)) = Some (steady_on g)
        /\ (if steady_colour g then
              RGBLEDManagement.get_hex int16 (GPIO.screenArg g)
              = Some (snd (Devices.lights (devices_after d o)))
            else snd (Devices.lights (devices_after d o)) = Devices.default_lights d)
        /\ Devices.default_lights (devices_after d o) = Devices.default_lights d).
Proof. apply run_LED_tasks_cases. Qed.

(** *** The colours that the node selects *)

Lemma keeps_bind {A B} (P : Node -> Prop) (c : M A) (k : A -> M B) :
  keeps P c -> (forall a, keeps P (k a)) -> keeps P (bind c k).
Proof.
  intros Hc Hk n Hn. unfold bind. specialize (Hc n Hn).
  destruct (c n) as [[a|e] n']; cbn in *; [apply Hk|]; exact Hc.
Qed.

Lemma keeps_preserved {A} (Q : GPIO.t -> Prop) (c : M A) :
  preserves GPIO c -> keeps (fun n => Q (GPIO n)) c.
Proof. intros Hc n Hn. rewrite Hc. exact Hn. Qed.

Lemma keeps_call_GPIO (Q : GPIO.t -> Prop) f :
  (forall g, Q g -> Q (f g)) -> keeps (fun n => Q (GPIO n)) (call_GPIO f).
Proof. intros H n Hn. destruct n. apply H, Hn. Qed.

Lemma update_LEDs_keeps_node_colours pc :
  keeps (fun n => node_colours (GPIO n)) (resume_update_LEDs pc).
Proof.
  assert (Hg : forall f, (forall g, node_colours g -> node_colours (f g)) ->
                         keeps (fun n => node_colours (GPIO n)) (call_GPIO f))
    by (intros f; apply keeps_call_GPIO).
  assert (Hc : keeps (fun n => node_colours (GPIO n)) update_LEDs_cycle).
  { unfold update_LEDs_cycle.
    repeat first
      [ progress intros
      | apply keeps_preserved; solve [frame]
      | apply keeps_bind
      | apply Hg; intros g Hq; destruct g; cbn in *; solve [auto]
      | match goal with
        | |- keeps _ (if ?b then _ else _) => destruct b
        end ]. }
  destruct pc; unfold resume_update_LEDs, update_LEDs_start.
  - apply keeps_bind; [apply keeps_preserved; frame|intros].
    apply keeps_bind; [exact Hc|intros; apply keeps_preserved; frame].
  - apply keeps_bind; [exact Hc|intros; apply keeps_preserved; frame].
Qed.

Lemma node_colours_view g g' :
  (GPIO.screenTask g', GPIO.screenArg g') = (GPIO.screenTask g, GPIO.screenArg g) ->
  node_colours g -> node_colours g'.
Proof. intros [= H1 H2]. unfold node_colours. rewrite H1, H2. auto. Qed.

Lemma step_keeps_node_colours e s :
  node_colours (GPIO (node s)) -> node_colours (GPIO (node (snd (step e s)))).
Proof.
  intros H.
  assert (Hother : event_preserves
                     (fun n => (GPIO.screenTask (GPIO n), GPIO.screenArg (GPIO n)))
                     e s ->
                   node_colours (GPIO (node (snd (step e s))))).
  { intros Hp. apply (node_colours_view (GPIO (node s))); [|exact H].
    apply (step_preserves
             (fun n => (GPIO.screenTask (GPIO n), GPIO.screenArg (GPIO n)))
             e s Hp). }
  destruct e;
    try solve [apply Hother; cbn [event_preserves];
               first [solve [frame_event; intros n; reflexivity]
                     | solve [split; frame_event; intros n; reflexivity]]].
  - cbn [step snd].
    pose proof (update_LEDs_keeps_node_colours (update_LEDs_pc s) (node s) H)
      as Hk.
    destruct (resume_cases update_LEDs_task
                (resume_update_LEDs (update_LEDs_pc s)) s)
      as [E|[(a & n' & Ec & E)|(x & n' & s' & Ec & E & Hn)]];
      rewrite E; cbn [stored].
    + exact H.
    + rewrite Ec in Hk. exact Hk.
    + rewrite Hn. rewrite Ec in Hk. exact Hk.
  - cbn [step snd]. destruct (run_tasks_pc s); try exact H;
      destruct s as [n]; destruct n; exact H.
Qed.

Lemma run_keeps_node_colours es : forall s,
  node_colours (GPIO (node s)) -> node_colours (GPIO (node (snd (run es s)))).
Proof.
  induction es as [|e es IH]; intros s Hs; [exact Hs|].
  rewrite run_cons. cbn [snd]. apply IH, step_keeps_node_colours, Hs.
Qed.

Lemma get_hex_literals (int16 : string -> option Z) :
  int16 "0xFF" = Some 255 -> int16 "0x00" = Some 0 ->
  RGBLEDManagement.get_hex int16 "FFFF00" = Some (100, 100, 0)
  /\ RGBLEDManagement.get_hex int16 "00FF00" = Some (0, 100, 0)
  /\ RGBLEDManagement.get_hex int16 "FF0000" = Some (100, 0, 0)
  /\ RGBLEDManagement.get_hex int16 "0000FF" = Some (0, 0, 100)
  /\ RGBLEDManagement.get_hex int16 "000000" = Some (0, 0, 0).
Proof.
  intros HFF H00.
  assert (EFF : RGBLEDManagement.percentage int16 "FF" = Some 100)
    by (unfold RGBLEDManagement.percentage;
        change ("0x" +:+ "FF") with "0xFF"; rewrite HFF; reflexivity).
  assert (E00 : RGBLEDManagement.percentage int16 "00" = Some 0)
    by (unfold RGBLEDManagement.percentage;
        change ("0x" +:+ "00") with "0x00"; rewrite H00; reflexivity).
  unfold RGBLEDManagement.get_hex.
  repeat split;
    repeat match goal with
           | |- context [slice ?i ?j ?s] =>
               let x := eval vm_compute in (slice i j s) in
               change (slice i j s) with x
           end;
    rewrite ?EFF, ?E00; reflexivity.
Qed.

(** X20. The LEDs of the node. Along every run of a freshly constructed
    node the LED decision only ever selects yellow or green for the solid
    screen and yellow for the blinking one. So, with the builtin reading FF
    as 255 and 00 as 0: the devices are created with blue as their default
    colour; no call of [run_LED_tasks] raises; it ends on blue, yellow or
    green; while the node is not connected it shows red with the button's
    LED off and ends on blue; and [cleanup] returns with the three channels
    at 0. *)
Theorem node_led_cycles (int16 : string -> option Z)
    (errorStorageFile : string) (disk : option (list string)) (mac : string)
    (ADDRESSES : list Z) (responds : Z -> bool) (es : list event)
    (now : Z) (d : Devices.t) :
  int16 "0xFF" = Some 255 -> int16 "0x00" = Some 0 ->
  Devices.default_lights d = (0, 0, 100) ->
  let g := GPIO (node (snd (run es (boot (Node_init errorStorageFile disk mac
                                           ADDRESSES responds))))) in
  node_colours g
  /\ Devices.init int16 (19, 13, 12) "0000FF" 6 5 = Some example_devices
  /\ (exists o,
        Devices.run_LED_tasks int16 now g d = Some o
        /\ Devices.returned o = true
        /\ (snd (Devices.lights (devices_after d o)) = (0, 0, 100)
            \/ snd (Devices.lights (devices_after d o)) = (100, 100, 0)
            \/ snd (Devices.lights (devices_after d o)) = (0, 100, 0))
        /\ Devices.default_lights (devices_after d o) = (0, 0, 100)
        /\ (GPIO.isConnected g = false ->
            Devices.lights (devices_after d o) = (Some false, (0, 0, 100))
            /\ exists d1, Devices.timeline o !! 1%nat = Some (now, d1)
                          /\ Devices.lights d1 = (Some false, (100, 0, 0))))
  /\ (exists d', Devices.cleanup int16 d = Some d'
                 /\ snd (Devices.lights d') = (0, 0, 0)
                 /\ Devices.detecting d' = false).
Proof.
  intros HFF H00 Hd g.
  destruct (get_hex_literals int16 HFF H00) as (Ey & Eg & Er & Eb & Ek).
  assert (Hc : node_colours g)
    by (apply run_keeps_node_colours; exact I).
  split; [exact Hc|]. split.
  { unfold Devices.init, RGBLEDManagement.init. rewrite Eb. reflexivity. }
  split.
  - destruct (run_LED_tasks_cases int16 now g d)
      as (o & Eo & Hret & _ & Hduring & Hfinal).
    assert (Hconv : match shown_colour g with
                    | Some h =>
                        h = "FF0000" /\ GPIO.isConnected g = false
                        \/ (h = "FFFF00" \/ h = "00FF00")
                           /\ GPIO.isConnected g = true
                           /\ h = GPIO.screenArg g
                    | None => True
                    end).
    { revert Hc. unfold shown_colour, GPIO.run_LED_tasks, node_colours.
      destruct (GPIO.isConnected g); [|intros; left; auto].
      destruct (GPIO.screenTask g); cbn; intros; auto. }
    assert (Hok : Devices.returned o = true).
    { apply Hret. destruct (shown_colour g) as [h|]; [|exact I].
      destruct Hconv as [[-> _]|[[->| ->] _]]; eexists; eassumption. }
    destruct (Hfinal Hok) as (Hb & Hcol & Hdef).
    exists o. split; [exact Eo|]. split; [exact Hok|].
    rewrite Hdef, Hd. split; [|split; [reflexivity|]].
    + revert Hcol. unfold steady_colour.
      destruct (GPIO.isConnected g); cbn [andb];
        [|rewrite Hd; intros ->; auto].
      revert Hc. unfold node_colours.
      destruct (GPIO.screenTask g);
        try (intros _; rewrite Hd; intros ->; auto).
      intros [E|E]; rewrite E; [rewrite Ey|rewrite Eg]; intros H;
        apply (inj Some) in H; rewrite <- H; auto.
    + intros Hn. split.
      * revert Hb Hcol. unfold steady_on, steady_colour. rewrite Hn. cbn [andb].
        rewrite Hd. intros Hb Hcol.
        change (LEDManager.output (Devices.buttonLED (devices_after d o)))
          with (fst (Devices.lights (devices_after d o))) in Hb.
        destruct (Devices.lights (devices_after d o)) as [x y]. cbn [fst snd] in Hb, Hcol.
        rewrite Hb, Hcol. reflexivity.
      * destruct (Hduring "FF0000" (100, 0, 0)) as (d1 & E1 & L1).
        -- unfold shown_colour, GPIO.run_LED_tasks. rewrite Hn. reflexivity.
        -- exact Er.
        -- exists d1. split; [exact E1|]. rewrite L1. unfold lit_first.
           rewrite Hn. reflexivity.
  - unfold Devices.cleanup, RGBLEDManagement.set_hex. rewrite Ek.
    eexists. split; [reflexivity|]. split; reflexivity.
Qed.

Lemma node_led_cycles_witness :
  exists o,
    Devices.run_LED_tasks example_int16 0
      (GPIO (node (snd (run [ev_uptodate_check (VInt 0);
                             ev_uptodate_check (VInt 1);
                             ev_update_LEDs; ev_run_LEDs]
                        (boot example_node)))))
      example_devices = Some o
    /\ Devices.returned o = true.
Proof.
  destruct (node_led_cycles example_int16 "errors.json" None
              "b8:27:eb:00:00:01" [39; 63] (Z.eqb 63)
              [ev_uptodate_check (VInt 0); ev_uptodate_check (VInt 1);
               ev_update_LEDs; ev_run_LEDs]
              0 example_devices)
    as (_ & _ & (o & Eo & Hok & _) & _).
  - reflexivity.
  - reflexivity.
  - reflexivity.
  - exists o. split; [exact Eo|exact Hok].
Defined.
